(** * ci_bot.py: a shallow embedding of the build notifier

    The development follows [src/ci_bot.py]: the detection of the ROM name
    and of the Android version at import, the configuration loader
    [load_env], the Telegram client [CIBot], the upload adapters, the
    progress extractor [fetch_progress] and the driver [main].

    Conventions of the model.
    - A Python [str] is a Rocq [string]; its characters are the code points
      U+0000..U+00FF (Rocq's 8-bit [ascii]).  On that range [str.strip()],
      [str.lower()] and the regular expression class [\d] are as defined
      below.
    - A dictionary is a [gmap string _].
    - Effects are explicit: a computation is a function of the tracked
      [bot.message_id] that returns the events it performed, the new
      [bot.message_id] and how it ended (a value, a raised exception or
      [sys.exit]).  What the outside world answers (files, exit codes of
      child processes, replies of the HTTP services, clocks) is read from a
      [World] record.
    - A text file is given by its decoded text with line ends already
      translated to the newline character, as Python's text layer hands it
      to the program.
    - Elapsed times are whole seconds; [os.cpu_count()] is an integer.
    - Exceptions are modelled where the program's own data decide them (a
      missing key, a device that is not a string, an empty candidate list,
      the exit status of a checked child process) and where the program
      catches them (unreadable log, failing HTTP call, a file that does
      not open for its upload).  Beyond that the external programs are
      taken to be installed, the file operations (remove, copy, write,
      archive, listing an existing directory) to succeed, and the build
      child to exit after finitely many polls. *)

From Stdlib Require Import ZArith Ascii String List Lia DecimalString Sorted.
From stdpp Require Import base option gmap strings list.

Local Open Scope Z_scope.

(** * The program *)

(** ** Python string primitives *)

Definition dq : ascii := "034"%char.
Definition sq : ascii := "039"%char.
Definition nl : ascii := "010"%char.
Definition esc : ascii := "027"%char.

Definition NL : string := String nl "".
Definition DQ : string := String dq "".

Definition code (c : ascii) : Z := Z.of_nat (nat_of_ascii c).

Definition ascii_eqb (a b : ascii) : bool := Ascii.eqb a b.

(** [c.isspace()] *)
Definition is_space (c : ascii) : bool :=
  let n := code c in
  ((9 <=? n) && (n <=? 13)) || ((28 <=? n) && (n <=? 32))
  || (n =? 133) || (n =? 160).

(** the class [\d] *)
Definition is_digit (c : ascii) : bool :=
  let n := code c in (48 <=? n) && (n <=? 57).

(** [c.lower()] *)
Definition lower_char (c : ascii) : ascii :=
  let n := code c in
  if ((65 <=? n) && (n <=? 90))
     || ((192 <=? n) && (n <=? 222) && negb (n =? 215))
  then ascii_of_nat (Z.to_nat (n + 32)) else c.

Fixpoint lower (s : string) : string :=
  match s with
  | EmptyString => EmptyString
  | String c s' => String (lower_char c) (lower s')
  end.

Definition is_empty (s : string) : bool :=
  match s with EmptyString => true | _ => false end.

(** [s.startswith(p)] *)
Fixpoint startswith (p s : string) : bool :=
  match p, s with
  | EmptyString, _ => true
  | String a p', String b s' => ascii_eqb a b && startswith p' s'
  | String _ _, EmptyString => false
  end.

(** [p in s] *)
Fixpoint contains (p s : string) : bool :=
  startswith p s ||
  match s with
  | EmptyString => false
  | String _ s' => contains p s'
  end.

(** [s.endswith(p)] *)
Fixpoint endswith (p s : string) : bool :=
  String.eqb s p ||
  match s with
  | EmptyString => false
  | String _ s' => endswith p s'
  end.

(** [s.lstrip(chars)], [s.rstrip(chars)] and [s.strip(chars)], the set
    [chars] given by its membership test: every leading and every trailing
    character of the set is removed. *)
Fixpoint lstrip_by (p : ascii -> bool) (s : string) : string :=
  match s with
  | EmptyString => EmptyString
  | String c s' => if p c then lstrip_by p s' else s
  end.

Fixpoint rstrip_by (p : ascii -> bool) (s : string) : string :=
  match s with
  | EmptyString => EmptyString
  | String c s' =>
      let r := rstrip_by p s' in
      if is_empty r && p c then EmptyString else String c r
  end.

Definition strip_by (p : ascii -> bool) (s : string) : string :=
  rstrip_by p (lstrip_by p s).

(** [s.strip()] *)
Definition strip (s : string) : string := strip_by is_space s.

(** [s.strip(c)] for a one-character string [c] *)
Definition strip_char (c : ascii) (s : string) : string :=
  strip_by (ascii_eqb c) s.

(** [s.split(c, 1)] when [c in s]: the text before and after the first [c] *)
Fixpoint split_first (c : ascii) (s : string) : option (string * string) :=
  match s with
  | EmptyString => None
  | String a s' =>
      if ascii_eqb c a then Some (EmptyString, s')
      else match split_first c s' with
           | Some (k, v) => Some (String a k, v)
           | None => None
           end
  end.

(** The lines of a text, each with its line end, as [f.readlines()] and
    [for line in f] give them. *)
Fixpoint readlines (s : string) : list string :=
  match s with
  | EmptyString => []
  | String c s' =>
      if ascii_eqb c nl then String c EmptyString :: readlines s'
      else match readlines s' with
           | [] => [String c EmptyString]
           | l :: ls => String c l :: ls
           end
  end.

(** [s.replace(old, new)] for a non-empty [old]; [skip] counts the
    characters of a replaced occurrence still to pass over. *)
Fixpoint replace_from (old new : string) (skip : nat) (s : string) : string :=
  match s with
  | EmptyString => EmptyString
  | String c s' =>
      match skip with
      | S k => replace_from old new k s'
      | O =>
          if startswith old s
          then new +:+ replace_from old new (Nat.pred (String.length old)) s'
          else String c (replace_from old new O s')
      end
  end.

Definition replace (old new s : string) : string := replace_from old new O s.

(** [os.path.basename(p)] *)
Fixpoint basename (p : string) : string :=
  match p with
  | EmptyString => EmptyString
  | String c p' =>
      if contains "/" p then basename p' else p
  end.

(** [os.path.join(a, b)] *)
Definition path_join (a b : string) : string :=
  if startswith "/" b then b
  else if is_empty a || endswith "/" a then a +:+ b
  else a +:+ "/" +:+ b.

Definition concat_str (l : list string) : string :=
  fold_right String.append EmptyString l.

(** [str(n)] for an integer *)
Definition str_of_Z (n : Z) : string := NilZero.string_of_int (Z.to_int n).

(** ** The progress pattern

    [re.search(r'(\d+%) (\d+/\d+)', line)].  A run [\d+] is followed in the
    pattern by a character that is not a digit, so only the longest run of
    digits can lead to a match and backtracking into it never helps; the
    last [\d+] is greedy. *)

Fixpoint span_digits (s : string) : string * string :=
  match s with
  | EmptyString => (EmptyString, EmptyString)
  | String c s' =>
      if is_digit c
      then let (d, r) := span_digits s' in (String c d, r)
      else (EmptyString, s)
  end.

(** A literal character of the pattern. *)
Definition expect (c : ascii) (s : string) : option string :=
  match s with
  | EmptyString => None
  | String a s' => if ascii_eqb a c then Some s' else None
  end.

(** The match that starts at the first character of [s], if there is one:
    the two captured groups. *)
Definition match_here (s : string) : option (string * string) :=
  let (d1, r1) := span_digits s in
  if is_empty d1 then None else
  r1 ← expect "%" r1;
  r2 ← expect " " r1;
  let (d2, r3) := span_digits r2 in
  if is_empty d2 then None else
  r4 ← expect "/" r3;
  let (d3, _) := span_digits r4 in
  if is_empty d3 then None
  else Some (d1 +:+ "%", d2 +:+ "/" +:+ d3).

(** The leftmost match. *)
Fixpoint re_search (s : string) : option (string * string) :=
  match match_here s with
  | Some g => Some g
  | None =>
      match s with
      | EmptyString => None
      | String _ s' => re_search s'
      end
  end.

(** ** Files as the program sees them *)

Inductive file : Type :=
  | Missing                     (* [os.path.exists] is false *)
  | Unreadable (e : string)     (* exists; opening or reading raises [e] *)
  | Text (content : string).

(** ** fetch_progress *)

Definition SENTINEL : string := "Initializing...".

(** The loop [for line in reversed(lines)], on the lines already reversed. *)
Fixpoint scan_lines (lines : list string) : option string :=
  match lines with
  | [] => None
  | line :: rest =>
      if contains "ninja" line || contains "%" line
      then match re_search line with
           | Some (percent, fraction) =>
               Some (percent +:+ " (" +:+ fraction +:+ ")")
           | None => scan_lines rest
           end
      else scan_lines rest
  end.

Definition fetch_progress (log_file : file) : option string :=
  match log_file with
  | Missing => None
  | Unreadable _ => Some SENTINEL
  | Text content =>
      match scan_lines (rev (readlines content)) with
      | Some p => Some p
      | None => Some SENTINEL
      end
  end.

(** ** Configuration values and load_env *)

Inductive value : Type :=
  | VStr (s : string)
  | VBool (b : bool).

(** Truth value of a configuration value, and of [CONFIG.get(k)]. *)
Definition truthy (v : value) : bool :=
  match v with
  | VStr s => negb (is_empty s)
  | VBool b => b
  end.

Definition truthy_opt (o : option value) : bool :=
  match o with
  | Some v => truthy v
  | None => false
  end.

(** [f"{v}"] *)
Definition fmt (v : value) : string :=
  match v with
  | VStr s => s
  | VBool true => "True"
  | VBool false => "False"
  end.

(** The conversion of [true] and [false], lines 52-55. *)
Definition coerce (v : string) : value :=
  if String.eqb (lower v) "true" then VBool true
  else if String.eqb (lower v) "false" then VBool false
  else VStr v.

(** Line 50: [value.strip()], then [.strip] of the double quote, then
    [.strip] of the single quote. *)
Definition clean_value (v : string) : string :=
  strip_char sq (strip_char dq (strip v)).

(** The body of the loop over the lines, lines 45-57. *)
Definition load_env_line (config : gmap string value) (line : string)
  : gmap string value :=
  if startswith "#" (strip line) || is_empty (strip line) then config
  else
    match split_first "=" line with
    | Some (key, v) => <[strip key := coerce (clean_value v)]> config
    | None => config
    end.

Definition parse_env (content : string) : gmap string value :=
  fold_left load_env_line (readlines content) ∅.


(** ** Events, outcomes, computations *)

(** A value of a form field sent over HTTP. *)
Inductive field : Type :=
  | FStr (s : string)
  | FBool (b : bool)
  | FInt (n : Z)
  | FNone.

Definition field_of (v : value) : field :=
  match v with
  | VStr s => FStr s
  | VBool b => FBool b
  end.

Definition field_of_id (m : option Z) : field :=
  match m with
  | Some n => FInt n
  | None => FNone
  end.

Inductive event : Type :=
  | Print (text : string)
  | HttpGet (url : string)
  | HttpPost (url : string) (data : list (string * field))
             (files : option (string * string))
  | Run (argv : list string)          (* subprocess.run of a list *)
  | Shell (cmd : string)              (* subprocess.run(cmd, shell=True) *)
  | CheckOutput (cmd : string)        (* subprocess.check_output(cmd, shell=True) *)
  | Popen (cmd : string)              (* subprocess.Popen(cmd, shell=True) *)
  | System (cmd : string)             (* os.system(cmd) *)
  | Sleep (seconds : Z)
  | Rmtree (path : string)
  | Remove (path : string)
  | Makedirs (path : string)
  | Copy (src dst : string)
  | WriteFile (path content : string)
  | MakeArchive (base format root : string).

Definition is_network (e : event) : bool :=
  match e with
  | HttpGet _ | HttpPost _ _ _ => true
  | _ => false
  end.

Definition is_subprocess (e : event) : bool :=
  match e with
  | Run _ | Shell _ | CheckOutput _ | Popen _ | System _ => true
  | _ => false
  end.

Inductive exn : Type :=
  | CalledProcessError (cmd : string) (rc : Z)
  | KeyError (key : string)
  | TypeError (msg : string)
  | IndexError (msg : string)
  | FileNotFoundError (msg : string)
  | OSError (msg : string).

(** [str(e)]; for [CalledProcessError] the text of a positive exit status. *)
Definition str_of_exn (e : exn) : string :=
  match e with
  | CalledProcessError cmd rc =>
      concat_str ["Command '"; cmd; "' returned non-zero exit status ";
                  str_of_Z rc; "."]
  | KeyError k => concat_str ["'"; k; "'"]
  | TypeError m | IndexError m | FileNotFoundError m | OSError m => m
  end.

Inductive outcome (A : Type) : Type :=
  | Return (a : A)
  | Raise (e : exn)
  | SysExit (code : Z).
Arguments Return {A} a.
Arguments Raise {A} e.
Arguments SysExit {A} code.

(** A computation: from [bot.message_id] to the events performed, the new
    [bot.message_id] and the outcome. *)
Definition prog (A : Type) : Type :=
  option Z -> list event * option Z * outcome A.

Definition prog_ret {A : Type} (a : A) : prog A :=
  fun s => ([], s, Return a).

Definition prog_bind {A B : Type} (f : A -> prog B) (m : prog A) : prog B :=
  fun s =>
    match m s with
    | (t, s', Return a) =>
        match f a s' with
        | (t', s'', o) => (t ++ t', s'', o)
        end
    | (t, s', Raise e) => (t, s', Raise e)
    | (t, s', SysExit c) => (t, s', SysExit c)
    end.

#[export] Instance prog_mret : MRet prog := @prog_ret.
#[export] Instance prog_mbind : MBind prog := @prog_bind.

Definition emit (e : event) : prog unit := fun s => ([e], s, Return tt).
Definition raise {A : Type} (e : exn) : prog A := fun s => ([], s, Raise e).
Definition sys_exit {A : Type} (c : Z) : prog A := fun s => ([], s, SysExit c).
Definition get_message_id : prog (option Z) := fun s => ([], s, Return s).
Definition set_message_id (m : option Z) : prog unit :=
  fun _ => ([], m, Return tt).

(** [try: body except Exception as e: handler e]; [sys.exit] is not an
    [Exception] and passes through. *)
Definition try_except {A : Type} (body : prog A) (handler : exn -> prog A)
  : prog A :=
  fun s =>
    match body s with
    | (t, s', Raise e) =>
        match handler e s' with
        | (t', s'', o) => (t ++ t', s'', o)
        end
    | r => r
    end.

Definition when (b : bool) (m : prog unit) : prog unit :=
  if b then m else mret tt.

Definition trace_of {A : Type} (r : list event * option Z * outcome A)
  : list event := r.1.1.
Definition outcome_of {A : Type} (r : list event * option Z * outcome A)
  : outcome A := r.2.

(** ** The world *)

Inductive reply (A : Type) : Type :=
  | Fails (e : string)       (* the call raised; [e] is [str] of the exception *)
  | Replies (a : A).
Arguments Fails {A} e.
Arguments Replies {A} a.

Record process : Type := { returncode : Z; stdout : string }.

Record Args : Type := {
  args_config : string;
  args_sync : bool;
  args_clean : bool;
  args_clean_device : bool;
  args_disk_optimization : bool
}.

Record World : Type := {
  ROOT_DIRECTORY : string;
  ROM_NAME : string;
  ANDROID_VERSION : string;
  config_file : file;                 (* the file at [args.config] *)
  cpu_count : Z;
  build_datetime : string;
  build_number : string;
  io_script : string;                 (* os.path.expanduser of ~/io.sh *)
  io_script_exists : bool;
  exec : event -> process;            (* result of a child process *)
  telegram : event -> reply (option Z);
      (* reply to a request to the chat API: the message identifier of an
         ok response, or nothing *)
  sync_seconds : Z;                   (* whole seconds the sync took *)
  residual_exists : string -> bool;   (* in the preparation step *)
  polls : list file;                  (* build.log at each poll *)
  build_seconds : Z;
  build_log : file;                   (* build.log after the build *)
  out_dir_listing : option (list (string * Z));
      (* names and sizes in the device output directory after the build,
         nothing when the directory does not exist *)
  error_log_exists : bool;            (* out/error.log after the build *)
  image_exists : string -> bool;
  ota_json_exists : bool;
  gofile_servers : string -> reply (string * list string);
      (* for the file uploaded: status and server names *)
  open_rb : string -> reply unit;
      (* [open(path, 'rb')] for an upload: the file opens, or the call
         raises *)
  gofile_post : string -> string -> reply (string * string)
      (* for server and file: status and download page of the upload
         request *)
}.

(** ** Visual constants *)

Definition YELLOW : string := String esc "[33m".
Definition BOLD : string := String esc "[1m".
Definition RESET : string := String esc "[0m".
Definition BOLD_GREEN : string := String esc "[1;32m".
Definition RED : string := String esc "[31m".

(** ** load_env *)

Definition load_env (file_path : string) (f : file)
  : prog (gmap string value) :=
  match f with
  | Missing =>
      emit (Print (concat_str [RED; "Error: Config file '"; file_path;
                               "' not found."; RESET]));;
      sys_exit 1
  | Unreadable e => raise (OSError e)
  | Text content => mret (parse_env content)
  end.

(** ** The Telegram client *)

Record CIBot : Type := { config : gmap string value; base_url : string }.

(** [d[k]] *)
Definition getitem (d : gmap string value) (k : string) : prog value :=
  match d !! k with
  | Some v => mret v
  | None => raise (KeyError k)
  end.

Definition CIBot_init (config : gmap string value) : prog CIBot :=
  token ← getitem config "BOT_TOKEN";
  mret {| config := config;
          base_url := "https://api.telegram.org/bot" +:+ fmt token |}.

(** [chat_id if chat_id else self.config['CHAT_ID']] *)
Definition target_chat_of (self : CIBot) (chat_id : option value)
  : prog value :=
  match chat_id with
  | Some c => if truthy c then mret c else getitem (config self) "CHAT_ID"
  | None => getitem (config self) "CHAT_ID"
  end.

(** Truth value of a message identifier. *)
Definition id_truthy (m : option Z) : bool :=
  match m with
  | Some n => negb (n =? 0)
  | None => false
  end.

Definition send_message (w : World) (self : CIBot) (text : string)
    (chat_id : option value) : prog (option Z) :=
  target_chat ← target_chat_of self chat_id;
  let request :=
    HttpPost (base_url self +:+ "/sendMessage")
      [("chat_id", field_of target_chat); ("text", FStr text);
       ("parse_mode", FStr "html"); ("disable_web_page_preview", FBool true)]
      None in
  emit request;;
  match telegram w request with
  | Replies (Some message_id) => mret (Some message_id)
  | Replies None => mret None
  | Fails e =>
      emit (Print (concat_str [RED; "Failed to send message: "; e; RESET]));;
      mret None
  end.

Definition edit_message (w : World) (self : CIBot) (text : string)
    (message_id : option Z) (chat_id : option value) : prog unit :=
  own_id ← get_message_id;
  let msg_id := if id_truthy message_id then message_id else own_id in
  target_chat ← target_chat_of self chat_id;
  if negb (id_truthy msg_id) then mret tt
  else
    let request :=
      HttpPost (base_url self +:+ "/editMessageText")
        [("chat_id", field_of target_chat); ("message_id", field_of_id msg_id);
         ("text", FStr text); ("parse_mode", FStr "html");
         ("disable_web_page_preview", FBool true)]
        None in
    emit request;;
    match telegram w request with
    | Fails e =>
        emit (Print (concat_str [RED; "Failed to edit message: "; e; RESET]))
    | Replies _ => mret tt
    end.

Definition send_document (w : World) (self : CIBot) (file_path : string)
    (chat_id : option value) : prog unit :=
  target_chat ← target_chat_of self chat_id;
  let request :=
    HttpPost (base_url self +:+ "/sendDocument")
      [("chat_id", field_of target_chat); ("parse_mode", FStr "html");
       ("disable_web_page_preview", FBool true)]
      (Some ("document", file_path)) in
  match open_rb w file_path with
  | Fails e =>
      emit (Print (concat_str [RED; "Failed to upload file: "; e; RESET]))
  | Replies _ =>
      emit request;;
      match telegram w request with
      | Fails e =>
          emit (Print (concat_str [RED; "Failed to upload file: "; e; RESET]))
      | Replies _ => mret tt
      end
  end.

Definition pin_message (w : World) (self : CIBot) (message_id : option Z)
    (chat_id : option value) : prog unit :=
  target_chat ← target_chat_of self chat_id;
  let request :=
    HttpPost (base_url self +:+ "/pinChatMessage")
      [("chat_id", field_of target_chat);
       ("message_id", field_of_id message_id)]
      None in
  emit request;;
  match telegram w request with
  | Fails e =>
      emit (Print (concat_str [RED; "Could not pin message: "; e; RESET]))
  | Replies _ => mret tt
  end.

(** ** Helper functions *)

(** Lines 137-142: the file is opened, then posted; what comes back, or
    the exception of either step. *)
Definition gofile_upload (w : World) (server file_path : string)
  : reply (string * string) :=
  match open_rb w file_path with
  | Fails e => Fails e
  | Replies _ => gofile_post w server file_path
  end.

Definition upload_gofile (w : World) (file_path : string) : string :=
  match gofile_servers w file_path with
  | Fails e => "Error: " +:+ e
  | Replies (status, servers) =>
      if negb (String.eqb status "ok") then "Error getting gofile server"
      else
        match servers with
        | [] => "Error: list index out of range"
        | server :: _ =>
            match gofile_upload w server file_path with
            | Fails e => "Error: " +:+ e
            | Replies (status', download_page) =>
                if String.eqb status' "ok" then download_page
                else "Upload Failed"
            end
        end
  end.

(** The requests [upload_gofile] makes: the upload is posted only after the
    server list answered ok with a server and the file opened. *)
Definition upload_gofile_events (w : World) (file_path : string)
  : list event :=
  HttpGet "https://api.gofile.io/servers" ::
  match gofile_servers w file_path with
  | Replies (status, server :: _) =>
      if String.eqb status "ok"
      then
        match open_rb w file_path with
        | Replies _ =>
            [HttpPost (concat_str ["https://"; server;
                                   ".gofile.io/contents/uploadfile"])
                      [] (Some ("file", file_path))]
        | Fails _ => []
        end
      else []
  | _ => []
  end.

(** [subprocess.run(argv, check=check)] *)
Definition subprocess_run (w : World) (argv : list string) (check : bool)
  : prog process :=
  emit (Run argv);;
  let result := exec w (Run argv) in
  if check && negb (returncode result =? 0)
  then raise (CalledProcessError (concat_str argv) (returncode result))
  else mret result.

(** [try: body except subprocess.CalledProcessError: handler] *)
Definition except_CalledProcessError {A : Type} (body handler : prog A)
  : prog A :=
  fun s =>
    match body s with
    | (t, s', Raise (CalledProcessError _ _)) =>
        match handler s' with
        | (t', s'', o) => (t ++ t', s'', o)
        end
    | r => r
    end.

Definition upload_rclone (w : World) (file_path remote folder : string)
  : prog string :=
  except_CalledProcessError
    (let cmd := ["rclone"; "copy"; file_path;
                 concat_str [remote; ":"; folder]] in
     subprocess_run w cmd true;;
     let cmd_link := ["rclone"; "link";
                      concat_str [remote; ":"; folder; "/";
                                  basename file_path]] in
     result ← subprocess_run w cmd_link false;
     mret (strip (stdout result)))
    (mret "Rclone Upload Failed").

(** [format_duration] on whole seconds. *)
Definition format_duration (seconds : Z) : string :=
  let minutes := seconds / 60 in
  let seconds := seconds mod 60 in
  let hours := minutes / 60 in
  let minutes := minutes mod 60 in
  if 0 <? hours
  then concat_str [str_of_Z hours; " hours(s) and "; str_of_Z minutes;
                   " minutes(s)"]
  else concat_str [str_of_Z minutes; " minutes(s) and "; str_of_Z seconds;
                   " seconds(s)"].

(** ** Main execution *)

Definition required_keys : list string :=
  ["DEVICE"; "VARIANT"; "BOT_TOKEN"; "CHAT_ID"].

Definition missing_key_message (key : string) : string :=
  concat_str [RED; NL; "ERROR: Missing "; key;
              " in config file. Exiting..."; RESET; NL].

(** The loop of lines 200-203 over the keys still to check. *)
Fixpoint validate (CONFIG : gmap string value) (keys : list string)
  : prog unit :=
  match keys with
  | [] => mret tt
  | key :: rest =>
      if negb (truthy_opt (CONFIG !! key))
      then emit (Print (missing_key_message key));; sys_exit 1
      else validate CONFIG rest
  end.

Definition sync_jobs_of (cpu_count : Z) : Z :=
  if 8 <? cpu_count then 12 else cpu_count.

(** *** 1. Disk optimization *)

Definition disk_optimization_stage (w : World) : prog unit :=
  (if io_script_exists w
   then emit (Run ["bash"; io_script w])
   else
     emit (Print (concat_str
       [BOLD_GREEN; "Downloading and running disk optimization script...";
        RESET]));;
     emit (Shell "curl -s https://raw.githubusercontent.com/KanishkTheDerp/scripts/master/io.sh | bash"));;
  emit (Print (concat_str [BOLD_GREEN; NL; "Disk optimization complete.";
                           RESET; NL])).

(** *** 2. Syncing *)

Definition sync_message (w : World) (device : value) : string :=
  concat_str
    ["<b>Build Status: Syncing Sources</b>"; NL; NL;
     "<b>ROM:</b> <code>"; ROM_NAME w; "</code>"; NL;
     "<b>Device:</b> <code>"; fmt device; "</code>"; NL;
     "<b>Jobs:</b> <code>"; str_of_Z (sync_jobs_of (cpu_count w));
     " Threads</code>"; NL;
     "<b>Directory:</b> <code>"; ROOT_DIRECTORY w; "</code>"].

Definition cmd_sync (w : World) : string :=
  concat_str ["repo sync -c -j"; str_of_Z (sync_jobs_of (cpu_count w));
              " --force-sync --no-clone-bundle --no-tags"].

Definition cmd_resync : string := "repo sync --force-sync".

Definition sync_done_message (w : World) (device : value) : string :=
  concat_str
    ["<b>Build Status: Sync Complete</b>"; NL; NL;
     "<b>ROM:</b> <code>"; ROM_NAME w; "</code>"; NL;
     "<b>Device:</b> <code>"; fmt device; "</code>"; NL;
     "<b>Duration:</b> <code>"; format_duration (sync_seconds w); "</code>"].

Definition sync_fail_message : string :=
  concat_str ["<b>Build Status: Sync Failed</b>"; NL; NL;
              "Attempting compilation regardless..."].

(** [subprocess.run(cmd, shell=True)] *)
Definition run_shell (w : World) (cmd : string) : prog process :=
  emit (Shell cmd);; mret (exec w (Shell cmd)).

Definition sync_stage (w : World) (bot : CIBot) : prog unit :=
  device ← getitem (config bot) "DEVICE";
  sent ← send_message w bot (sync_message w device) None;
  set_message_id sent;;
  emit (Print (concat_str [BOLD_GREEN; NL; "Starting repo sync..."; RESET;
                           NL]));;
  ret1 ← run_shell w (cmd_sync w);
  ret2 ← (if negb (returncode ret1 =? 0)
          then
            emit (Print (concat_str
              [BOLD_GREEN; NL; "Sync failed. Retrying with force..."; RESET]));;
            run_shell w cmd_resync
          else mret ret1);
  if returncode ret2 =? 0
  then edit_message w bot (sync_done_message w device) None None
  else edit_message w bot sync_fail_message None None.

(** *** 3. Cleaning *)

Definition out_dir_of (device : value) : string :=
  "out/target/product/" +:+ fmt device.

Definition clean_stage : prog unit :=
  emit (Print (concat_str [BOLD_GREEN; NL; "Cleaning 'out' directory...";
                           RESET]));;
  emit (Rmtree "out").

Definition clean_device_stage (bot : CIBot) : prog unit :=
  device ← getitem (config bot) "DEVICE";
  let device_out := out_dir_of device in
  emit (Print (concat_str [BOLD_GREEN; NL; "Cleaning device output: ";
                           device_out; RESET]));;
  emit (Rmtree device_out).

(** *** 4. Preparation and compilation *)

Fixpoint remove_residual (w : World) (files : list string) : prog unit :=
  match files with
  | [] => mret tt
  | f :: rest =>
      when (residual_exists w f) (emit (Remove f));;
      remove_residual w rest
  end.

Definition official_txt_of (CONFIG : gmap string value) : string :=
  if truthy_opt (CONFIG !! "OFFICIAL_FLAG") then "Official" else "Unofficial".

Definition compiling_message (w : World) (CONFIG : gmap string value)
    (device : value) (last_label last_text : string) : string :=
  concat_str
    ["<b>Build Status: Compiling</b>"; NL; NL;
     "<b>ROM:</b> <code>"; ROM_NAME w; "</code>"; NL;
     "<b>Device:</b> <code>"; fmt device; "</code>"; NL;
     "<b>Android:</b> <code>"; ANDROID_VERSION w; "</code>"; NL;
     "<b>Type:</b> <code>"; official_txt_of CONFIG; "</code>"; NL;
     "<b>Jobs:</b> <code>"; str_of_Z (cpu_count w); " Threads</code>"; NL;
     "<b>"; last_label; ":</b> <code>"; last_text; "</code>"].

Definition build_msg (w : World) (CONFIG : gmap string value)
    (device : value) : string :=
  compiling_message w CONFIG device "Status" "Initializing...".

Definition prog_msg (w : World) (CONFIG : gmap string value)
    (device : value) (current_prog : string) : string :=
  compiling_message w CONFIG device "Progress" current_prog.

Definition export_vars (w : World) : string :=
  concat_str ["export BUILD_DATETIME="; build_datetime w; " BUILD_NUMBER=";
              build_number w].

Definition build_cmd (w : World) (device variant : value) : string :=
  concat_str ["bash -c '"; export_vars w; " && source build/envsetup.sh && ";
              export_vars w; " && brunch "; fmt device; " "; fmt variant;
              "' 2>&1 | tee -a build.log"].

(** One turn of the loop of lines 291-303: [log] is build.log as this poll
    finds it; the result is the new [previous_prog]. *)
Definition poll_once (edit : string -> prog unit) (previous_prog : string)
    (log : file) : prog string :=
  let current_prog := fetch_progress log in
  previous_prog' ←
    match current_prog with
    | Some cur =>
        if negb (is_empty cur) && negb (String.eqb cur previous_prog)
        then edit cur;; mret cur
        else mret previous_prog
    | None => mret previous_prog
    end;
  emit (Sleep 10);;
  mret previous_prog'.

Fixpoint poll_loop (edit : string -> prog unit) (previous_prog : string)
    (logs : list file) : prog string :=
  match logs with
  | [] => mret previous_prog
  | log :: rest =>
      previous_prog' ← poll_once edit previous_prog log;
      poll_loop edit previous_prog' rest
  end.

Definition compile_stage (w : World) (bot : CIBot) : prog unit :=
  let CONFIG := config bot in
  remove_residual w ["out/error.log"; "out/.lock"; "build.log"];;
  device ← getitem CONFIG "DEVICE";
  sent ← send_message w bot (build_msg w CONFIG device) None;
  set_message_id sent;;
  emit (Print (concat_str
    [BOLD_GREEN; NL; "Setting up build environment and running brunch...";
     RESET]));;
  variant ← getitem CONFIG "VARIANT";
  emit (Popen (build_cmd w device variant));;
  poll_loop
    (fun current_prog =>
       edit_message w bot (prog_msg w CONFIG device current_prog) None None)
    "" (polls w);;
  mret tt.

(** *** 5. Post-build *)

Definition SUCCESS_PHRASE : string := "build completed successfully".

(** Lines 308-316: the flag after the log check, with what is printed. *)
Definition log_check (log : file) : prog bool :=
  match log with
  | Missing => mret false
  | Unreadable e =>
      emit (Print (concat_str [YELLOW; "Warning: Could not read build.log: ";
                               e; RESET]));;
      mret false
  | Text content => mret (contains SUCCESS_PHRASE content)
  end.

(** The test [CONFIG['DEVICE'] in f and f.endswith(".zip")] of the two
    list comprehensions. *)
Definition is_artifact (device : string) (entry : string * Z) : bool :=
  contains device entry.1 && endswith ".zip" entry.1.

(** [[f for f in os.listdir(out_dir) if CONFIG['DEVICE'] in f and
    f.endswith(".zip")]], the entries kept with their sizes.  A device that
    is not a string makes the first test raise. *)
Definition artifacts (device : value) (listing : list (string * Z))
  : prog (list (string * Z)) :=
  match device with
  | VStr d => mret (List.filter (is_artifact d) listing)
  | VBool _ =>
      match listing with
      | [] => mret []
      | _ :: _ =>
          raise (TypeError
            "'in <string>' requires string as left operand, not bool")
      end
  end.

(** Lines 308-323. *)
Definition evaluate (device : value) (log : file)
    (listing : option (list (string * Z))) : prog bool :=
  build_success ← log_check log;
  if negb build_success
  then
    match listing with
    | Some entries =>
        files ← artifacts device entries;
        match files with
        | _ :: _ =>
            emit (Print (concat_str
              [YELLOW;
               "Log success message not found, but ZIP exists. Assuming success.";
               RESET]));;
            mret true
        | [] => mret build_success
        end
    | None => mret build_success
    end
  else mret build_success.

Definition build_fail_message : string :=
  concat_str ["<b>Build Status: Failed</b>"; NL; NL;
              "<i>Check the attached log for details.</i>"].

(** Lines 325-335. *)
Definition failure_path (w : World) (bot : CIBot) : prog unit :=
  let CONFIG := config bot in
  target_error_chat ←
    (if truthy_opt (CONFIG !! "ERROR_CHAT_ID")
     then mret (CONFIG !! "ERROR_CHAT_ID")
     else chat ← getitem CONFIG "CHAT_ID"; mret (Some chat));
  edit_message w bot build_fail_message None target_error_chat;;
  when (error_log_exists w)
       (send_document w bot "out/error.log" target_error_chat);;
  sys_exit 1.

(** [l.sort(key=size, reverse=True)]: stable, equal sizes keep their order. *)
Fixpoint insert_desc (x : string * Z) (l : list (string * Z))
  : list (string * Z) :=
  match l with
  | [] => [x]
  | y :: l' => if x.2 <? y.2 then y :: insert_desc x l' else x :: l
  end.

Definition sort_desc (l : list (string * Z)) : list (string * Z) :=
  fold_right insert_desc [] l.

Definition is_main (entry : string * Z) : bool :=
  negb (contains "ota" (lower entry.1))
  && negb (contains "target_files" (lower entry.1)).

(** Lines 343-350: [rom_filename], for a non-empty [all_files]. *)
Definition select_rom (all_files : list (string * Z)) : option string :=
  let main_files := List.filter is_main all_files in
  match main_files with
  | _ :: _ => fst <$> head (sort_desc main_files)
  | [] => fst <$> head (sort_desc all_files)
  end.

Fixpoint copy_images (w : World) (out_dir rom_folder : string)
    (imgs : list string) : prog unit :=
  match imgs with
  | [] => mret tt
  | img :: rest =>
      let src := path_join out_dir img in
      when (image_exists w img) (emit (Copy src rom_folder));;
      copy_images w out_dir rom_folder rest
  end.

(** [subprocess.check_output(cmd, shell=True).decode().strip()] *)
Definition check_output (w : World) (cmd : string) : prog string :=
  emit (CheckOutput cmd);;
  let result := exec w (CheckOutput cmd) in
  if negb (returncode result =? 0)
  then raise (CalledProcessError cmd (returncode result))
  else mret (strip (stdout result)).

Definition link (href text : string) : string :=
  concat_str ["<a href="; DQ; href; DQ; ">"; text; "</a>"].

Definition success_msg (w : World) (CONFIG : gmap string value)
    (device : value) (size_human md5 downloads : string) : string :=
  concat_str
    ["<b>Build Status: Success</b>"; NL; NL;
     "<b>ROM:</b> <code>"; ROM_NAME w; "</code>"; NL;
     "<b>Device:</b> <code>"; fmt device; "</code>"; NL;
     "<b>Android:</b> <code>"; ANDROID_VERSION w; "</code>"; NL;
     "<b>Type:</b> <code>"; official_txt_of CONFIG; "</code>"; NL;
     "<b>Size:</b> <code>"; size_human; "</code>"; NL;
     "<b>MD5:</b> <code>"; md5; "</code>"; NL;
     "<b>Duration:</b> <code>"; format_duration (build_seconds w); "</code>";
     NL; NL;
     "<b>Download:</b> "; downloads].

Definition emit_all (l : list event) : prog unit :=
  fun s => (l, s, Return tt).

(** The body of the [try], lines 338-409. *)
Definition package_and_upload (w : World) (bot : CIBot) : prog unit :=
  let CONFIG := config bot in
  device ← getitem CONFIG "DEVICE";
  let out_dir := out_dir_of device in
  listing ←
    match out_dir_listing w with
    | Some entries => mret entries
    | None =>
        raise (FileNotFoundError (concat_str
          ["[Errno 2] No such file or directory: '"; out_dir; "'"]))
    end;
  all_files ← artifacts device listing;
  rom_filename ←
    match select_rom all_files with
    | Some f => mret f
    | None =>
        raise (FileNotFoundError
          "Build passed (log check), but no ZIP file found in output.")
    end;
  let rom_zip := path_join out_dir rom_filename in
  let rom_folder := path_join out_dir "rom_temp" in
  emit (Makedirs rom_folder);;
  copy_images w out_dir rom_folder ["vendor_boot.img"; "boot.img"; "dtbo.img"];;
  let board_req :=
    if truthy_opt (CONFIG !! "INITIAL_INSTALL_ZIP_DEVICES")
    then default device (CONFIG !! "INITIAL_INSTALL_ZIP_DEVICES")
    else device in
  emit (WriteFile (path_join rom_folder "android-info.txt")
          (concat_str ["require board="; fmt board_req; NL]));;
  emit (WriteFile (path_join rom_folder "fastboot-info.txt")
          (concat_str ["version 1"; NL; "flash boot"; NL; "flash vendor_boot";
                       NL; "flash dtbo"; NL; "reboot bootloader"; NL]));;
  let initial_zip_name := replace ".zip" "-initial-install.zip" rom_zip in
  emit (MakeArchive (replace ".zip" "" initial_zip_name) "zip" rom_folder);;
  emit (Rmtree rom_folder);;
  emit (Print (concat_str [BOLD_GREEN; NL; "Uploading files..."; RESET]));;
  remote ← getitem CONFIG "RCLONE_REMOTE";
  folder ← getitem CONFIG "RCLONE_FOLDER";
  rom_link ← upload_rclone w rom_zip (fmt remote) (fmt folder);
  emit_all (upload_gofile_events w initial_zip_name);;
  let initial_link := upload_gofile w initial_zip_name in
  let json_path :=
    path_join (path_join (path_join (ROOT_DIRECTORY w) "vendor") "ota")
              (fmt device +:+ ".json") in
  json_link ←
    (if ota_json_exists w
     then
       emit (Print (concat_str [BOLD_GREEN; "Found OTA JSON: "; json_path;
                                "... Uploading."; RESET]));;
       emit_all (upload_gofile_events w json_path);;
       let uploaded_json := upload_gofile w json_path in
       if contains "http" uploaded_json then mret (Some uploaded_json)
       else
         emit (Print (concat_str [RED; "JSON upload failed: "; uploaded_json;
                                  RESET]));;
         mret None
     else mret None);
  md5 ← check_output w (concat_str ["md5sum "; rom_zip;
                                     " | awk '{print $1}'"]);
  size_human ← check_output w (concat_str ["ls -sh "; rom_zip;
                                            " | awk '{print $1}'"]);
  let downloads :=
    concat_str [link rom_link "ROM"; " | ";
                link initial_link "Initial Install"] in
  let downloads :=
    match json_link with
    | Some l => concat_str [downloads; " | "; link l "OTA JSON"]
    | None => downloads
    end in
  edit_message w bot (success_msg w CONFIG device size_human md5 downloads)
               None None;;
  own_id ← get_message_id;
  pin_message w bot own_id None.

(** The [except] clause, lines 411-413. *)
Definition packaging_handler (w : World) (bot : CIBot) (e : exn) : prog unit :=
  emit (Print (concat_str [RED; "Packaging error: "; str_of_exn e; RESET]));;
  send_message w bot ("Build passed but packaging failed: " +:+ str_of_exn e)
               None;;
  mret tt.

Definition SHUTDOWN : event := System "sudo poweroff".

(** Lines 415-417. *)
Definition shutdown_stage (CONFIG : gmap string value) : prog unit :=
  when (truthy_opt (CONFIG !! "POWEROFF"))
       (emit (Print (concat_str [BOLD_GREEN; "Shutting down server."; RESET]));;
        emit SHUTDOWN).

(** Lines 305-417: the verdict, the failure path, packaging, shutdown. *)
Definition post_build (w : World) (bot : CIBot) : prog unit :=
  let CONFIG := config bot in
  device ← getitem CONFIG "DEVICE";
  build_success ← evaluate device (build_log w) (out_dir_listing w);
  when (negb build_success) (failure_path w bot);;
  try_except (package_and_upload w bot) (packaging_handler w bot);;
  shutdown_stage CONFIG.

(** Lines 205-417, after the configuration is loaded and validated. *)
Definition pipeline (args : Args) (w : World) (CONFIG : gmap string value)
  : prog unit :=
  bot ← CIBot_init CONFIG;
  when (args_disk_optimization args) (disk_optimization_stage w);;
  when (args_sync args) (sync_stage w bot);;
  when (args_clean args) clean_stage;;
  when (args_clean_device args) (clean_device_stage bot);;
  compile_stage w bot;;
  post_build w bot.

Definition main (args : Args) (w : World) : prog unit :=
  CONFIG ← load_env (args_config args) (config_file w);
  validate CONFIG required_keys;;
  pipeline args w CONFIG.

(** A run of the program: [bot.message_id] starts as [None]. *)
Definition run (args : Args) (w : World)
  : list event * option Z * outcome unit :=
  main args w None.

(** * Vocabulary of the statements *)

(** ** Strings *)

(** Every character of [s] satisfies [f]. *)
Fixpoint all_chars (f : ascii -> bool) (s : string) : bool :=
  match s with
  | EmptyString => true
  | String c s' => f c && all_chars f s'
  end.

Definition first_char (s : string) : option ascii :=
  match s with
  | EmptyString => None
  | String c _ => Some c
  end.

Fixpoint last_char (s : string) : option ascii :=
  match s with
  | EmptyString => None
  | String c EmptyString => Some c
  | String _ s' => last_char s'
  end.

(** The character [o], if there is one, does not satisfy [f]. *)
Definition not_at (f : ascii -> bool) (o : option ascii) : Prop :=
  forall c, o = Some c -> f c = false.

(** [m] is [s] without its leading and its trailing characters of the set
    [f]: all of them are gone, at both ends. *)
Definition stripped_of (f : ascii -> bool) (s m : string) : Prop :=
  exists l r,
    s = l +:+ m +:+ r
    /\ all_chars f l = true /\ all_chars f r = true
    /\ not_at f (first_char m) /\ not_at f (last_char m).

(** ** Progress extraction *)

(** A line that yields no progress: if the scan tests it, the pattern does
    not match. *)
Definition silent (line : string) : Prop :=
  contains "ninja" line || contains "%" line = true -> re_search line = None.

(** The last two lines of the specification's example as the specification
    writes them, and as ninja prints such a pair. *)
Definition spec_lines : list string :=
  ["ninja: 10% (1/10)" +:+ NL; "ninja: 37% (37/100)" +:+ NL].

Definition ninja_lines : list string :=
  ["ninja: 10% 1/10" +:+ NL; "ninja: 37% 37/100" +:+ NL].

(** The example as the specification states it. *)
Definition progress_example_as_stated : Prop :=
  forall content pre,
    readlines content = pre ++ spec_lines ->
    fetch_progress (Text content) = Some "37% (37/100)".

Definition ninja_log : string := concat_str ninja_lines.

Definition compiler_log : string :=
  concat_str ["[ 5% 1/20] CC a.o"; NL; "warning: x"; NL].

(** ** Configuration *)

(** A line that is neither blank nor a comment. *)
Definition is_entry (line : string) : bool :=
  negb (startswith "#" (strip line) || is_empty (strip line)).

(** The quote rule in the words of the specification: one layer of
    surrounding quote characters, taken off only when the first and the last
    character are the same quote. *)
Fixpoint remove_last (s : string) : string :=
  match s with
  | EmptyString => EmptyString
  | String _ EmptyString => EmptyString
  | String c s' => String c (remove_last s')
  end.

Definition strip_one_layer (s : string) : string :=
  match s with
  | EmptyString => EmptyString
  | String q rest =>
      if (ascii_eqb q dq || ascii_eqb q sq)
         && bool_decide (last_char rest = Some q)
      then remove_last rest
      else s
  end.

(** The parsing rule for an entry as the specification states it. *)
Definition load_env_line_as_stated : Prop :=
  forall config line,
    is_entry line = true ->
    contains "=" line = true ->
    exists key v,
      line = key +:+ "=" +:+ v
      /\ all_chars (fun a => negb (ascii_eqb "=" a)) key = true
      /\ load_env_line config line =
         <[strip key := coerce (strip_one_layer (strip v))]> config.

(** The two values of the specification's example as they are written in the
    file: x between two pairs of double quotes, and x between a double and a
    single quote. *)
Definition doubly_quoted_line : string :=
  concat_str ["K="; DQ; DQ; "x"; DQ; DQ; NL].

Definition unmatched_line : string := concat_str ["K="; DQ; "x'"; NL].

(** The first required key that the validation of lines 200-203 rejects. *)
Definition first_missing (CONFIG : gmap string value) (keys : list string)
  : option string :=
  List.find (fun key => negb (truthy_opt (CONFIG !! key))) keys.

(** The key is absent or its value is the empty string. *)
Definition absent_or_empty (CONFIG : gmap string value) (key : string)
  : Prop :=
  CONFIG !! key = None \/ CONFIG !! key = Some (VStr "").

(** The required keys that the loop of lines 200-203 looks at before
    [key]. *)
Fixpoint keys_before (key : string) (keys : list string) : list string :=
  match keys with
  | [] => []
  | k :: rest => if String.eqb k key then [] else k :: keys_before key rest
  end.

(** The claim on a missing required key as the specification states it:
    whichever required key is absent or empty, the fatal error names that
    key. *)
Definition missing_key_as_stated : Prop :=
  forall args w content key,
    config_file w = Text content ->
    In key required_keys ->
    absent_or_empty (parse_env content) key ->
    exists text code,
      In (Print text) (trace_of (run args w))
      /\ contains key text = true
      /\ outcome_of (run args w) = SysExit code /\ code <> 0
      /\ Forall (fun e => is_network e = false /\ is_subprocess e = false)
                (trace_of (run args w)).

(** The client object of line 205. *)
Definition bot_of (CONFIG : gmap string value) : CIBot :=
  {| config := CONFIG;
     base_url := "https://api.telegram.org/bot"
                 +:+ fmt (default (VStr "") (CONFIG !! "BOT_TOKEN")) |}.

(** ** The verdict and the main artifact *)

(** The log holds the success phrase. *)
Definition log_reports_success (log : file) : Prop :=
  exists content a b,
    log = Text content /\ content = a +:+ SUCCESS_PHRASE +:+ b.

(** The device output directory holds a file whose name contains the device
    identifier and ends in .zip. *)
Definition has_artifact (device : string)
    (listing : option (list (string * Z))) : Prop :=
  exists entries name size,
    listing = Some entries /\ In (name, size) entries
    /\ (exists a b, name = a +:+ device +:+ b)
    /\ (exists a, name = a +:+ ".zip").

(** What the log check of lines 310-316 finds. *)
Definition log_ok (log : file) : bool :=
  match log with
  | Text content => contains SUCCESS_PHRASE content
  | _ => false
  end.

(** The flag [build_success] after line 323, for a device that is a string. *)
Definition verdict (device : string) (log : file)
    (listing : option (list (string * Z))) : bool :=
  log_ok log ||
  match listing with
  | Some entries =>
      negb (bool_decide (List.filter (is_artifact device) entries = []))
  | None => false
  end.

(** The name has neither [ota] nor [target_files] in it, whatever the case
    of its letters. *)
Definition main_name (name : string) : Prop :=
  ~ (exists a b, lower name = a +:+ "ota" +:+ b)
  /\ ~ (exists a b, lower name = a +:+ "target_files" +:+ b).

(** Descending by size. *)
Definition size_ge (a b : string * Z) : Prop := b.2 <= a.2.

Definition MB : Z := 1024 * 1024.

(** The directory of the specification's example. *)
Definition example_listing : list (string * Z) :=
  [("a-ota.zip", 10 * MB); ("a-target_files.zip", 50 * MB);
   ("a.zip", 30 * MB)].

(** ** Computations and traces *)

(** How a computation behaves from every state: it returns a value; it does
    not leave through [sys.exit]; it leaves through [sys.exit(c)]; all its
    events satisfy [P]. *)
Definition total {A : Type} (m : prog A) : Prop :=
  forall s, exists t s' a, m s = (t, s', Return a).

Definition no_exit {A : Type} (m : prog A) : Prop :=
  forall s t s' c, m s <> (t, s', SysExit c).

Definition exits {A : Type} (c : Z) (m : prog A) : Prop :=
  forall s, exists t s', m s = (t, s', SysExit c).

Definition keeps (P : event -> Prop) {A : Type} (m : prog A) : Prop :=
  forall s, Forall P (trace_of (m s)).

Definition state_of {A : Type} (r : list event * option Z * outcome A)
  : option Z := r.1.2.

Definition is_system (e : event) : bool :=
  match e with
  | System _ => true
  | _ => false
  end.

Definition is_resync (e : event) : bool :=
  match e with
  | Shell cmd => String.eqb cmd cmd_resync
  | _ => false
  end.

(** Neither an [os.system] call nor the plain forced sync. *)
Definition ordinary (e : event) : Prop :=
  is_system e = false /\ is_resync e = false.

Definition is_sleep (e : event) : bool :=
  match e with
  | Sleep _ => true
  | _ => false
  end.

(** The trace without the pauses of the polling loop. *)
Definition without_sleep (t : list event) : list event :=
  List.filter (fun e => negb (is_sleep e)) t.

(** The two commands of [upload_rclone]. *)
Definition rclone_copy (file_path remote folder : string) : event :=
  Run ["rclone"; "copy"; file_path; concat_str [remote; ":"; folder]].

Definition rclone_link (file_path remote folder : string) : event :=
  Run ["rclone"; "link";
       concat_str [remote; ":"; folder; "/"; basename file_path]].

(** The request [edit_message] posts for the tracked message. *)
Definition edit_request (bot : CIBot) (chat : value) (message_id : option Z)
    (text : string) : event :=
  HttpPost (base_url bot +:+ "/editMessageText")
    [("chat_id", field_of chat); ("message_id", field_of_id message_id);
     ("text", FStr text); ("parse_mode", FStr "html");
     ("disable_web_page_preview", FBool true)]
    None.

(** What an edit of the tracked message [s] to [text] leaves in the trace:
    nothing when no message is tracked, else the request and, when the
    request raises, the diagnostic. *)
Definition edit_events (w : World) (bot : CIBot) (chat : value)
    (s : option Z) (text : string) : list event :=
  if id_truthy s
  then edit_request bot chat s text ::
       match telegram w (edit_request bot chat s text) with
       | Fails e =>
           [Print (concat_str [RED; "Failed to edit message: "; e; RESET])]
       | Replies _ => []
       end
  else [].

Definition sync_start_print : event :=
  Print (concat_str [BOLD_GREEN; NL; "Starting repo sync..."; RESET; NL]).

Definition sync_retry_print : event :=
  Print (concat_str [BOLD_GREEN; NL; "Sync failed. Retrying with force...";
                     RESET]).

Definition shutdown_print : event :=
  Print (concat_str [BOLD_GREEN; "Shutting down server."; RESET]).

(** The claim on the shutdown as the specification states it, for a valid
    configuration. *)
Definition shutdown_as_stated : Prop :=
  forall args w content,
    config_file w = Text content ->
    first_missing (parse_env content) required_keys = None ->
    truthy_opt (parse_env content !! "POWEROFF") = true ->
    last (trace_of (run args w)) = Some SHUTDOWN.

(** ** Example worlds *)

(** A child process result. *)
Definition exited (rc : Z) (out : string) : process :=
  {| returncode := rc; stdout := out |}.

(** Every child process exits with [rc] and prints nothing. *)
Definition quiet_exec (rc : Z) (e : event) : process := exited rc "".

(** The copy succeeds, the link exits with 1 and prints nothing. *)
Definition link_fails (e : event) : process :=
  match e with
  | Run (_ :: verb :: _) =>
      if String.eqb verb "link" then exited 1 "" else exited 0 ""
  | _ => exited 0 ""
  end.

(** A world in which the configuration text, the results of child processes,
    the chat replies, the polls, the log and the output directory are given
    and nothing else exists. *)
Definition example_world (content : string) (exec : event -> process)
    (telegram : event -> reply (option Z)) (polls : list file)
    (log : file) (listing : option (list (string * Z))) : World :=
  {| ROOT_DIRECTORY := "/src/rom";
     ROM_NAME := "rom";
     ANDROID_VERSION := "14";
     config_file := Text content;
     cpu_count := 16;
     build_datetime := "1700000000";
     build_number := "2023111400";
     io_script := "/root/io.sh";
     io_script_exists := false;
     exec := exec;
     telegram := telegram;
     sync_seconds := 45;
     residual_exists := fun _ => false;
     polls := polls;
     build_seconds := 3725;
     build_log := log;
     out_dir_listing := listing;
     error_log_exists := false;
     image_exists := fun _ => false;
     ota_json_exists := false;
     gofile_servers := fun _ => Fails "offline";
     open_rb := fun _ => Replies tt;
     gofile_post := fun _ _ => Fails "offline" |}.

Definition example_args (sync : bool) : Args :=
  {| args_config := "config.env"; args_sync := sync; args_clean := false;
     args_clean_device := false; args_disk_optimization := false |}.

(** A configuration without [CHAT_ID], and one for a complete run. *)
Definition no_chat_config : string :=
  concat_str ["DEVICE=a"; NL; "VARIANT=userdebug"; NL; "BOT_TOKEN=t"; NL].

Definition full_config : string :=
  concat_str ["DEVICE=a"; NL; "VARIANT=userdebug"; NL; "BOT_TOKEN=t"; NL;
              "CHAT_ID=1"; NL; "POWEROFF=true"; NL].

Definition rclone_world : World :=
  example_world "" link_fails (fun _ => Replies None) [] Missing None.

Definition no_chat_world : World :=
  example_world no_chat_config (quiet_exec 0) (fun _ => Replies None) []
                Missing None.

(** A configuration whose only absent key is [CHAT_ID] and whose device is
    set to the word false. *)
Definition false_device_config : string :=
  concat_str ["DEVICE=false"; NL; "VARIANT=userdebug"; NL; "BOT_TOKEN=t"; NL].

Definition false_device_world : World :=
  example_world false_device_config (quiet_exec 0) (fun _ => Replies None) []
                Missing None.

(** A build that fails, a build that succeeds, and a sync that fails twice. *)
Definition failed_build_world : World :=
  example_world full_config (quiet_exec 0) (fun _ => Replies (Some 7))
    [Missing; Text "[ 37% 37/100] CC a.o"] (Text "FAILED: ninja") None.

Definition good_build_world : World :=
  example_world full_config (quiet_exec 0) (fun _ => Replies (Some 7)) []
    (Text "#### build completed successfully (01:02 (mm:ss)) ####")
    (Some [("a.zip", 30 * MB)]).

Definition failed_sync_world : World :=
  example_world full_config (quiet_exec 1) (fun _ => Replies (Some 7)) []
    (Text "FAILED: ninja") None.

(** An edit that only leaves a mark in the trace. *)
Definition mark_edit (cur : string) : prog unit := emit (Print cur).

(** * The environment prober *)

(** [s] without the prefix [p], when it starts with it. *)
Fixpoint after_prefix (p s : string) : option string :=
  match p, s with
  | EmptyString, _ => Some s
  | String a p', String b s' =>
      if ascii_eqb a b then after_prefix p' s' else None
  | String _ _, EmptyString => None
  end.

(** The pattern [(?<=android-)[0-9]+] of line 31 at the position that
    follows a marker starting at the head of [s]: the longest run of
    digits. *)
Definition version_here (s : string) : option string :=
  r ← after_prefix "android-" s;
  let (d, _) := span_digits r in
  if is_empty d then None else Some d.

(** [re.search] with that pattern: the leftmost match. *)
Fixpoint search_version (s : string) : option string :=
  match version_here s with
  | Some d => Some d
  | None =>
      match s with
      | EmptyString => None
      | String _ s' => search_version s'
      end
  end.

(** Lines 27-34, [manifest] being the file .repo/manifests/default.xml:
    only a missing file is caught. *)
Definition detect_android_version (manifest : file) : outcome string :=
  match manifest with
  | Missing => Return "Unknown"
  | Unreadable e => Raise (OSError e)
  | Text content => Return (default "Unknown" (search_version content))
  end.

(** Lines 21-25. *)
Definition detect_rom_name (root_directory : string) : string :=
  basename root_directory.

(** * Vocabulary of the further properties *)

(** A non-empty run of digits. *)
Definition digits (d : string) : Prop :=
  d <> "" /\ all_chars is_digit d = true.

(** The candidates among which lines 345-350 take the first after the sort. *)
Definition sorted_candidates (all_files : list (string * Z))
  : list (string * Z) :=
  match List.filter is_main all_files with
  | _ :: _ => List.filter is_main all_files
  | [] => all_files
  end.

(** No two neighbours of the list are equal. *)
Fixpoint adjacent_differ (l : list string) : Prop :=
  match l with
  | a :: (b :: _) as rest => a <> b /\ adjacent_differ rest
  | _ => True
  end.

(** The most recent progress among the polls, [previous_prog] when every
    poll found the log missing. *)
Definition latest (previous_prog : string) (logs : list file) : string :=
  fold_left (fun p log => default p (fetch_progress log)) logs previous_prog.

(** A key as [load_env] stores it: trimmed, without an equals sign. *)
Definition key_ok (key : string) : Prop :=
  not_at is_space (first_char key) /\ not_at is_space (last_char key)
  /\ all_chars (fun a => negb (ascii_eqb "=" a)) key = true.

(** A value as [load_env] stores it: a boolean, or a string that is neither
    of the two boolean words and has no single quote at either end. *)
Definition value_ok (v : value) : Prop :=
  match v with
  | VBool _ => True
  | VStr s =>
      lower s <> "true" /\ lower s <> "false"
      /\ not_at (ascii_eqb sq) (first_char s)
      /\ not_at (ascii_eqb sq) (last_char s)
  end.

(** The requests of the client. *)
Definition send_request (bot : CIBot) (chat : value) (text : string)
  : event :=
  HttpPost (base_url bot +:+ "/sendMessage")
    [("chat_id", field_of chat); ("text", FStr text);
     ("parse_mode", FStr "html"); ("disable_web_page_preview", FBool true)]
    None.

Definition document_request (bot : CIBot) (chat : value)
    (file_path : string) : event :=
  HttpPost (base_url bot +:+ "/sendDocument")
    [("chat_id", field_of chat); ("parse_mode", FStr "html");
     ("disable_web_page_preview", FBool true)]
    (Some ("document", file_path)).

(** What [send_document] leaves in the trace: the diagnostic alone when the
    file does not open, else the request and, when the request raises, the
    diagnostic. *)
Definition document_events (w : World) (bot : CIBot) (chat : value)
    (file_path : string) : list event :=
  match open_rb w file_path with
  | Fails e => [Print (concat_str [RED; "Failed to upload file: "; e; RESET])]
  | Replies _ =>
      document_request bot chat file_path ::
      match telegram w (document_request bot chat file_path) with
      | Fails e =>
          [Print (concat_str [RED; "Failed to upload file: "; e; RESET])]
      | Replies _ => []
      end
  end.

(** The chat the failure path reports to, lines 329. *)
Definition error_chat (CONFIG : gmap string value) (chat : value) : value :=
  if truthy_opt (CONFIG !! "ERROR_CHAT_ID")
  then default chat (CONFIG !! "ERROR_CHAT_ID")
  else chat.

(** What the shutdown step leaves in the trace. *)
Definition shutdown_events (CONFIG : gmap string value) : list event :=
  if truthy_opt (CONFIG !! "POWEROFF") then [shutdown_print; SHUTDOWN] else [].

Definition NO_ZIP : string :=
  "Build passed (log check), but no ZIP file found in output.".

(** A line written to the terminal. *)
Definition is_print (e : event) : bool :=
  match e with
  | Print _ => true
  | _ => false
  end.

(** The chat a method of the client addresses: its [chat_id] argument when
    that is given and true, else the configured chat. *)
Definition chosen_chat (chat_id : option value) (chat : value) : value :=
  match chat_id with
  | Some c => if truthy c then c else chat
  | None => chat
  end.

(** The request [pin_message] posts. *)
Definition pin_request (bot : CIBot) (chat : value) (message_id : option Z)
  : event :=
  HttpPost (base_url bot +:+ "/pinChatMessage")
    [("chat_id", field_of chat); ("message_id", field_of_id message_id)]
    None.

(** All four required keys are set to a true value. *)
Definition valid (CONFIG : gmap string value) : Prop :=
  forall key, In key required_keys ->
              exists v, CONFIG !! key = Some v /\ truthy v = true.

(** A key and a value that can be written to the configuration file as
    they are: the key is not empty, has no newline in it and does not start
    a comment; the value has no newline in it and neither white space nor a
    quote of either kind at its ends. *)
Definition plain_key (key : string) : Prop :=
  key <> "" /\ key_ok key
  /\ all_chars (fun a => negb (ascii_eqb nl a)) key = true
  /\ not_at (ascii_eqb "#") (first_char key).

Definition plain_value (v : string) : Prop :=
  all_chars (fun a => negb (ascii_eqb nl a)) v = true
  /\ not_at is_space (first_char v) /\ not_at is_space (last_char v)
  /\ not_at (ascii_eqb dq) (first_char v)
  /\ not_at (ascii_eqb dq) (last_char v)
  /\ value_ok (VStr v).

(** The configuration a run works with: what [load_env] reads from the file
    of the world, nothing when there is no such text. *)
Definition loaded (w : World) : gmap string value :=
  match config_file w with
  | Text content => parse_env content
  | _ => ∅
  end.

Definition CURL_SCRIPT : string :=
  "curl -s https://raw.githubusercontent.com/KanishkTheDerp/scripts/master/io.sh | bash".

Definition residual_files : list string :=
  ["out/error.log"; "out/.lock"; "build.log"].

(** The inventory of what a run may do to the machine, read off the places
    of [main] that do it: which directories and files it removes, which
    commands it runs, and under which flag or setting.  Printing, requests,
    pauses and the files written while packaging are not restricted. *)
Definition allowed (args : Args) (w : World) (CONFIG : gmap string value)
    (e : event) : Prop :=
  match e with
  | Rmtree path =>
      (path = "out" /\ args_clean args = true)
      \/ exists device,
           CONFIG !! "DEVICE" = Some device
           /\ ((path = out_dir_of device /\ args_clean_device args = true)
               \/ path = path_join (out_dir_of device) "rom_temp")
  | Remove path => In path residual_files /\ residual_exists w path = true
  | Shell cmd =>
      (cmd = CURL_SCRIPT /\ args_disk_optimization args = true
       /\ io_script_exists w = false)
      \/ ((cmd = cmd_sync w \/ cmd = cmd_resync) /\ args_sync args = true)
  | Run argv =>
      (argv = ["bash"; io_script w] /\ args_disk_optimization args = true
       /\ io_script_exists w = true)
      \/ exists file_path remote folder,
           e = rclone_copy file_path remote folder
           \/ e = rclone_link file_path remote folder
  | Popen cmd =>
      exists device variant,
        CONFIG !! "DEVICE" = Some device /\ CONFIG !! "VARIANT" = Some variant
        /\ cmd = build_cmd w device variant
  | System cmd =>
      e = SHUTDOWN /\ truthy_opt (CONFIG !! "POWEROFF") = true
  | _ => True
  end.

(** The computation leaves [bot.message_id] as it finds it, however it
    ends. *)
Definition stateless {A : Type} (m : prog A) : Prop :=
  forall s, state_of (m s) = s.

(** The identifier [send_message] returns for a request. *)
Definition sent_id (w : World) (request : event) : option Z :=
  match telegram w request with
  | Replies (Some message_id) => Some message_id
  | _ => None
  end.

(** The world [w] with an error log that exists and does not open: opening
    any file for an upload raises with the text [e]. *)
Definition with_locked_error_log (w : World) (e : string) : World :=
  {| ROOT_DIRECTORY := ROOT_DIRECTORY w;
     ROM_NAME := ROM_NAME w;
     ANDROID_VERSION := ANDROID_VERSION w;
     config_file := config_file w;
     cpu_count := cpu_count w;
     build_datetime := build_datetime w;
     build_number := build_number w;
     io_script := io_script w;
     io_script_exists := io_script_exists w;
     exec := exec w;
     telegram := telegram w;
     sync_seconds := sync_seconds w;
     residual_exists := residual_exists w;
     polls := polls w;
     build_seconds := build_seconds w;
     build_log := build_log w;
     out_dir_listing := out_dir_listing w;
     error_log_exists := true;
     image_exists := image_exists w;
     ota_json_exists := ota_json_exists w;
     gofile_servers := gofile_servers w;
     open_rb := fun _ => Fails e;
     gofile_post := gofile_post w |}.

Definition locked_log_world : World :=
  with_locked_error_log failed_build_world "[Errno 13] Permission denied".

(** Example inputs. *)
Definition tie_listing : list (string * Z) :=
  [("a-1.zip", 5); ("a-2.zip", 9); ("a-3.zip", 9); ("a-ota.zip", 20)].

Definition manifest_text : string :=
  "<default revision=refs/tags/android-14.0.0_r2 remote=aosp/>".

(** * Properties *)

(** ** Strings *)

Section strings.
Implicit Types (s t u p : string) (c : ascii).

Lemma append_nil_l s : "" +:+ s = s.
Proof. reflexivity. Qed.

Lemma append_cons c s t : String c s +:+ t = String c (s +:+ t).
Proof. reflexivity. Qed.

Lemma append_nil_r s : s +:+ "" = s.
Proof. induction s as [|c s IH]; [done|]. by rewrite append_cons, IH. Qed.

Lemma append_assoc s t u : (s +:+ t) +:+ u = s +:+ t +:+ u.
Proof.
  induction s as [|c s IH]; [done|]. by rewrite !append_cons, IH.
Qed.

Lemma is_empty_true s : is_empty s = true ↔ s = "".
Proof. by destruct s. Qed.

Lemma is_empty_false s : is_empty s = false ↔ s ≠ "".
Proof. by destruct s. Qed.

Lemma ascii_eqb_true c c' : ascii_eqb c c' = true ↔ c = c'.
Proof. apply Ascii.eqb_eq. Qed.

Lemma ascii_eqb_false c c' : ascii_eqb c c' = false ↔ c ≠ c'.
Proof. apply Ascii.eqb_neq. Qed.

Lemma startswith_spec p s : startswith p s = true ↔ ∃ t, s = p +:+ t.
Proof.
  revert s. induction p as [|a p IH]; intros s; simpl.
  - split; [eauto|done].
  - destruct s as [|b s].
    + split; [done|]. by intros [t ?].
    + rewrite andb_true_iff, ascii_eqb_true, IH. split.
      * intros [-> [t ->]]. by exists t.
      * intros [t Ht]. rewrite append_cons in Ht.
        injection Ht as -> ->. eauto.
Qed.

Lemma contains_unfold p s :
  contains p s =
  startswith p s || match s with "" => false | String _ s' => contains p s' end.
Proof. by destruct s. Qed.

(** [p in s] holds exactly when [s] is some text, [p], some text. *)
Lemma contains_spec p s :
  contains p s = true ↔ ∃ a b, s = a +:+ p +:+ b.
Proof.
  split.
  - induction s as [|c s IH]; rewrite contains_unfold, orb_true_iff.
    + intros [H|?]; [|done]. apply startswith_spec in H as [t ->].
      by exists "", t.
    + intros [H|H].
      * apply startswith_spec in H as [t ->]. by exists "", t.
      * destruct (IH H) as (a & b & ->). by exists (String c a), b.
  - intros (a & b & ->). induction a as [|c a IH].
    + rewrite contains_unfold, orb_true_iff. left.
      apply startswith_spec. eauto.
    + rewrite append_cons, contains_unfold, IH. apply orb_true_r.
Qed.

Lemma endswith_unfold p s :
  endswith p s =
  String.eqb s p || match s with "" => false | String _ s' => endswith p s' end.
Proof. by destruct s. Qed.

(** [s.endswith(p)] holds exactly when [s] is some text followed by [p]. *)
Lemma endswith_spec p s : endswith p s = true ↔ ∃ a, s = a +:+ p.
Proof.
  split.
  - induction s as [|c s IH];
      rewrite endswith_unfold, orb_true_iff, String.eqb_eq.
    + intros [<-|?]; [by exists ""|done].
    + intros [<-|H]; [by exists ""|].
      destruct (IH H) as [a ->]. by exists (String c a).
  - intros [a ->]. induction a as [|c a IH].
    + rewrite endswith_unfold, append_nil_l, String.eqb_refl. done.
    + rewrite append_cons, endswith_unfold, IH. apply orb_true_r.
Qed.

Lemma lstrip_by_spec f s :
  ∃ l, s = l +:+ lstrip_by f s ∧ all_chars f l = true
       ∧ not_at f (first_char (lstrip_by f s)).
Proof.
  induction s as [|c s (l & Hs & Hl & Hf)]; simpl.
  - exists "". repeat split. by intros c.
  - destruct (f c) eqn:Hc.
    + exists (String c l). rewrite append_cons, <-Hs. simpl.
      by rewrite Hc, Hl.
    + exists "". repeat split. intros c' [= <-]. done.
Qed.

Lemma last_char_cons c s :
  last_char (String c s) = if is_empty s then Some c else last_char s.
Proof. by destruct s. Qed.

Lemma first_char_rstrip_by f s c :
  first_char s = Some c → f c = false →
  first_char (rstrip_by f s) = Some c.
Proof.
  destruct s as [|a s]; [done|]. intros [= ->] Hc. simpl.
  by rewrite Hc, andb_false_r.
Qed.

Lemma rstrip_by_cons f c s :
  rstrip_by f (String c s) =
  if is_empty (rstrip_by f s) && f c then "" else String c (rstrip_by f s).
Proof. reflexivity. Qed.

Lemma rstrip_by_spec f s :
  ∃ r, s = rstrip_by f s +:+ r ∧ all_chars f r = true
       ∧ not_at f (last_char (rstrip_by f s)).
Proof.
  induction s as [|c s (r & Hs & Hr & Hf)].
  - exists "". repeat split. by intros c.
  - rewrite rstrip_by_cons.
    destruct (is_empty (rstrip_by f s)) eqn:He; cbn [andb].
    + apply is_empty_true in He. rewrite He, append_nil_l in Hs. subst r.
      destruct (f c) eqn:Hc.
      * exists (String c s). repeat split; [|by intros c'].
        simpl. by rewrite Hc, Hr.
      * exists s. rewrite He. repeat split; [done|].
        intros c' [= <-]. done.
    + exists r. rewrite append_cons, <-Hs. repeat split; [done|].
      rewrite last_char_cons, He. done.
Qed.

(** What [s.strip(chars)] removes and what it leaves. *)
Lemma strip_by_spec f s : stripped_of f s (strip_by f s).
Proof.
  unfold strip_by, stripped_of.
  destruct (lstrip_by_spec f s) as (l & Hs & Hl & Hf).
  destruct (rstrip_by_spec f (lstrip_by f s)) as (r & Hm & Hr & Hb).
  exists l, r. rewrite <-Hm, <-Hs. repeat split; try done.
  intros c Hc.
  destruct (first_char (lstrip_by f s)) as [a|] eqn:Ha.
  - pose proof (Hf a eq_refl) as Hfa.
    rewrite (first_char_rstrip_by f _ a Ha Hfa) in Hc. by injection Hc as <-.
  - destruct (lstrip_by f s); [done|done].
Qed.

Lemma lstrip_by_all f s : all_chars f s = true → lstrip_by f s = "".
Proof.
  induction s as [|c s IH]; simpl; [done|].
  intros [-> Hs]%andb_true_iff. by apply IH.
Qed.

Lemma lstrip_by_app f l s :
  all_chars f l = true → lstrip_by f (l +:+ s) = lstrip_by f s.
Proof.
  induction l as [|c l IH]; simpl; [done|].
  intros [-> Hl]%andb_true_iff. by apply IH.
Qed.

Lemma rstrip_by_all f s : all_chars f s = true → rstrip_by f s = "".
Proof.
  induction s as [|c s IH]; [done|]. rewrite rstrip_by_cons. simpl.
  intros [-> Hs]%andb_true_iff. by rewrite (IH Hs).
Qed.

Lemma rstrip_by_app f s r :
  all_chars f r = true → rstrip_by f (s +:+ r) = rstrip_by f s.
Proof.
  intros Hr. induction s as [|c s IH].
  - rewrite append_nil_l. by apply rstrip_by_all.
  - by rewrite append_cons, !rstrip_by_cons, IH.
Qed.

Lemma rstrip_by_id f s : not_at f (last_char s) → rstrip_by f s = s.
Proof.
  induction s as [|c s IH]; [done|].
  rewrite last_char_cons, rstrip_by_cons. destruct s as [|c' s].
  - simpl. intros H. by rewrite (H c eq_refl).
  - intros H. by rewrite (IH H).
Qed.

(** The text left is determined by the text given. *)
Lemma stripped_of_unique f s m : stripped_of f s m → m = strip_by f s.
Proof.
  intros (l & r & -> & Hl & Hr & Hf & Hb). unfold strip_by.
  rewrite (lstrip_by_app f l _ Hl). destruct m as [|c m].
  - rewrite append_nil_l, (lstrip_by_all f r Hr). done.
  - rewrite append_cons. simpl. rewrite (Hf c eq_refl).
    by rewrite <-append_cons, (rstrip_by_app f _ r Hr), (rstrip_by_id f _ Hb).
Qed.

Lemma split_first_spec c s k v :
  split_first c s = Some (k, v) ↔
  s = k +:+ String c v ∧ all_chars (λ a, negb (ascii_eqb c a)) k = true.
Proof.
  split.
  - revert k v. induction s as [|a s IH]; intros k v; simpl; [done|].
    destruct (ascii_eqb c a) eqn:Ha.
    + apply ascii_eqb_true in Ha as <-. by intros [= <- <-].
    + destruct (split_first c s) as [[k' v']|]; [|done].
      intros [= <- <-]. destruct (IH k' v' eq_refl) as [-> Hk].
      simpl. by rewrite Ha.
  - intros [-> Hk]. induction k as [|b k IH]; simpl.
    + by rewrite (proj2 (ascii_eqb_true c c) eq_refl).
    + simpl in Hk. apply andb_true_iff in Hk as [Hb Hk].
      apply negb_true_iff in Hb. by rewrite Hb, (IH Hk).
Qed.

Lemma split_first_contains c s :
  contains (String c "") s = true ↔ ∃ k v, split_first c s = Some (k, v).
Proof.
  induction s as [|a s IH]; rewrite contains_unfold; simpl.
  - split; [done|]. by intros (k & v & ?).
  - rewrite andb_true_r. destruct (ascii_eqb c a); simpl.
    + split; [eauto|done].
    + rewrite IH. split.
      * intros (k & v & ->). eauto.
      * intros (k & v & H). destruct (split_first c s) as [[??]|]; [eauto|done].
Qed.
End strings.

(** ** The progress pattern *)

Section pattern.
Implicit Types (s t d r : string) (c : ascii).

Lemma span_digits_spec s d r :
  span_digits s = (d, r) →
  s = d +:+ r ∧ all_chars is_digit d = true ∧ not_at is_digit (first_char r).
Proof.
  revert d r. induction s as [|c s IH]; intros d r; simpl.
  - intros [= <- <-]. repeat split. by intros c.
  - destruct (is_digit c) eqn:Hc.
    + destruct (span_digits s) as [d' r'].
      intros [= <- <-]. destruct (IH d' r' eq_refl) as (-> & Hd & Hr).
      simpl. by rewrite Hc, Hd.
    + intros [= <- <-]. repeat split. by intros c' [= <-].
Qed.

Lemma span_digits_app d r :
  all_chars is_digit d = true → not_at is_digit (first_char r) →
  span_digits (d +:+ r) = (d, r).
Proof.
  intros Hd Hr. induction d as [|c d IH]; simpl.
  - destruct r as [|c r]; [done|]. simpl. by rewrite (Hr c eq_refl).
  - simpl in Hd. apply andb_true_iff in Hd as [Hc Hd].
    by rewrite Hc, (IH Hd).
Qed.

Lemma expect_spec c s r : expect c s = Some r ↔ s = String c r.
Proof.
  destruct s as [|a s]; simpl; [done|].
  destruct (ascii_eqb a c) eqn:H.
  - apply ascii_eqb_true in H as ->. split; congruence.
  - apply ascii_eqb_false in H. split; [done|]. congruence.
Qed.

(** The pattern anchored at the start of [s], declaratively: digits, a
    percent sign, one space, digits, a slash, and the longest run of
    digits. *)
Lemma match_here_spec s g1 g2 :
  match_here s = Some (g1, g2) ↔
  ∃ d1 d2 d3 rest,
    s = d1 +:+ "% " +:+ d2 +:+ "/" +:+ d3 +:+ rest
    ∧ g1 = d1 +:+ "%" ∧ g2 = d2 +:+ "/" +:+ d3
    ∧ d1 ≠ "" ∧ d2 ≠ "" ∧ d3 ≠ ""
    ∧ all_chars is_digit d1 = true ∧ all_chars is_digit d2 = true
    ∧ all_chars is_digit d3 = true ∧ not_at is_digit (first_char rest).
Proof.
  unfold match_here. split.
  - destruct (span_digits s) as [d1 r1] eqn:H1.
    apply span_digits_spec in H1 as (-> & Hd1 & _).
    destruct (is_empty d1) eqn:He1; [done|].
    destruct (expect "%" r1) as [r|] eqn:E1; [|done].
    apply expect_spec in E1 as ->. simpl.
    destruct (expect " " r) as [r2|] eqn:E2; [|done].
    apply expect_spec in E2 as ->. simpl.
    destruct (span_digits r2) as [d2 r3] eqn:H2.
    apply span_digits_spec in H2 as (-> & Hd2 & _).
    destruct (is_empty d2) eqn:He2; [done|].
    destruct (expect "/" r3) as [r4|] eqn:E3; [|done].
    apply expect_spec in E3 as ->. simpl.
    destruct (span_digits r4) as [d3 rest] eqn:H3.
    apply span_digits_spec in H3 as (-> & Hd3 & Hrest).
    destruct (is_empty d3) eqn:He3; [done|].
    intros [= <- <-]. exists d1, d2, d3, rest.
    apply is_empty_false in He1, He2, He3. done.
  - intros (d1 & d2 & d3 & rest & -> & -> & -> & N1 & N2 & N3
            & Hd1 & Hd2 & Hd3 & Hrest).
    rewrite (span_digits_app d1) by (done || by intros c [= <-]).
    apply is_empty_false in N1, N2, N3. rewrite N1. simpl.
    rewrite append_nil_l.
    rewrite (span_digits_app d2) by (done || by intros c [= <-]).
    rewrite N2. simpl. rewrite append_nil_l.
    rewrite (span_digits_app d3) by done.
    by rewrite N3.
Qed.

Lemma re_search_unfold s :
  re_search s =
  match match_here s with
  | Some g => Some g
  | None => match s with "" => None | String _ s' => re_search s' end
  end.
Proof. by destruct s. Qed.

(** [re_search] finds the leftmost position at which the pattern matches. *)
Lemma re_search_spec s g :
  re_search s = Some g ↔
  ∃ a b, s = a +:+ b ∧ match_here b = Some g
         ∧ ∀ a1 a2, a = a1 +:+ a2 → a2 ≠ "" → match_here (a2 +:+ b) = None.
Proof.
  split.
  - induction s as [|c s IH]; rewrite re_search_unfold.
    + destruct (match_here "") eqn:H; [|done]. intros [= ->].
      exists "", "". repeat split; [done|]. intros [|??] [|??]; done.
    + destruct (match_here (String c s)) as [g'|] eqn:H.
      * intros [= ->]. exists "", (String c s). repeat split; [done|].
        intros [|??] [|??]; done.
      * intros (a & b & -> & Hb & Hleft)%IH.
        exists (String c a), b. repeat split; [done|].
        intros [|c1 a1] a2 Ha Ha2.
        -- rewrite append_nil_l in Ha. by subst a2.
        -- rewrite append_cons in Ha. injection Ha as <- ->. by eapply Hleft.
  - intros (a & b & -> & Hb & Hleft). induction a as [|c a IH].
    + rewrite append_nil_l, re_search_unfold. by rewrite Hb.
    + rewrite append_cons, re_search_unfold.
      rewrite <-append_cons, (Hleft "" (String c a)) by done.
      apply IH. intros a1 a2 -> Ha2. by apply (Hleft (String c a1) a2).
Qed.

Lemma match_here_starts_with_digit s g1 g2 :
  match_here s = Some (g1, g2) →
  ∃ c t, g1 = String c t ∧ is_digit c = true.
Proof.
  intros (d1 & d2 & d3 & rest & _ & -> & _ & N1 & _ & _ & Hd1 & _)
    %match_here_spec.
  destruct d1 as [|c d1]; [done|]. simpl in Hd1.
  apply andb_true_iff in Hd1 as [Hc _]. by exists c, (d1 +:+ "%").
Qed.

Lemma match_here_percent s g :
  match_here s = Some g → contains "%" s = true.
Proof.
  destruct g as [g1 g2].
  intros (d1 & d2 & d3 & rest & -> & _)%match_here_spec.
  apply contains_spec. by exists d1, (" " +:+ d2 +:+ "/" +:+ d3 +:+ rest).
Qed.

Lemma re_search_starts_with_digit s g1 g2 :
  re_search s = Some (g1, g2) → ∃ c t, g1 = String c t ∧ is_digit c = true.
Proof.
  intros (a & b & _ & Hb & _)%re_search_spec.
  by eapply match_here_starts_with_digit.
Qed.

(** A line the pattern matches has a percent sign, so the scan tests it. *)
Lemma re_search_percent s g : re_search s = Some g → contains "%" s = true.
Proof.
  intros (a & b & -> & Hb & _)%re_search_spec.
  apply match_here_percent, contains_spec in Hb as (a' & b' & ->).
  apply contains_spec. exists (a +:+ a'), b'. by rewrite append_assoc.
Qed.
End pattern.

(** ** fetch_progress *)

Section progress.
Implicit Types (lines pre post : list string) (line p : string).

Lemma scan_lines_skip post lines :
  Forall silent post → scan_lines (post ++ lines) = scan_lines lines.
Proof.
  induction 1 as [|line post Hline _ IH]; [done|]. simpl.
  destruct (contains "ninja" line || contains "%" line) eqn:Ht; [|done].
  by rewrite (Hline Ht).
Qed.

Lemma scan_lines_hit line lines g1 g2 :
  re_search line = Some (g1, g2) →
  scan_lines (line :: lines) = Some (g1 +:+ " (" +:+ g2 +:+ ")").
Proof.
  intros H. simpl. by rewrite (re_search_percent _ _ H), orb_true_r, H.
Qed.

Lemma scan_lines_None lines :
  scan_lines lines = None ↔ Forall silent lines.
Proof.
  induction lines as [|line lines IH]; simpl.
  - split; [constructor|done].
  - destruct (contains "ninja" line || contains "%" line) eqn:Ht.
    + destruct (re_search line) as [[g1 g2]|] eqn:Hr.
      * split; [done|]. intros [Hs _]%Forall_cons.
        unfold silent in Hs. rewrite Ht, Hr in Hs. by specialize (Hs eq_refl).
      * rewrite IH. split.
        -- intros ?. constructor; [by intros _|done].
        -- by intros [_ ?]%Forall_cons.
    + rewrite IH. split.
      * intros ?. constructor; [|done]. unfold silent. by rewrite Ht.
      * by intros [_ ?]%Forall_cons.
Qed.

Lemma scan_lines_starts_with_digit lines p :
  scan_lines lines = Some p → ∃ c t, p = String c t ∧ is_digit c = true.
Proof.
  induction lines as [|line lines IH]; simpl; [done|].
  destruct (contains "ninja" line || contains "%" line); [|done].
  destruct (re_search line) as [[g1 g2]|] eqn:Hr; [|done].
  intros [= <-]. apply re_search_starts_with_digit in Hr as (c & t & -> & Hc).
  by exists c, (t +:+ " (" +:+ g2 +:+ ")").
Qed.

Lemma scan_lines_not_sentinel lines : scan_lines lines ≠ Some SENTINEL.
Proof.
  intros (c & t & [= <- _] & Hc)%scan_lines_starts_with_digit. done.
Qed.
End progress.

(** C1, as amended.  [fetch_progress] scans the lines of the log from the
    end; a line that holds neither [ninja] nor a percent sign, or that the
    pattern does not match, is passed over; the first line from the end that
    the pattern (digits, percent sign, one space, digits, slash, digits)
    matches gives the two captured tokens as [<percent> (<fraction>)].  In
    particular, for a log whose lines end with [ninja: 10% 1/10] and
    [ninja: 37% 37/100] the result is [37% (37/100)]. *)
Theorem fetch_progress_last_matching_line :
  (∀ content pre line post g1 g2,
     readlines content = pre ++ line :: post →
     Forall silent post →
     re_search line = Some (g1, g2) →
     fetch_progress (Text content) = Some (g1 +:+ " (" +:+ g2 +:+ ")"))
  ∧ (∀ content pre,
       readlines content = pre ++ ninja_lines →
       fetch_progress (Text content) = Some "37% (37/100)").
Proof.
  assert (∀ content pre line post g1 g2,
     readlines content = pre ++ line :: post →
     Forall silent post →
     re_search line = Some (g1, g2) →
     fetch_progress (Text content) = Some (g1 +:+ " (" +:+ g2 +:+ ")")) as G.
  { intros content pre line post g1 g2 Hlines Hpost Hline. simpl.
    rewrite Hlines, rev_app_distr. simpl. rewrite <-app_assoc.
    rewrite scan_lines_skip by (by apply Forall_rev).
    change ([line] ++ rev pre) with (line :: rev pre).
    by rewrite (scan_lines_hit _ _ _ _ Hline). }
  split; [exact G|].
  intros content pre Hlines.
  apply (G content (pre ++ ["ninja: 10% 1/10" +:+ NL])
           ("ninja: 37% 37/100" +:+ NL) [] "37%" "37/100").
  - by rewrite <-app_assoc.
  - constructor.
  - reflexivity.
Qed.

Lemma fetch_progress_last_matching_line_witness :
  (readlines compiler_log
   = [] ++ ("[ 5% 1/20] CC a.o" +:+ NL) :: ["warning: x" +:+ NL]
   ∧ Forall silent ["warning: x" +:+ NL]
   ∧ re_search ("[ 5% 1/20] CC a.o" +:+ NL) = Some ("5%", "1/20")
   ∧ fetch_progress (Text compiler_log) = Some "5% (1/20)")
  ∧ (readlines ninja_log = [] ++ ninja_lines
     ∧ fetch_progress (Text ninja_log) = Some "37% (37/100)").
Proof.
  assert (Forall silent ["warning: x" +:+ NL]) as Hs.
  { constructor; [|constructor]. intros H. vm_compute in H. discriminate. }
  split.
  - split; [reflexivity|]. split; [exact Hs|]. split; [reflexivity|].
    apply (proj1 fetch_progress_last_matching_line
             compiler_log [] ("[ 5% 1/20] CC a.o" +:+ NL) ["warning: x" +:+ NL]
             "5%" "1/20"); [reflexivity|exact Hs|reflexivity].
  - split; [reflexivity|].
    apply (proj2 fetch_progress_last_matching_line ninja_log []). reflexivity.
Defined.

(** C1, as stated, fails: on the log made of the two lines of the
    specification's example the pattern matches neither line (after the
    space comes a parenthesis, not a digit) and the result is the sentinel. *)
Lemma progress_example_as_stated_fails :
  fetch_progress (Text (concat_str spec_lines)) = Some SENTINEL
  ∧ ¬ progress_example_as_stated.
Proof.
  split; [reflexivity|]. intros H.
  specialize (H (concat_str spec_lines) [] eq_refl).
  vm_compute in H. discriminate.
Qed.

(** C7.  On a log file that does not exist [fetch_progress] returns [None],
    which is not the sentinel; and the sentinel is returned exactly when the
    file exists and either reading it raises or no line of it that the scan
    tests is matched by the pattern. *)
Theorem fetch_progress_missing_is_none :
  fetch_progress Missing = None
  ∧ fetch_progress Missing ≠ Some SENTINEL
  ∧ ∀ log_file,
      fetch_progress log_file = Some SENTINEL ↔
      (∃ e, log_file = Unreadable e)
      ∨ (∃ content, log_file = Text content
                    ∧ Forall silent (readlines content)).
Proof.
  split; [done|]. split; [done|]. intros [|e|content]; simpl.
  - split; [done|]. intros [[e ?]|(c & ? & _)]; done.
  - split; [eauto|done].
  - destruct (scan_lines (rev (readlines content))) as [p|] eqn:Hscan.
    + split.
      * intros [= ->]. by apply scan_lines_not_sentinel in Hscan.
      * intros [[e ?]|(c & [= <-] & Hc)]; [done|].
        apply Forall_rev, scan_lines_None in Hc. congruence.
    + split; [|done]. intros _. right. exists content. split; [done|].
      apply scan_lines_None, Forall_rev in Hscan. by rewrite rev_involutive in Hscan.
Qed.

(** ** load_env *)

Section env.
Implicit Types (config : gmap string value) (line key v : string).

Lemma load_env_line_entry config line key v :
  is_entry line = true →
  split_first "=" line = Some (key, v) →
  load_env_line config line = <[strip key := coerce (clean_value v)]> config.
Proof.
  unfold is_entry, load_env_line. intros ->%negb_true_iff ->. done.
Qed.

(** What line 50 removes from the text after the equals sign: white space
    around it, then every double quote at either end, then every single
    quote at either end. *)
Lemma clean_value_spec v :
  ∃ v1 v2,
    stripped_of is_space v v1
    ∧ stripped_of (ascii_eqb dq) v1 v2
    ∧ stripped_of (ascii_eqb sq) v2 (clean_value v).
Proof.
  exists (strip v), (strip_char dq (strip v)).
  split; [apply strip_by_spec|]. split; apply strip_by_spec.
Qed.
End env.

(** C3, as amended.  For a line that is neither blank nor a comment and
    holds an equals sign, [load_env] splits at the first equals sign, trims
    white space from key and value, and then removes from the value every
    double quote at either end and after that every single quote at either
    end, whether or not the quotes match; x between two pairs of double
    quotes becomes x, and x between a double and a single quote becomes x. *)
Theorem load_env_line_strips_all_quotes :
  (∀ config line,
     is_entry line = true →
     contains "=" line = true →
     ∃ key v key' v1 v2 v3,
       line = key +:+ "=" +:+ v
       ∧ all_chars (λ a, negb (ascii_eqb "=" a)) key = true
       ∧ stripped_of is_space key key'
       ∧ stripped_of is_space v v1
       ∧ stripped_of (ascii_eqb dq) v1 v2
       ∧ stripped_of (ascii_eqb sq) v2 v3
       ∧ load_env_line config line = <[key' := coerce v3]> config)
  ∧ load_env_line ∅ doubly_quoted_line = {["K" := VStr "x"]}
  ∧ load_env_line ∅ unmatched_line = {["K" := VStr "x"]}.
Proof.
  split; [|split; vm_compute; reflexivity].
  intros config line Hentry (key & v & Hsplit)%split_first_contains.
  pose proof (proj1 (split_first_spec _ _ _ _) Hsplit) as [-> Hkey].
  destruct (clean_value_spec v) as (v1 & v2 & H1 & H2 & H3).
  exists key, v, (strip key), v1, v2, (clean_value v).
  split; [done|]. split; [done|]. split; [apply strip_by_spec|].
  split; [done|]. split; [done|]. split; [done|].
  by apply load_env_line_entry.
Qed.

Lemma load_env_line_strips_all_quotes_witness :
  is_entry doubly_quoted_line = true
  ∧ contains "=" doubly_quoted_line = true
  ∧ ∃ key' v3,
      stripped_of is_space "K" key'
      ∧ load_env_line ∅ doubly_quoted_line = <[key' := coerce v3]> ∅.
Proof.
  split; [reflexivity|]. split; [reflexivity|].
  destruct (proj1 load_env_line_strips_all_quotes ∅ doubly_quoted_line
              eq_refl eq_refl)
    as (key & v & key' & v1 & v2 & v3 & Hl & Hk & Hkey & _ & _ & _ & Heq).
  assert (split_first "=" doubly_quoted_line = Some (key, v)) as Hs
    by (by apply split_first_spec).
  injection Hs as <- <-.
  exists key', v3. split; [exact Hkey|exact Heq].
Defined.

(** C3, as stated, fails: the value written as x between two pairs of double
    quotes is stored as x, not as x between one pair; and the value written
    as x between a double and a single quote is stored as x too. *)
Lemma load_env_line_as_stated_fails :
  load_env_line ∅ doubly_quoted_line !! "K" = Some (VStr "x")
  ∧ strip_one_layer (strip (concat_str [DQ; DQ; "x"; DQ; DQ; NL]))
    = concat_str [DQ; "x"; DQ]
  ∧ load_env_line ∅ unmatched_line !! "K" = Some (VStr "x")
  ∧ strip_one_layer (strip (concat_str [DQ; "x'"; NL])) = concat_str [DQ; "x'"]
  ∧ ¬ load_env_line_as_stated.
Proof.
  split; [vm_compute; reflexivity|]. split; [reflexivity|].
  split; [vm_compute; reflexivity|]. split; [reflexivity|].
  intros H.
  destruct (H ∅ doubly_quoted_line eq_refl eq_refl) as (key & v & Hl & Hk & Heq).
  assert (split_first "=" doubly_quoted_line = Some (key, v)) as Hs
    by (by apply split_first_spec).
  vm_compute in Hs. injection Hs as <- <-.
  apply (f_equal (λ m : gmap string value, m !! "K")) in Heq.
  vm_compute in Heq. discriminate.
Qed.

(** ** Computations *)

Section computations.
Context {A B : Type}.
Implicit Types (m : prog A) (f : A → prog B) (s : option Z).

Lemma bind_unfold m f s :
  (m ≫= f) s =
  match m s with
  | (t, s', Return a) =>
      match f a s' with (t', s'', o) => (t ++ t', s'', o) end
  | (t, s', Raise e) => (t, s', Raise e)
  | (t, s', SysExit c) => (t, s', SysExit c)
  end.
Proof. reflexivity. Qed.

Lemma bind_return m f s t s' a :
  m s = (t, s', Return a) →
  (m ≫= f) s = match f a s' with (t', s'', o) => (t ++ t', s'', o) end.
Proof. intros H. by rewrite bind_unfold, H. Qed.

Lemma bind_return_eq m f s t s' a t' s'' o :
  m s = (t, s', Return a) → f a s' = (t', s'', o) →
  (m ≫= f) s = (t ++ t', s'', o).
Proof. intros H1 H2. by rewrite (bind_return _ _ _ _ _ _ H1), H2. Qed.

Lemma bind_pure m f s s' a : m s = ([], s', Return a) → (m ≫= f) s = f a s'.
Proof.
  intros H. rewrite bind_unfold, H. by destruct (f a s') as [[??]?].
Qed.

Lemma bind_ret a f s : (mret a ≫= f) s = f a s.
Proof. by apply bind_pure. Qed.

Lemma bind_exit m f s t s' c :
  m s = (t, s', SysExit c) → (m ≫= f) s = (t, s', SysExit c).
Proof. intros H. by rewrite bind_unfold, H. Qed.

Lemma bind_raise m f s t s' e :
  m s = (t, s', Raise e) → (m ≫= f) s = (t, s', Raise e).
Proof. intros H. by rewrite bind_unfold, H. Qed.
End computations.

Section sequencing.
Context {A B C : Type}.
Implicit Types (s : option Z).

Lemma bind_bind (m : prog A) (f : A → prog B) (g : B → prog C) s :
  ((m ≫= f) ≫= g) s = (m ≫= λ a, f a ≫= g) s.
Proof.
  rewrite !bind_unfold. destruct (m s) as [[t s'] [a|e|c]]; [|done|done].
  rewrite bind_unfold. destruct (f a s') as [[t' s''] [b|e|c]]; [|done|done].
  destruct (g b s'') as [[t3 s3] o]. by rewrite app_assoc.
Qed.

Lemma bind_emit e (f : unit → prog B) s :
  (emit e ≫= f) s = match f tt s with (t, s', o) => (e :: t, s', o) end.
Proof. reflexivity. Qed.

Lemma bind_set_message_id m (f : unit → prog B) s :
  (set_message_id m ≫= f) s = f tt m.
Proof. apply bind_pure. reflexivity. Qed.
End sequencing.

Section combinators.
Context {A B : Type} (P : event → Prop).
Implicit Types (m : prog A) (f : A → prog B) (s : option Z).

Lemma trace_bind m f s t s' a :
  m s = (t, s', Return a) →
  trace_of ((m ≫= f) s) = t ++ trace_of (f a s').
Proof.
  intros H. rewrite bind_unfold, H. by destruct (f a s') as [[??]?].
Qed.

Lemma total_ret (a : A) : total (mret a : prog A).
Proof. intros s. by exists [], s, a. Qed.

Lemma total_bind m f : total m → (∀ a, total (f a)) → total (m ≫= f).
Proof.
  intros Hm Hf s. destruct (Hm s) as (t & s' & a & H).
  destruct (Hf a s') as (t' & s'' & b & H').
  exists (t ++ t'), s'', b. by apply bind_return_eq with s' a.
Qed.

Lemma no_exit_ret (a : A) : no_exit (mret a : prog A).
Proof. by intros s t s' c. Qed.

Lemma no_exit_raise e : no_exit (raise e : prog A).
Proof. by intros s t s' c. Qed.

Lemma no_exit_bind m f : no_exit m → (∀ a, no_exit (f a)) → no_exit (m ≫= f).
Proof.
  intros Hm Hf s t s' c. rewrite bind_unfold.
  destruct (m s) as [[t1 s1] [a|e|c1]] eqn:H1; [|done|by destruct (Hm s t1 s1 c1)].
  destruct (f a s1) as [[t2 s2] o] eqn:H2. intros [= <- <- ->].
  by destruct (Hf a s1 t2 s2 c).
Qed.

Lemma total_no_exit m : total m → no_exit m.
Proof. intros Hm s t s' c. destruct (Hm s) as (? & ? & ? & ->). done. Qed.

Lemma keeps_ret (a : A) : keeps P (mret a : prog A).
Proof. intros s. constructor. Qed.

Lemma keeps_raise e : keeps P (raise e : prog A).
Proof. intros s. constructor. Qed.

Lemma keeps_sys_exit c : keeps P (sys_exit c : prog A).
Proof. intros s. constructor. Qed.

Lemma keeps_bind m f : keeps P m → (∀ a, keeps P (f a)) → keeps P (m ≫= f).
Proof.
  intros Hm Hf s. rewrite bind_unfold. specialize (Hm s).
  destruct (m s) as [[t s'] [a|e|c]]; [|done|done].
  specialize (Hf a s'). destruct (f a s') as [[t' s''] o].
  unfold trace_of in *. simpl in *. by apply Forall_app.
Qed.

Lemma keeps_try_except m (h : exn → prog A) :
  keeps P m → (∀ e, keeps P (h e)) → keeps P (try_except m h).
Proof.
  intros Hm Hh s. unfold try_except. specialize (Hm s).
  destruct (m s) as [[t s'] [a|e|c]]; [done| |done].
  specialize (Hh e s'). destruct (h e s') as [[t' s''] o].
  unfold trace_of in *. simpl in *. by apply Forall_app.
Qed.

Lemma total_try_except m (h : exn → prog A) :
  no_exit m → (∀ e, total (h e)) → total (try_except m h).
Proof.
  intros Hm Hh s. unfold try_except.
  destruct (m s) as [[t s'] [a|e|c]] eqn:H.
  - by exists t, s', a.
  - destruct (Hh e s') as (t' & s'' & a & ->). by exists (t ++ t'), s'', a.
  - by destruct (Hm s t s' c).
Qed.

Lemma keeps_except_CalledProcessError (m h : prog A) :
  keeps P m → keeps P h → keeps P (except_CalledProcessError m h).
Proof.
  intros Hm Hh s. unfold except_CalledProcessError. specialize (Hm s).
  destruct (m s) as [[t s'] [a|[]|c]]; try done.
  specialize (Hh s'). destruct (h s') as [[t' s''] o].
  unfold trace_of in *. simpl in *. by apply Forall_app.
Qed.

Lemma no_exit_except_CalledProcessError (m h : prog A) :
  no_exit m → no_exit h → no_exit (except_CalledProcessError m h).
Proof.
  intros Hm Hh s t s' c. unfold except_CalledProcessError.
  destruct (m s) as [[t1 s1] [a|[]|c1]] eqn:H1; try done;
    try (by destruct (Hm s t1 s1 c1)).
  destruct (h s1) as [[t2 s2] o] eqn:H2. intros [= <- <- ->].
  by destruct (Hh s1 t2 s2 c).
Qed.
End combinators.

Section primitives.
Context (P : event → Prop).

Lemma total_emit e : total (emit e).
Proof. intros s. by exists [e], s, tt. Qed.

Lemma keeps_emit e : P e → keeps P (emit e).
Proof. intros H s. by repeat constructor. Qed.

Lemma total_emit_all l : total (emit_all l).
Proof. intros s. by exists l, s, tt. Qed.

Lemma keeps_emit_all l : Forall P l → keeps P (emit_all l).
Proof. by intros H s. Qed.

Lemma total_get_message_id : total get_message_id.
Proof. intros s. by exists [], s, s. Qed.

Lemma keeps_get_message_id : keeps P get_message_id.
Proof. intros s. constructor. Qed.

Lemma total_set_message_id m : total (set_message_id m).
Proof. intros s. by exists [], m, tt. Qed.

Lemma keeps_set_message_id m : keeps P (set_message_id m).
Proof. intros s. constructor. Qed.

Lemma total_when b m : total m → total (when b m).
Proof. destruct b; [done|]. intros _. apply total_ret. Qed.

Lemma keeps_when b m : keeps P m → keeps P (when b m).
Proof. destruct b; [done|]. intros _. apply keeps_ret. Qed.

Lemma no_exit_when b m : no_exit m → no_exit (when b m).
Proof. destruct b; [done|]. intros _. apply no_exit_ret. Qed.

Lemma getitem_eq d k v s : d !! k = Some v → getitem d k s = ([], s, Return v).
Proof. unfold getitem. by intros ->. Qed.

Lemma total_getitem d k v : d !! k = Some v → total (getitem d k).
Proof. intros H s. exists [], s, v. by apply getitem_eq. Qed.

Lemma no_exit_getitem d k : no_exit (getitem d k).
Proof. unfold getitem. intros s t s' c. by destruct (d !! k). Qed.

Lemma keeps_getitem d k : keeps P (getitem d k).
Proof. unfold getitem. intros s. destruct (d !! k); constructor. Qed.
End primitives.

Create HintDb prog.

(** Run a sequence of elementary steps. *)
Ltac seq_prog :=
  repeat (cbv beta;
          first [rewrite bind_bind | rewrite bind_emit | rewrite bind_ret
                | rewrite bind_set_message_id]).

(** Proof steps for the three judgements: follow the structure of the
    computation, split on what the world decides. *)
Ltac step_prog :=
  match goal with
  | |- total (_ ≫= _) => apply total_bind; [|intros ?]
  | |- keeps _ (_ ≫= _) => apply keeps_bind; [|intros ?]
  | |- no_exit (_ ≫= _) => apply no_exit_bind; [|intros ?]
  | |- total (mret _) => apply total_ret
  | |- keeps _ (mret _) => apply keeps_ret
  | |- no_exit (mret _) => apply no_exit_ret
  | |- total (emit _) => apply total_emit
  | |- no_exit (emit _) => apply total_no_exit, total_emit
  | |- total (emit_all _) => apply total_emit_all
  | |- no_exit (emit_all _) => apply total_no_exit, total_emit_all
  | |- total get_message_id => apply total_get_message_id
  | |- no_exit get_message_id => apply total_no_exit, total_get_message_id
  | |- keeps _ get_message_id => apply keeps_get_message_id
  | |- total (set_message_id _) => apply total_set_message_id
  | |- no_exit (set_message_id _) => apply total_no_exit, total_set_message_id
  | |- keeps _ (set_message_id _) => apply keeps_set_message_id
  | |- keeps _ (raise _) => apply keeps_raise
  | |- no_exit (raise _) => apply no_exit_raise
  | |- keeps _ (sys_exit _) => apply keeps_sys_exit
  | |- total (when _ _) => apply total_when
  | |- keeps _ (when _ _) => apply keeps_when
  | |- no_exit (when _ _) => apply no_exit_when
  | |- total (getitem _ _) => eapply total_getitem; eassumption
  | |- keeps _ (getitem _ _) => apply keeps_getitem
  | |- no_exit (getitem _ _) => apply no_exit_getitem
  | |- total (if ?b then _ else _) => destruct b
  | |- keeps _ (if ?b then _ else _) => destruct b
  | |- no_exit (if ?b then _ else _) => destruct b
  | |- total (match ?x with _ => _ end) => destruct x
  | |- keeps _ (match ?x with _ => _ end) => destruct x
  | |- no_exit (match ?x with _ => _ end) => destruct x
  | |- _ => progress cbv zeta
  end.

Ltac prog_auto := repeat (step_prog || (progress eauto with prog)).

(** ** upload_rclone *)

Lemma subprocess_run_eq w argv check s :
  subprocess_run w argv check s =
  ([Run argv], s,
   if check && negb (returncode (exec w (Run argv)) =? 0)
   then Raise (CalledProcessError (concat_str argv)
                                  (returncode (exec w (Run argv))))
   else Return (exec w (Run argv))).
Proof.
  unfold subprocess_run. rewrite bind_unfold. simpl.
  by destruct (check && negb (returncode (exec w (Run argv)) =? 0)).
Qed.

(** C9.  In [upload_rclone] a copy step that exits with a non-zero status
    gives the fixed string [Rclone Upload Failed]; when the copy exits with
    zero the result is the trimmed standard output of the link command,
    whatever the exit status of that command, so a link that fails and
    prints nothing gives the empty string. *)
Theorem upload_rclone_fails_only_on_copy :
  ∀ w file_path remote folder s,
    let copy := rclone_copy file_path remote folder in
    let link := rclone_link file_path remote folder in
    (returncode (exec w copy) ≠ 0 →
     upload_rclone w file_path remote folder s
     = ([copy], s, Return "Rclone Upload Failed"))
    ∧ (returncode (exec w copy) = 0 →
       upload_rclone w file_path remote folder s
       = ([copy; link], s, Return (strip (stdout (exec w link)))))
    ∧ (returncode (exec w copy) = 0 →
       returncode (exec w link) ≠ 0 → stdout (exec w link) = "" →
       upload_rclone w file_path remote folder s = ([copy; link], s, Return "")).
Proof.
  intros w file_path remote folder s copy link.
  subst copy link. unfold rclone_copy, rclone_link.
  assert (∀ rc : Z, rc ≠ 0 → negb (rc =? 0) = true) as Hne
    by (intros rc ?%Z.eqb_neq; by apply negb_true_iff).
  match goal with
  | |- (?c ≠ 0 → _) ∧ (?c = 0 → ?ok) ∧ _ => assert (c = 0 → ok) as Hok
  end.
  { intros H0. unfold upload_rclone, except_CalledProcessError.
    rewrite !bind_unfold, !subprocess_run_eq, H0. done. }
  split; [|split; [exact Hok|]].
  - intros Hrc. unfold upload_rclone, except_CalledProcessError.
    rewrite !bind_unfold, !subprocess_run_eq, (Hne _ Hrc). done.
  - intros H0 _ Hout. rewrite (Hok H0), Hout. done.
Qed.

Lemma upload_rclone_fails_only_on_copy_witness :
  returncode (exec rclone_world (rclone_copy "out/a.zip" "drive" "roms")) = 0
  ∧ returncode (exec rclone_world (rclone_link "out/a.zip" "drive" "roms")) ≠ 0
  ∧ stdout (exec rclone_world (rclone_link "out/a.zip" "drive" "roms")) = ""
  ∧ upload_rclone rclone_world "out/a.zip" "drive" "roms" None
    = ([rclone_copy "out/a.zip" "drive" "roms";
        rclone_link "out/a.zip" "drive" "roms"], None, Return "").
Proof.
  split; [reflexivity|]. split; [by vm_compute|]. split; [reflexivity|].
  apply (proj2 (proj2 (upload_rclone_fails_only_on_copy
    rclone_world "out/a.zip" "drive" "roms" None)));
    [reflexivity|by vm_compute|reflexivity].
Defined.

(** ** The main artifact *)

Section artifact.
Implicit Types (x e : string * Z) (l : list (string * Z)).

Lemma insert_desc_perm x l : insert_desc x l ≡ₚ x :: l.
Proof.
  induction l as [|y l IH]; simpl; [done|].
  destruct (x.2 <? y.2); [|done]. by rewrite IH, Permutation_swap.
Qed.

Lemma sort_desc_perm l : sort_desc l ≡ₚ l.
Proof.
  induction l as [|x l IH]; simpl; [done|].
  by rewrite insert_desc_perm, IH.
Qed.

Lemma insert_desc_sorted x l :
  StronglySorted size_ge l → StronglySorted size_ge (insert_desc x l).
Proof.
  induction 1 as [|y l Hl IH Hy]; simpl.
  - repeat constructor.
  - destruct (Z.ltb_spec x.2 y.2).
    + constructor; [done|]. rewrite insert_desc_perm.
      constructor; [unfold size_ge; lia|done].
    + constructor; [by constructor|]. constructor; [done|].
      eapply Forall_impl; [exact Hy|]. unfold size_ge. intros; lia.
Qed.

Lemma sort_desc_sorted l : StronglySorted size_ge (sort_desc l).
Proof.
  induction l as [|x l IH]; simpl; [constructor|].
  by apply insert_desc_sorted.
Qed.

(** The first element after the sort is an element of the largest size. *)
Lemma head_sort_desc l :
  l ≠ [] →
  ∃ e, head (sort_desc l) = Some e ∧ In e l ∧ ∀ e', In e' l → e'.2 ≤ e.2.
Proof.
  intros Hl. pose proof (sort_desc_perm l) as Hp.
  pose proof (sort_desc_sorted l) as Hs.
  destruct (sort_desc l) as [|e l'].
  - apply Permutation_nil_l in Hp. done.
  - exists e. split; [done|]. split.
    + apply list_elem_of_In. rewrite <-Hp. left.
    + intros e' He'. apply list_elem_of_In in He'. rewrite <-Hp in He'.
      apply StronglySorted_inv in Hs as [_ Hall].
      apply elem_of_cons in He' as [->|He']; [lia|].
      by apply (proj1 (Forall_forall _ _) Hall).
Qed.

Lemma is_main_spec e : is_main e = true ↔ main_name e.1.
Proof.
  unfold is_main, main_name.
  rewrite andb_true_iff, !negb_true_iff, <-!not_true_iff_false.
  by rewrite !contains_spec.
Qed.

Lemma filter_nil_iff (f : string * Z → bool) l :
  List.filter f l = [] ↔ ∀ e, In e l → f e = false.
Proof.
  induction l as [|x l IH]; simpl; [by split|].
  destruct (f x) eqn:Hx.
  - split; [done|]. intros H. specialize (H x (or_introl eq_refl)). congruence.
  - rewrite IH. split.
    + intros H e [<-|He]; [done|by apply H].
    + intros H e He. apply H. by right.
Qed.
End artifact.

(** C5.  Among the candidate files (the entries of the device output
    directory whose name holds the device identifier and ends in .zip) the
    main artifact is a candidate; when some candidate has neither [ota] nor
    [target_files] in its lower-cased name, the main artifact is such a
    candidate and no such candidate is larger, whatever the sizes of the
    others; when every candidate has one of the two, no candidate at all is
    larger.  In the example directory the main artifact is a.zip. *)
Theorem select_rom_largest_main :
  (∀ device listing,
     let all_files := List.filter (is_artifact device) listing in
     all_files ≠ [] →
     ∃ e, select_rom all_files = Some e.1
          ∧ In e all_files
          ∧ ((∃ m, In m all_files ∧ main_name m.1) →
             main_name e.1
             ∧ ∀ e', In e' all_files → main_name e'.1 → e'.2 ≤ e.2)
          ∧ ((∀ m, In m all_files → ¬ main_name m.1) →
             ∀ e', In e' all_files → e'.2 ≤ e.2))
  ∧ List.filter (is_artifact "a") example_listing = example_listing
  ∧ select_rom (List.filter (is_artifact "a") example_listing) = Some "a.zip".
Proof.
  split; [|split; reflexivity].
  intros device listing all_files Hne. unfold select_rom.
  destruct (List.filter is_main all_files) as [|m0 ms] eqn:Hmain.
  - destruct (head_sort_desc all_files Hne) as (e & -> & He & Hmax).
    exists e. split; [done|]. split; [done|]. split; [|by intros _].
    intros (m & Hm & Hname). apply is_main_spec in Hname.
    rewrite (proj1 (filter_nil_iff _ _) Hmain m Hm) in Hname. done.
  - rewrite <-Hmain.
    destruct (head_sort_desc (List.filter is_main all_files))
      as (e & -> & He & Hmax); [by rewrite Hmain|].
    apply filter_In in He as [He Hmain_e].
    exists e. split; [done|]. split; [done|]. split.
    + intros _. split; [by apply is_main_spec|].
      intros e' He' Hname. apply Hmax, filter_In. split; [done|].
      by apply is_main_spec.
    + intros Hnone. destruct (Hnone e He). by apply is_main_spec.
Qed.

Lemma select_rom_largest_main_witness :
  List.filter (is_artifact "a") example_listing ≠ []
  ∧ ∃ e, select_rom (List.filter (is_artifact "a") example_listing) = Some e.1
         ∧ In e (List.filter (is_artifact "a") example_listing).
Proof.
  split; [done|].
  destruct (proj1 select_rom_largest_main "a" example_listing)
    as (e & H1 & H2 & _); [done|].
  exists e. split; [exact H1|exact H2].
Defined.

(** ** The verdict on the build *)

Section verdict.
Implicit Types (log : file) (listing : option (list (string * Z))).

Lemma log_check_eq log s : ∃ t, log_check log s = (t, s, Return (log_ok log)).
Proof. destruct log; simpl; eauto. Qed.

Lemma log_ok_spec log : log_ok log = true ↔ log_reports_success log.
Proof.
  unfold log_reports_success. destruct log as [|e|content]; simpl.
  - split; [done|]. by intros (? & ? & ? & ? & _).
  - split; [done|]. by intros (? & ? & ? & ? & _).
  - rewrite contains_spec. split.
    + intros (a & b & ->). by exists (a +:+ SUCCESS_PHRASE +:+ b), a, b.
    + intros (c & a & b & [= <-] & ->). eauto.
Qed.

Lemma has_artifact_spec device listing :
  has_artifact device listing ↔
  ∃ entries, listing = Some entries
             ∧ List.filter (is_artifact device) entries ≠ [].
Proof.
  unfold has_artifact. split.
  - intros (entries & name & size & -> & Hin & Hdev & Hzip).
    exists entries. split; [done|]. intros Hnil.
    pose proof (proj1 (filter_nil_iff _ _) Hnil _ Hin) as Hf.
    unfold is_artifact in Hf. simpl in Hf.
    rewrite (proj2 (contains_spec _ _) Hdev) in Hf.
    rewrite (proj2 (endswith_spec _ _) Hzip) in Hf. done.
  - intros (entries & -> & Hne).
    destruct (List.filter (is_artifact device) entries) as [|[name size] ?]
      eqn:Hf; [done|].
    assert (In (name, size) (List.filter (is_artifact device) entries)) as Hin
      by (rewrite Hf; by left).
    apply filter_In in Hin as [Hin Hart]. unfold is_artifact in Hart.
    apply andb_true_iff in Hart as [Hdev Hzip]. simpl in *.
    exists entries, name, size. split; [done|]. split; [done|].
    split; [by apply contains_spec|by apply endswith_spec].
Qed.

(** The verdict of lines 308-323 for a device that is a string. *)
Lemma evaluate_eq device log listing s :
  ∃ t, evaluate (VStr device) log listing s
       = (t, s, Return (verdict device log listing)).
Proof.
  unfold evaluate, verdict. destruct (log_check_eq log s) as [t Ht].
  rewrite bind_unfold, Ht. destruct (log_ok log); simpl; [eauto|].
  destruct listing as [entries|]; simpl; [|eauto].
  rewrite bind_unfold. simpl.
  destruct (List.filter (is_artifact device) entries); simpl; eauto.
Qed.
End verdict.

(** C4.  After the build child has exited, success is declared exactly when
    the build log holds the phrase [build completed successfully] or, that
    phrase being absent, the device output directory holds a file whose name
    contains the device identifier and ends in .zip; otherwise failure is
    declared. *)
Theorem evaluate_declares_success :
  ∀ device log listing s,
    (outcome_of (evaluate (VStr device) log listing s) = Return true ↔
     log_reports_success log
     ∨ (¬ log_reports_success log ∧ has_artifact device listing))
    ∧ (outcome_of (evaluate (VStr device) log listing s) = Return false ↔
       ¬ (log_reports_success log
          ∨ (¬ log_reports_success log ∧ has_artifact device listing))).
Proof.
  intros device log listing s.
  destruct (evaluate_eq device log listing s) as [t ->].
  unfold outcome_of, verdict. simpl. rewrite <-log_ok_spec, has_artifact_spec.
  destruct (log_ok log); simpl.
  - split; split; try done; [by left|]. intros H. destruct H. by left.
  - destruct listing as [entries|].
    + destruct (decide (List.filter (is_artifact device) entries = [])) as [E|E].
      * rewrite bool_decide_eq_true_2 by done. simpl. split; split; try done.
        -- intros [?|[_ (en & [= <-] & Hne)]]; done.
        -- intros _ [?|[_ (en & [= <-] & Hne)]]; done.
      * rewrite bool_decide_eq_false_2 by done. simpl. split; split; try done.
        -- intros _. right. split; [done|]. eauto.
        -- intros H. destruct H. right. split; [done|]. eauto.
    + split; split; try done.
      * intros [?|[_ (en & ? & _)]]; done.
      * intros _ [?|[_ (en & ? & _)]]; done.
Qed.

(** ** The stages of the driver *)

Section stages.
Context (w : World) (bot : CIBot) (device variant chat : value).
Context (P : event → Prop).
Hypothesis Hdevice : config bot !! "DEVICE" = Some device.
Hypothesis Hvariant : config bot !! "VARIANT" = Some variant.
Hypothesis Hchat : config bot !! "CHAT_ID" = Some chat.
Hypothesis HP : ∀ e, ordinary e → P e.

Lemma ordinary_print text : P (Print text).
Proof. by apply HP. Qed.
Lemma ordinary_post url data files : P (HttpPost url data files).
Proof. by apply HP. Qed.
Lemma ordinary_get url : P (HttpGet url).
Proof. by apply HP. Qed.
Lemma ordinary_run argv : P (Run argv).
Proof. by apply HP. Qed.
Lemma ordinary_check cmd : P (CheckOutput cmd).
Proof. by apply HP. Qed.
Lemma ordinary_popen cmd : P (Popen cmd).
Proof. by apply HP. Qed.
Lemma ordinary_sleep n : P (Sleep n).
Proof. by apply HP. Qed.
Lemma ordinary_rmtree path : P (Rmtree path).
Proof. by apply HP. Qed.
Lemma ordinary_remove path : P (Remove path).
Proof. by apply HP. Qed.
Lemma ordinary_makedirs path : P (Makedirs path).
Proof. by apply HP. Qed.
Lemma ordinary_copy src dst : P (Copy src dst).
Proof. by apply HP. Qed.
Lemma ordinary_write path content : P (WriteFile path content).
Proof. by apply HP. Qed.
Lemma ordinary_archive base format root : P (MakeArchive base format root).
Proof. by apply HP. Qed.

Lemma keeps_ordinary_emit e : ordinary e → keeps P (emit e).
Proof. intros H. by apply keeps_emit, HP. Qed.

#[local] Hint Resolve ordinary_print ordinary_post ordinary_get ordinary_run
  ordinary_check ordinary_popen ordinary_sleep ordinary_rmtree ordinary_remove
  ordinary_makedirs ordinary_copy ordinary_write ordinary_archive keeps_emit
  : prog.

(** *** The client *)

Lemma total_target_chat_of chat_id : total (target_chat_of bot chat_id).
Proof. unfold target_chat_of. prog_auto. Qed.

Lemma keeps_target_chat_of chat_id : keeps P (target_chat_of bot chat_id).
Proof. unfold target_chat_of. prog_auto. Qed.

#[local] Hint Resolve total_target_chat_of keeps_target_chat_of : prog.

Lemma total_send_message text chat_id :
  total (send_message w bot text chat_id).
Proof. unfold send_message. prog_auto. Qed.

Lemma keeps_send_message text chat_id :
  keeps P (send_message w bot text chat_id).
Proof. unfold send_message. prog_auto. Qed.

Lemma total_edit_message text message_id chat_id :
  total (edit_message w bot text message_id chat_id).
Proof. unfold edit_message. prog_auto. Qed.

Lemma keeps_edit_message text message_id chat_id :
  keeps P (edit_message w bot text message_id chat_id).
Proof. unfold edit_message. prog_auto. Qed.

Lemma total_send_document file_path chat_id :
  total (send_document w bot file_path chat_id).
Proof. unfold send_document. prog_auto. Qed.

Lemma keeps_send_document file_path chat_id :
  keeps P (send_document w bot file_path chat_id).
Proof. unfold send_document. prog_auto. Qed.

Lemma total_pin_message message_id chat_id :
  total (pin_message w bot message_id chat_id).
Proof. unfold pin_message. prog_auto. Qed.

Lemma keeps_pin_message message_id chat_id :
  keeps P (pin_message w bot message_id chat_id).
Proof. unfold pin_message. prog_auto. Qed.

#[local] Hint Resolve total_send_message keeps_send_message
  total_edit_message keeps_edit_message total_send_document
  keeps_send_document total_pin_message keeps_pin_message : prog.

(** *** Child processes and uploads *)

Lemma total_run_shell cmd : total (run_shell w cmd).
Proof. unfold run_shell. prog_auto. Qed.

Lemma keeps_run_shell cmd : P (Shell cmd) → keeps P (run_shell w cmd).
Proof. intros H. unfold run_shell. prog_auto. Qed.

Lemma no_exit_subprocess_run argv check :
  no_exit (subprocess_run w argv check).
Proof. unfold subprocess_run. prog_auto. Qed.

Lemma keeps_subprocess_run argv check :
  keeps P (subprocess_run w argv check).
Proof. unfold subprocess_run. prog_auto. Qed.

#[local] Hint Resolve total_run_shell keeps_run_shell
  no_exit_subprocess_run keeps_subprocess_run : prog.

Lemma no_exit_upload_rclone file_path remote folder :
  no_exit (upload_rclone w file_path remote folder).
Proof.
  unfold upload_rclone.
  apply no_exit_except_CalledProcessError; prog_auto.
Qed.

Lemma keeps_upload_rclone file_path remote folder :
  keeps P (upload_rclone w file_path remote folder).
Proof.
  unfold upload_rclone.
  apply keeps_except_CalledProcessError; prog_auto.
Qed.

Lemma no_exit_check_output cmd : no_exit (check_output w cmd).
Proof. unfold check_output. prog_auto. Qed.

Lemma keeps_check_output cmd : keeps P (check_output w cmd).
Proof. unfold check_output. prog_auto. Qed.

Lemma upload_gofile_events_ordinary file_path :
  Forall P (upload_gofile_events w file_path).
Proof.
  unfold upload_gofile_events. constructor; [apply ordinary_get|].
  destruct (gofile_servers w file_path) as [|[status [|server ?]]];
    try constructor.
  destruct (String.eqb status "ok"); [|constructor].
  destruct (open_rb w file_path); repeat constructor. apply ordinary_post.
Qed.

#[local] Hint Resolve no_exit_upload_rclone keeps_upload_rclone
  no_exit_check_output keeps_check_output upload_gofile_events_ordinary
  keeps_emit_all : prog.

(** *** Stages 1 to 4 *)

Lemma total_disk_optimization_stage : total (disk_optimization_stage w).
Proof. unfold disk_optimization_stage. prog_auto. Qed.

Lemma keeps_disk_optimization_stage : keeps P (disk_optimization_stage w).
Proof.
  unfold disk_optimization_stage. prog_auto. by apply keeps_ordinary_emit.
Qed.

Lemma total_sync_stage : total (sync_stage w bot).
Proof. unfold sync_stage. prog_auto. Qed.

Lemma total_clean_stage : total clean_stage.
Proof. unfold clean_stage. prog_auto. Qed.

Lemma keeps_clean_stage : keeps P clean_stage.
Proof. unfold clean_stage. prog_auto. Qed.

Lemma total_clean_device_stage : total (clean_device_stage bot).
Proof. unfold clean_device_stage. prog_auto. Qed.

Lemma keeps_clean_device_stage : keeps P (clean_device_stage bot).
Proof. unfold clean_device_stage. prog_auto. Qed.

Lemma total_remove_residual files : total (remove_residual w files).
Proof. induction files; simpl; prog_auto. Qed.

Lemma keeps_remove_residual files : keeps P (remove_residual w files).
Proof. induction files; simpl; prog_auto. Qed.

Lemma total_poll_once edit previous_prog log :
  (∀ cur, total (edit cur)) → total (poll_once edit previous_prog log).
Proof. intros H. unfold poll_once. prog_auto. Qed.

Lemma keeps_poll_once edit previous_prog log :
  (∀ cur, keeps P (edit cur)) → keeps P (poll_once edit previous_prog log).
Proof. intros H. unfold poll_once. prog_auto. Qed.

Lemma total_poll_loop edit previous_prog logs :
  (∀ cur, total (edit cur)) → total (poll_loop edit previous_prog logs).
Proof.
  intros H. revert previous_prog.
  induction logs; intros previous_prog; simpl; prog_auto.
  by apply total_poll_once.
Qed.

Lemma keeps_poll_loop edit previous_prog logs :
  (∀ cur, keeps P (edit cur)) → keeps P (poll_loop edit previous_prog logs).
Proof.
  intros H. revert previous_prog.
  induction logs; intros previous_prog; simpl; prog_auto.
  by apply keeps_poll_once.
Qed.

#[local] Hint Resolve total_remove_residual keeps_remove_residual
  total_poll_loop keeps_poll_loop : prog.

Lemma total_compile_stage : total (compile_stage w bot).
Proof. unfold compile_stage. prog_auto. Qed.

Lemma keeps_compile_stage : keeps P (compile_stage w bot).
Proof. unfold compile_stage. prog_auto. Qed.

(** *** Stage 5 *)

Lemma keeps_log_check log : keeps P (log_check log).
Proof. unfold log_check. prog_auto. Qed.

Lemma keeps_artifacts dev listing : keeps P (artifacts dev listing).
Proof. unfold artifacts. prog_auto. Qed.

Lemma no_exit_artifacts dev listing : no_exit (artifacts dev listing).
Proof. unfold artifacts. prog_auto. Qed.

#[local] Hint Resolve keeps_log_check keeps_artifacts no_exit_artifacts
  : prog.

Lemma keeps_evaluate dev log listing : keeps P (evaluate dev log listing).
Proof. unfold evaluate. prog_auto. Qed.

Lemma exits_failure_path : exits 1 (failure_path w bot).
Proof.
  unfold failure_path. cbv zeta. intros s.
  set (target := if truthy_opt (config bot !! "ERROR_CHAT_ID")
                 then mret (config bot !! "ERROR_CHAT_ID")
                 else chat ← getitem (config bot) "CHAT_ID"; mret (Some chat)).
  assert (total target) as Ht by (subst target; prog_auto).
  destruct (Ht s) as (t1 & s1 & tec & H1).
  rewrite (bind_return _ _ _ _ _ _ H1).
  destruct (total_edit_message build_fail_message None tec s1)
    as (t2 & s2 & [] & H2).
  rewrite (bind_return _ _ _ _ _ _ H2).
  assert (total (when (error_log_exists w)
                   (send_document w bot "out/error.log" tec))) as Hd
    by prog_auto.
  destruct (Hd s2) as (t3 & s3 & [] & H3).
  rewrite (bind_return _ _ _ _ _ _ H3). simpl. eauto.
Qed.

Lemma keeps_failure_path : keeps P (failure_path w bot).
Proof. unfold failure_path. prog_auto. Qed.

Lemma total_copy_images out_dir rom_folder imgs :
  total (copy_images w out_dir rom_folder imgs).
Proof. induction imgs; simpl; prog_auto. Qed.

Lemma keeps_copy_images out_dir rom_folder imgs :
  keeps P (copy_images w out_dir rom_folder imgs).
Proof. induction imgs; simpl; prog_auto. Qed.

#[local] Hint Resolve total_copy_images keeps_copy_images total_no_exit
  : prog.

Lemma no_exit_package_and_upload : no_exit (package_and_upload w bot).
Proof. unfold package_and_upload. prog_auto. Qed.

Lemma keeps_package_and_upload : keeps P (package_and_upload w bot).
Proof. unfold package_and_upload. prog_auto. Qed.

Lemma total_packaging_handler e : total (packaging_handler w bot e).
Proof. unfold packaging_handler. prog_auto. Qed.

Lemma keeps_packaging_handler e : keeps P (packaging_handler w bot e).
Proof. unfold packaging_handler. prog_auto. Qed.

(** *** Exact traces *)

Lemma send_message_eq text s :
  ∃ t sent, send_message w bot text None s = (t, s, Return sent)
            ∧ Forall P t.
Proof.
  pose proof (keeps_send_message text None s) as Hk.
  unfold send_message, target_chat_of in *.
  rewrite bind_unfold, (getitem_eq _ _ _ _ Hchat) in *.
  rewrite bind_unfold in *. simpl in *.
  destruct (telegram w _) as [e|[m|]]; simpl in *; eauto.
Qed.

Lemma edit_message_eq text s :
  edit_message w bot text None None s
  = (edit_events w bot chat s text, s, Return tt).
Proof.
  unfold edit_message, edit_events, target_chat_of, edit_request.
  rewrite bind_unfold. unfold get_message_id. cbv beta iota zeta.
  rewrite bind_unfold, (getitem_eq _ _ _ _ Hchat). simpl.
  destruct (id_truthy s); simpl; [|done].
  rewrite bind_unfold. simpl.
  by destruct (telegram w _) as [e|r].
Qed.

Lemma cmd_sync_not_resync : is_resync (Shell (cmd_sync w)) = false.
Proof. reflexivity. Qed.

Lemma ordinary_cmd_sync : P (Shell (cmd_sync w)).
Proof. apply HP. split; [done|apply cmd_sync_not_resync]. Qed.

#[local] Hint Resolve ordinary_cmd_sync : prog.

Lemma keeps_sync_stage : P (Shell cmd_resync) → keeps P (sync_stage w bot).
Proof. intros H. unfold sync_stage. prog_auto. Qed.

(** The sync stage when the first sync exits with a non-zero status: one
    retry, then the edit of the status message, and the stage returns. *)
Lemma sync_stage_retry s :
  returncode (exec w (Shell (cmd_sync w))) ≠ 0 →
  ∃ t_send sent,
    Forall P t_send
    ∧ sync_stage w bot s
      = (t_send ++ [sync_start_print; Shell (cmd_sync w); sync_retry_print;
                    Shell cmd_resync]
           ++ edit_events w bot chat sent
                (if returncode (exec w (Shell cmd_resync)) =? 0
                 then sync_done_message w device else sync_fail_message),
         sent, Return tt).
Proof.
  intros Hrc%Z.eqb_neq. unfold sync_stage.
  rewrite (bind_pure _ _ _ _ _ (getitem_eq _ _ _ _ Hdevice)).
  destruct (send_message_eq (sync_message w device) s)
    as (t_send & sent & Hsend & Ht).
  exists t_send, sent. split; [done|].
  rewrite (bind_return _ _ _ _ _ _ Hsend). unfold run_shell. seq_prog.
  rewrite Hrc. cbn [negb]. seq_prog.
  by destruct (returncode (exec w (Shell cmd_resync)) =? 0);
    rewrite edit_message_eq.
Qed.

(** The compile stage starts the build child and returns. *)
Lemma compile_stage_popen s :
  ∃ t1 t2 s',
    compile_stage w bot s
    = (t1 ++ Popen (build_cmd w device variant) :: t2, s', Return tt).
Proof.
  unfold compile_stage. cbv zeta.
  destruct (total_remove_residual
              ["out/error.log"; "out/.lock"; "build.log"] s)
    as (t0 & s0 & [] & H0).
  rewrite (bind_return _ _ _ _ _ _ H0).
  rewrite (bind_pure _ _ _ _ _ (getitem_eq _ _ _ _ Hdevice)).
  destruct (send_message_eq (build_msg w (config bot) device) s0)
    as (t_send & sent & Hsend & _).
  rewrite (bind_return _ _ _ _ _ _ Hsend). seq_prog.
  rewrite (bind_pure _ _ _ _ _ (getitem_eq _ _ _ _ Hvariant)). seq_prog.
  match goal with
  | |- context [(poll_loop ?edit ?p ?l ≫= ?f) ?s] =>
      assert (∀ cur, total (edit cur)) as Hedit
        by (intros cur; apply total_edit_message);
      destruct (total_poll_loop edit p l Hedit s) as (t3 & s3 & p3 & H3);
      rewrite (bind_return _ f _ _ _ _ H3)
  end.
  exists (t0 ++ t_send ++ [Print (concat_str
    [BOLD_GREEN; NL; "Setting up build environment and running brunch...";
     RESET])]), (t3 ++ []), s3.
  simpl. by rewrite <-!app_assoc.
Qed.

(** The packaging step with its handler always comes back. *)
Lemma total_packaging :
  total (try_except (package_and_upload w bot) (packaging_handler w bot)).
Proof.
  apply total_try_except;
    [apply no_exit_package_and_upload|apply total_packaging_handler].
Qed.

Lemma keeps_packaging :
  keeps P (try_except (package_and_upload w bot) (packaging_handler w bot)).
Proof.
  apply keeps_try_except;
    [apply keeps_package_and_upload|apply keeps_packaging_handler].
Qed.

(** *** The post-build part *)

Lemma total_keeps {A : Type} (m : prog A) s :
  total m → keeps P m → ∃ t s' a, m s = (t, s', Return a) ∧ Forall P t.
Proof.
  intros Ht Hk. destruct (Ht s) as (t & s' & a & H).
  exists t, s', a. split; [done|]. specialize (Hk s). by rewrite H in Hk.
Qed.

Lemma edit_events_ordinary s text : Forall P (edit_events w bot chat s text).
Proof.
  unfold edit_events. destruct (id_truthy s); [|constructor].
  constructor; [apply ordinary_post|].
  destruct (telegram w _); repeat constructor. apply ordinary_print.
Qed.

Lemma shutdown_stage_on s :
  truthy_opt (config bot !! "POWEROFF") = true →
  shutdown_stage (config bot) s = ([shutdown_print; SHUTDOWN], s, Return tt).
Proof. unfold shutdown_stage. by intros ->. Qed.

Lemma keeps_shutdown_stage CONFIG : P SHUTDOWN → keeps P (shutdown_stage CONFIG).
Proof. intros H. unfold shutdown_stage. prog_auto. Qed.

Lemma keeps_post_build : P SHUTDOWN → keeps P (post_build w bot).
Proof.
  intros H. unfold post_build. prog_auto.
  - apply keeps_evaluate.
  - apply keeps_failure_path.
  - apply keeps_packaging.
  - by apply keeps_shutdown_stage.
Qed.

Lemma evaluate_verdict d s :
  device = VStr d →
  ∃ t, evaluate device (build_log w) (out_dir_listing w) s
       = (t, s, Return (verdict d (build_log w) (out_dir_listing w)))
       ∧ Forall P t.
Proof.
  intros ->.
  destruct (evaluate_eq d (build_log w) (out_dir_listing w) s) as [t Ht].
  exists t. split; [done|].
  pose proof (keeps_evaluate (VStr d) (build_log w) (out_dir_listing w) s)
    as Hk.
  by rewrite Ht in Hk.
Qed.

(** Declared success: packaging runs, whatever becomes of it, and the
    shutdown is the last thing done. *)
Lemma post_build_success d s :
  device = VStr d →
  verdict d (build_log w) (out_dir_listing w) = true →
  truthy_opt (config bot !! "POWEROFF") = true →
  ∃ t s', post_build w bot s = (t ++ [shutdown_print; SHUTDOWN], s', Return tt)
          ∧ Forall P t.
Proof.
  intros Hd Hv Hoff. unfold post_build. cbv zeta.
  rewrite (bind_pure _ _ _ _ _ (getitem_eq _ _ _ _ Hdevice)).
  destruct (evaluate_verdict d s Hd) as (t1 & H1 & Ht1).
  rewrite (bind_return _ _ _ _ _ _ H1), Hv. cbn [negb when]. seq_prog.
  destruct (total_keeps _ s total_packaging keeps_packaging)
    as (t2 & s2 & [] & H2 & Ht2).
  rewrite (bind_return _ _ _ _ _ _ H2), (shutdown_stage_on _ Hoff).
  exists (t1 ++ t2), s2. split; [by rewrite <-app_assoc|by apply Forall_app].
Qed.

(** Declared failure: the failure path ends the process with status 1. *)
Lemma post_build_failure d s :
  device = VStr d →
  verdict d (build_log w) (out_dir_listing w) = false →
  ∃ t s', post_build w bot s = (t, s', SysExit 1) ∧ Forall P t.
Proof.
  intros Hd Hv. unfold post_build. cbv zeta.
  rewrite (bind_pure _ _ _ _ _ (getitem_eq _ _ _ _ Hdevice)).
  destruct (evaluate_verdict d s Hd) as (t1 & H1 & Ht1).
  rewrite (bind_return _ _ _ _ _ _ H1), Hv. cbn [negb when].
  destruct (exits_failure_path s) as (t2 & s2 & H2).
  pose proof (keeps_failure_path s) as Hk. rewrite H2 in Hk.
  rewrite (bind_exit _ _ _ _ _ _ H2).
  exists (t1 ++ t2), s2. split; [done|by apply Forall_app].
Qed.
End stages.

(** ** Validation of the configuration *)

Section validation.
Implicit Types (CONFIG : gmap string value) (keys : list string).

Lemma validate_eq CONFIG keys s :
  validate CONFIG keys s =
  match first_missing CONFIG keys with
  | Some key => ([Print (missing_key_message key)], s, SysExit 1)
  | None => ([], s, Return tt)
  end.
Proof.
  unfold first_missing. induction keys as [|key keys IH]; simpl; [done|].
  by destruct (negb (truthy_opt (CONFIG !! key))).
Qed.

Lemma main_eq args w content s :
  config_file w = Text content →
  main args w s =
  match first_missing (parse_env content) required_keys with
  | Some key => ([Print (missing_key_message key)], s, SysExit 1)
  | None => pipeline args w (parse_env content) s
  end.
Proof.
  intros Hfile. unfold main, load_env. rewrite Hfile, bind_ret.
  rewrite bind_unfold, validate_eq.
  destruct (first_missing (parse_env content) required_keys); [done|].
  by destruct (pipeline args w (parse_env content) s) as [[??]?].
Qed.

Lemma truthy_opt_false o :
  truthy_opt o = false ↔
  o = None ∨ o = Some (VStr "") ∨ o = Some (VBool false).
Proof.
  destruct o as [[[|??]|[]]|]; simpl; split; try done; try tauto;
    intros [?|[?|?]]; done.
Qed.

Lemma first_missing_None CONFIG keys :
  first_missing CONFIG keys = None ↔
  ∀ key, In key keys → ∃ v, CONFIG !! key = Some v ∧ truthy v = true.
Proof.
  unfold first_missing. split.
  - intros H key Hin. pose proof (find_none _ _ H key Hin) as Hk.
    apply negb_false_iff in Hk. destruct (CONFIG !! key); [eauto|done].
  - intros H. destruct (find _ keys) as [key|] eqn:Hf; [|done].
    apply find_some in Hf as [Hin Hk]. destruct (H key Hin) as (v & Hv & Ht).
    rewrite Hv in Hk. simpl in Hk. by rewrite Ht in Hk.
Qed.

Lemma missing_key_message_names key :
  ∃ a b, missing_key_message key = a +:+ key +:+ b.
Proof.
  exists (concat_str [RED; NL; "ERROR: Missing "]),
         (concat_str [" in config file. Exiting..."; RESET; NL]).
  unfold missing_key_message, concat_str. simpl.
  by rewrite append_nil_r.
Qed.
End validation.

Lemma find_first (f : string → bool) keys named :
  find f keys = Some named →
  In named keys ∧ f named = true
  ∧ Forall (λ k, f k = false) (keys_before named keys)
  ∧ ∀ key, In key keys → f key = true →
           named = key ∨ In named (keys_before key keys).
Proof.
  induction keys as [|k keys IH]; simpl; [done|].
  destruct (f k) eqn:Hk.
  - intros [= <-]. split; [by left|]. split; [done|].
    rewrite String.eqb_refl. split; [constructor|].
    intros key _ _. destruct (String.eqb_spec k key); [by left|].
    right. by left.
  - intros Hfind. destruct (IH Hfind) as (Hin & Hf & Hbefore & Hother).
    split; [by right|]. split; [done|]. split.
    + destruct (String.eqb_spec k named); by constructor.
    + intros key [<-|Hin'] Hfk; [congruence|].
      destruct (Hother key Hin' Hfk) as [->|H]; [by left|]. right.
      destruct (String.eqb_spec k key) as [->|]; [congruence|by right].
Qed.

(** C6, as amended.  When a required key is absent from the configuration
    file or has an empty value, the program prints one fatal error and ends
    with exit status 1; that message is its whole trace, so no request is
    sent and no child process is started.  The key the error names is the
    first required key, in the order DEVICE, VARIANT, BOT_TOKEN, CHAT_ID,
    that is absent, empty or set to false: every required key before it is
    set to a true value, and it is the absent or empty key itself or a key
    before that one.  It is the absent or empty key itself exactly when
    every required key before that key is set to a true value. *)
Theorem missing_required_key_is_fatal :
  ∀ args w content s key,
    config_file w = Text content →
    In key required_keys →
    absent_or_empty (parse_env content) key →
    ∃ named,
      In named required_keys
      ∧ (absent_or_empty (parse_env content) named
         ∨ parse_env content !! named = Some (VBool false))
      ∧ Forall (λ k, truthy_opt (parse_env content !! k) = true)
               (keys_before named required_keys)
      ∧ (named = key ∨ In named (keys_before key required_keys))
      ∧ main args w s = ([Print (missing_key_message named)], s, SysExit 1)
      ∧ (∃ a b, missing_key_message named = a +:+ named +:+ b)
      ∧ Forall (λ e, is_network e = false ∧ is_subprocess e = false)
               (trace_of (main args w s))
      ∧ (named = key
         ↔ Forall (λ k, truthy_opt (parse_env content !! k) = true)
                  (keys_before key required_keys)).
Proof.
  intros args w content s key Hfile Hin Hkey.
  assert (truthy_opt (parse_env content !! key) = false) as Hfalse.
  { apply truthy_opt_false. unfold absent_or_empty in Hkey. tauto. }
  destruct (first_missing (parse_env content) required_keys) as [named|]
    eqn:Hfirst.
  - exists named. pose proof Hfirst as Hfind.
    apply find_first in Hfind as (Hnamed & Hrej & Hbefore & Hother).
    apply negb_true_iff in Hrej.
    assert (Forall (λ k, truthy_opt (parse_env content !! k) = true)
              (keys_before named required_keys)) as Hset.
    { eapply Forall_impl; [exact Hbefore|].
      intros k Hk. by apply negb_false_iff in Hk. }
    assert (named = key ∨ In named (keys_before key required_keys)) as Hpos.
    { apply Hother; [done|]. by rewrite Hfalse. }
    split; [done|]. split.
    { apply truthy_opt_false in Hrej. unfold absent_or_empty. tauto. }
    split; [done|]. split; [done|].
    rewrite (main_eq _ _ _ _ Hfile), Hfirst.
    split; [done|]. split; [apply missing_key_message_names|].
    split; [by repeat constructor|]. split.
    + by intros <-.
    + intros Hkeys. destruct Hpos as [|Hin']; [done|].
      pose proof (proj1 (Forall_forall _ _) Hkeys named
                    (proj2 (list_elem_of_In _ _) Hin')) as Hn.
      simpl in Hn. congruence.
  - pose proof (find_none _ _ Hfirst key Hin) as Hk. simpl in Hk.
    by rewrite Hfalse in Hk.
Qed.

Lemma missing_required_key_is_fatal_witness :
  config_file no_chat_world = Text no_chat_config
  ∧ In "CHAT_ID" required_keys
  ∧ absent_or_empty (parse_env no_chat_config) "CHAT_ID"
  ∧ main (example_args true) no_chat_world None
    = ([Print (missing_key_message "CHAT_ID")], None, SysExit 1).
Proof.
  assert (absent_or_empty (parse_env no_chat_config) "CHAT_ID") as Habs
    by (left; vm_compute; reflexivity).
  assert (In "CHAT_ID" required_keys) as Hin by (simpl; tauto).
  assert (Forall (λ k, truthy_opt (parse_env no_chat_config !! k) = true)
            (keys_before "CHAT_ID" required_keys)) as Hset
    by (repeat constructor; vm_compute; reflexivity).
  split; [reflexivity|]. split; [exact Hin|]. split; [exact Habs|].
  destruct (missing_required_key_is_fatal (example_args true) no_chat_world
              no_chat_config None "CHAT_ID" eq_refl Hin Habs)
    as (named & _ & _ & _ & _ & Hmain & _ & _ & Hsame).
  rewrite (proj2 Hsame Hset) in Hmain. exact Hmain.
Defined.

(** C6, as stated, fails: in a configuration file whose only absent or
    empty required key is CHAT_ID and whose DEVICE is set to the word
    false, the fatal error names DEVICE, and CHAT_ID is nowhere in what the
    run prints. *)
Lemma missing_key_as_stated_fails :
  absent_or_empty (parse_env false_device_config) "CHAT_ID"
  ∧ (∀ key, In key required_keys →
            absent_or_empty (parse_env false_device_config) key →
            key = "CHAT_ID")
  ∧ run (example_args false) false_device_world
    = ([Print (missing_key_message "DEVICE")], None, SysExit 1)
  ∧ contains "CHAT_ID" (missing_key_message "DEVICE") = false
  ∧ ¬ missing_key_as_stated.
Proof.
  assert (absent_or_empty (parse_env false_device_config) "CHAT_ID") as Habs
    by (left; vm_compute; reflexivity).
  assert (run (example_args false) false_device_world
          = ([Print (missing_key_message "DEVICE")], None, SysExit 1)) as Hrun
    by (vm_compute; reflexivity).
  split; [exact Habs|]. split.
  { intros key Hin [H|H].
    - simpl in Hin. destruct Hin as [<-|[<-|[<-|[<-|[]]]]];
        vm_compute in H; congruence.
    - simpl in Hin. destruct Hin as [<-|[<-|[<-|[<-|[]]]]];
        vm_compute in H; congruence. }
  split; [exact Hrun|]. split; [vm_compute; reflexivity|].
  intros H.
  destruct (H (example_args false) false_device_world false_device_config
              "CHAT_ID" eq_refl) as (text & code & Hin & Hcontains & _);
    [simpl; tauto|exact Habs|].
  rewrite Hrun in Hin. destruct Hin as [[= <-]|[]].
  vm_compute in Hcontains. discriminate Hcontains.
Qed.

(** ** The polling loop *)

Section polling.
Context (edit : string → prog unit).
Implicit Types (previous_prog : string) (log : file) (logs : list file).

Lemma poll_once_absent previous_prog log s :
  fetch_progress log = None →
  poll_once edit previous_prog log s = ([Sleep 10], s, Return previous_prog).
Proof. intros H. unfold poll_once. rewrite H. by seq_prog. Qed.

Lemma poll_loop_cons previous_prog log logs s :
  poll_loop edit previous_prog (log :: logs) s
  = (poll_once edit previous_prog log
       ≫= λ p, poll_loop edit p logs) s.
Proof. reflexivity. Qed.

Lemma poll_loop_app previous_prog logs1 logs2 s :
  poll_loop edit previous_prog (logs1 ++ logs2) s
  = (poll_loop edit previous_prog logs1
       ≫= λ p, poll_loop edit p logs2) s.
Proof.
  revert previous_prog s.
  induction logs1 as [|log logs1 IH]; intros previous_prog s.
  - simpl. by rewrite bind_ret.
  - simpl. rewrite bind_bind, !bind_unfold.
    destruct (poll_once edit previous_prog log s) as [[t s'] [p|e|c]];
      [|done|done].
    by rewrite IH.
Qed.
End polling.

(** C10.  In the polling loop a poll at which [fetch_progress] returns
    [None] calls no edit and leaves [previous_prog] as it was: the turn only
    sleeps.  A turn does anything else only when [fetch_progress] returns a
    string different from [previous_prog], and then it edits with that
    string and remembers it.  Over the whole loop, a poll that returns
    [None] can be taken out without changing the edits, the final state or
    the outcome. *)
Theorem absent_progress_never_edits :
  ∀ edit previous_prog log s,
    (fetch_progress log = None →
     poll_once edit previous_prog log s = ([Sleep 10], s, Return previous_prog))
    ∧ (poll_once edit previous_prog log s
       = ([Sleep 10], s, Return previous_prog)
       ∨ ∃ cur,
           fetch_progress log = Some cur ∧ cur ≠ previous_prog
           ∧ poll_once edit previous_prog log s
             = ((edit cur;; mret cur) ≫= λ p, emit (Sleep 10);; mret p) s)
    ∧ (fetch_progress log = None →
       ∀ before after,
         without_sleep
           (trace_of (poll_loop edit previous_prog (before ++ log :: after) s))
         = without_sleep
             (trace_of (poll_loop edit previous_prog (before ++ after) s))
         ∧ state_of (poll_loop edit previous_prog (before ++ log :: after) s)
           = state_of (poll_loop edit previous_prog (before ++ after) s)
         ∧ outcome_of (poll_loop edit previous_prog (before ++ log :: after) s)
           = outcome_of (poll_loop edit previous_prog (before ++ after) s)).
Proof.
  intros edit previous_prog log s. split; [apply poll_once_absent|]. split.
  - unfold poll_once. destruct (fetch_progress log) as [cur|] eqn:Hf.
    + destruct (negb (is_empty cur) && negb (String.eqb cur previous_prog))
        eqn:Hc.
      * right. exists cur. split; [done|]. split; [|done].
        apply andb_true_iff in Hc as [_ Hne].
        apply negb_true_iff in Hne. by apply String.eqb_neq.
      * left. by seq_prog.
    + left. by seq_prog.
  - intros Hnone before after. rewrite !poll_loop_app, !bind_unfold.
    destruct (poll_loop edit previous_prog before s) as [[t1 s1] [p|e|c]];
      [|done|done].
    rewrite poll_loop_cons,
      (bind_return _ _ _ _ _ _ (poll_once_absent edit p log s1 Hnone)).
    destruct (poll_loop edit p after s1) as [[t2 s2] o].
    unfold without_sleep, trace_of, state_of, outcome_of. simpl.
    by rewrite !List.filter_app.
Qed.

Lemma absent_progress_never_edits_witness :
  fetch_progress Missing = None
  ∧ poll_once mark_edit "" Missing None = ([Sleep 10], None, Return "").
Proof.
  split; [reflexivity|].
  apply (proj1 (absent_progress_never_edits mark_edit "" Missing None)).
  reflexivity.
Defined.

(** ** The driver *)

Section driver.
Context (args : Args) (w : World) (CONFIG : gmap string value).
Context (device variant token chat : value).
Context (P : event → Prop).
Hypothesis Hdevice : CONFIG !! "DEVICE" = Some device.
Hypothesis Hvariant : CONFIG !! "VARIANT" = Some variant.
Hypothesis Htoken : CONFIG !! "BOT_TOKEN" = Some token.
Hypothesis Hchat : CONFIG !! "CHAT_ID" = Some chat.
Hypothesis HP : ∀ e, ordinary e → P e.

Lemma CIBot_init_eq s : CIBot_init CONFIG s = ([], s, Return (bot_of CONFIG)).
Proof.
  unfold CIBot_init, bot_of.
  rewrite (bind_pure _ _ _ _ _ (getitem_eq _ _ _ _ Htoken)). by rewrite Htoken.
Qed.

(** Everything before the verdict returns, whatever the flags and
    whatever the sync did. *)
Lemma pipeline_front s :
  P (Shell cmd_resync) →
  ∃ t s',
    Forall P t
    ∧ pipeline args w CONFIG s
      = match post_build w (bot_of CONFIG) s' with
        | (t', s'', o) => (t ++ t', s'', o)
        end.
Proof.
  intros Hre. unfold pipeline. rewrite (bind_pure _ _ _ _ _ (CIBot_init_eq s)).
  set (bot := bot_of CONFIG).
  destruct (total_keeps P
              (when (args_disk_optimization args) (disk_optimization_stage w)) s)
    as (t1 & s1 & [] & H1 & K1);
    [apply total_when, total_disk_optimization_stage
    |apply keeps_when, keeps_disk_optimization_stage, HP|].
  rewrite (bind_return _ _ _ _ _ _ H1).
  destruct (total_keeps P (when (args_sync args) (sync_stage w bot)) s1)
    as (t2 & s2 & [] & H2 & K2);
    [apply total_when, (total_sync_stage w bot device chat Hdevice Hchat)
    |apply keeps_when, keeps_sync_stage; [exact HP|exact Hre]|].
  rewrite (bind_return _ _ _ _ _ _ H2).
  destruct (total_keeps P (when (args_clean args) clean_stage) s2)
    as (t3 & s3 & [] & H3 & K3);
    [apply total_when, total_clean_stage
    |apply keeps_when, keeps_clean_stage, HP|].
  rewrite (bind_return _ _ _ _ _ _ H3).
  destruct (total_keeps P
              (when (args_clean_device args) (clean_device_stage bot)) s3)
    as (t4 & s4 & [] & H4 & K4);
    [apply total_when, (total_clean_device_stage bot device Hdevice)
    |apply keeps_when, keeps_clean_device_stage, HP|].
  rewrite (bind_return _ _ _ _ _ _ H4).
  destruct (total_keeps P (compile_stage w bot) s4)
    as (t5 & s5 & [] & H5 & K5);
    [apply (total_compile_stage w bot device variant chat
              Hdevice Hvariant Hchat)
    |apply keeps_compile_stage, HP|].
  rewrite (bind_return _ _ _ _ _ _ H5).
  exists (t1 ++ t2 ++ t3 ++ t4 ++ t5), s5. split.
  - by repeat apply Forall_app_2.
  - destruct (post_build w bot s5) as [[t6 s6] o]. by rewrite <-!app_assoc.
Qed.
End driver.

Section runs.
Context (args : Args) (w : World) (content : string).
Hypothesis Hfile : config_file w = Text content.
Hypothesis Hvalid : first_missing (parse_env content) required_keys = None.

Lemma valid_config_lookup :
  ∃ device variant token chat,
    parse_env content !! "DEVICE" = Some device
    ∧ parse_env content !! "VARIANT" = Some variant
    ∧ parse_env content !! "BOT_TOKEN" = Some token
    ∧ parse_env content !! "CHAT_ID" = Some chat.
Proof.
  pose proof (proj1 (first_missing_None _ _) Hvalid) as H.
  destruct (H "DEVICE") as (device & Hd & _); [simpl; tauto|].
  destruct (H "VARIANT") as (variant & Hv & _); [simpl; tauto|].
  destruct (H "BOT_TOKEN") as (token & Ht & _); [simpl; tauto|].
  destruct (H "CHAT_ID") as (chat & Hc & _); [simpl; tauto|].
  by exists device, variant, token, chat.
Qed.

Lemma run_eq : run args w = pipeline args w (parse_env content) None.
Proof. unfold run. by rewrite (main_eq _ _ _ _ Hfile), Hvalid. Qed.
End runs.

(** C2, as amended.  With the power-off flag set and a valid configuration
    whose device is a string: when the build is declared a success, the run
    returns and the shutdown command is the last thing it does, whether
    packaging went through or raised; when the build is declared a failure,
    the run ends with exit status 1 and issues no shutdown command at all. *)
Theorem shutdown_is_last_after_declared_success :
  ∀ args w content device,
    config_file w = Text content →
    first_missing (parse_env content) required_keys = None →
    parse_env content !! "DEVICE" = Some (VStr device) →
    truthy_opt (parse_env content !! "POWEROFF") = true →
    (∀ s, outcome_of (evaluate (VStr device) (build_log w) (out_dir_listing w) s)
          = Return (verdict device (build_log w) (out_dir_listing w)))
    ∧ (verdict device (build_log w) (out_dir_listing w) = true →
       outcome_of (run args w) = Return tt
       ∧ last (trace_of (run args w)) = Some SHUTDOWN
       ∧ ∃ t, trace_of (run args w) = t ++ [shutdown_print; SHUTDOWN]
              ∧ Forall (λ e, is_system e = false) t)
    ∧ (verdict device (build_log w) (out_dir_listing w) = false →
       outcome_of (run args w) = SysExit 1
       ∧ Forall (λ e, is_system e = false) (trace_of (run args w))
       ∧ ¬ In SHUTDOWN (trace_of (run args w))).
Proof.
  intros args w content device Hfile Hvalid Hdev Hoff.
  destruct (valid_config_lookup content Hvalid)
    as (device' & variant & token & chat & Hdev' & Hvar & Htok & Hchat).
  rewrite Hdev in Hdev'. injection Hdev' as <-.
  set (P := λ e, is_system e = false).
  assert (∀ e, ordinary e → P e) as HP by (by intros e [? _]).
  destruct (pipeline_front args w (parse_env content) (VStr device) variant
              token chat P Hdev Hvar Htok Hchat HP None eq_refl)
    as (t & s' & Ht & Heq).
  rewrite (run_eq args w content Hfile Hvalid), Heq.
  split; [|split].
  - intros s.
    by destruct (evaluate_eq device (build_log w) (out_dir_listing w) s)
      as [t0 ->].
  - intros Hv.
    destruct (post_build_success w (bot_of (parse_env content)) (VStr device)
                chat P Hdev Hchat HP device s' eq_refl Hv Hoff)
      as (t' & s'' & -> & Ht').
    split; [done|]. unfold trace_of. simpl. split.
    + by rewrite !last_app.
    + exists (t ++ t'). split; [by rewrite <-app_assoc|by apply Forall_app].
  - intros Hv.
    destruct (post_build_failure w (bot_of (parse_env content)) (VStr device)
                chat P Hdev Hchat HP device s' eq_refl Hv)
      as (t' & s'' & -> & Ht').
    split; [done|]. unfold trace_of. simpl.
    assert (Forall P (t ++ t')) as Hall by (by apply Forall_app).
    split; [done|]. intros Hin.
    by pose proof (proj1 (Forall_forall _ _) Hall _ (proj2 (list_elem_of_In _ _) Hin)).
Qed.

Lemma shutdown_is_last_after_declared_success_witness :
  config_file good_build_world = Text full_config
  ∧ first_missing (parse_env full_config) required_keys = None
  ∧ parse_env full_config !! "DEVICE" = Some (VStr "a")
  ∧ truthy_opt (parse_env full_config !! "POWEROFF") = true
  ∧ verdict "a" (build_log good_build_world) (out_dir_listing good_build_world)
    = true
  ∧ outcome_of (run (example_args false) good_build_world) = Return tt
  ∧ last (trace_of (run (example_args false) good_build_world))
    = Some SHUTDOWN.
Proof.
  assert (first_missing (parse_env full_config) required_keys = None) as H1
    by (vm_compute; reflexivity).
  assert (parse_env full_config !! "DEVICE" = Some (VStr "a")) as H2
    by (vm_compute; reflexivity).
  assert (truthy_opt (parse_env full_config !! "POWEROFF") = true) as H3
    by (vm_compute; reflexivity).
  assert (verdict "a" (build_log good_build_world)
            (out_dir_listing good_build_world) = true) as H4
    by (vm_compute; reflexivity).
  split; [reflexivity|]. split; [exact H1|]. split; [exact H2|].
  split; [exact H3|]. split; [exact H4|].
  destruct (proj1 (proj2 (shutdown_is_last_after_declared_success
              (example_args false) good_build_world full_config "a"
              eq_refl H1 H2 H3)) H4) as (Ho & Hl & _).
  split; [exact Ho|exact Hl].
Defined.

(** C2, as stated, fails: with the power-off flag set, a build whose log
    lacks the success phrase and that left no artifact ends the run with
    exit status 1 on the failure path, and the shutdown command is never
    issued. *)
Lemma shutdown_as_stated_fails :
  truthy_opt (parse_env full_config !! "POWEROFF") = true
  ∧ outcome_of (run (example_args false) failed_build_world) = SysExit 1
  ∧ ¬ In SHUTDOWN (trace_of (run (example_args false) failed_build_world))
  ∧ ¬ shutdown_as_stated.
Proof.
  split; [vm_compute; reflexivity|]. split; [vm_compute; reflexivity|]. split.
  - vm_compute. intros H. repeat (destruct H as [H|H]; [discriminate|]). done.
  - intros H.
    specialize (H (example_args false) failed_build_world full_config eq_refl).
    assert (last (trace_of (run (example_args false) failed_build_world))
            ≠ Some SHUTDOWN) as Hne by (vm_compute; discriminate).
    apply Hne, H; vm_compute; reflexivity.
Qed.

Lemma target_chat_of_eq bot chat chat_id s :
  config bot !! "CHAT_ID" = Some chat →
  target_chat_of bot chat_id s = ([], s, Return (chosen_chat chat_id chat)).
Proof.
  intros Hchat. unfold target_chat_of, chosen_chat.
  destruct chat_id as [c|]; [destruct (truthy c); [done|]|];
    by apply getitem_eq.
Qed.

Lemma send_message_exact w bot chat text s :
  config bot !! "CHAT_ID" = Some chat →
  ∃ prints,
    send_message w bot text None s
    = (send_request bot chat text :: prints, s,
       Return (sent_id w (send_request bot chat text)))
    ∧ Forall (λ e, is_print e = true) prints.
Proof.
  intros Hchat. unfold send_message, sent_id.
  rewrite (bind_pure _ _ _ _ _ (target_chat_of_eq _ _ None s Hchat)).
  cbv zeta. cbn [chosen_chat]. fold (send_request bot chat text).
  rewrite bind_emit.
  destruct (telegram w _) as [e|[id|]]; eexists; (split; [reflexivity|]);
    by repeat constructor.
Qed.

(** The sync stage when the first sync exits with a non-zero status, event
    by event: the status message, the first sync, the notice, the retry,
    and the edit of the message that was sent. *)
Lemma sync_stage_retry_exact w bot device chat s :
  config bot !! "DEVICE" = Some device →
  config bot !! "CHAT_ID" = Some chat →
  returncode (exec w (Shell (cmd_sync w))) ≠ 0 →
  ∃ prints,
    Forall (λ e, is_print e = true) prints
    ∧ sync_stage w bot s
      = (send_request bot chat (sync_message w device) :: prints
           ++ [sync_start_print; Shell (cmd_sync w); sync_retry_print;
               Shell cmd_resync]
           ++ edit_events w bot chat
                (sent_id w (send_request bot chat (sync_message w device)))
                (if returncode (exec w (Shell cmd_resync)) =? 0
                 then sync_done_message w device else sync_fail_message),
         sent_id w (send_request bot chat (sync_message w device)),
         Return tt).
Proof.
  intros Hdev Hchat Hrc%Z.eqb_neq. unfold sync_stage.
  rewrite (bind_pure _ _ _ _ _ (getitem_eq _ _ _ _ Hdev)).
  destruct (send_message_exact w bot chat (sync_message w device) s Hchat)
    as (prints & Hsend & Hprints).
  exists prints. split; [done|].
  rewrite (bind_return _ _ _ _ _ _ Hsend). unfold run_shell. seq_prog.
  rewrite Hrc. cbn [negb]. seq_prog.
  by destruct (returncode (exec w (Shell cmd_resync)) =? 0);
    rewrite (edit_message_eq w bot chat Hchat).
Qed.



(** * Further properties *)

(** ** Durations *)

(** X1.  [format_duration] splits a non-negative number of seconds into
    hours, minutes below 60 and seconds below 60; from one hour on it prints
    hours and minutes and leaves the seconds out, below one hour it prints
    minutes and seconds. *)
Theorem format_duration_parts :
  ∀ seconds,
    0 ≤ seconds →
    ∃ h m s,
      seconds = 3600 * h + 60 * m + s
      ∧ 0 ≤ h ∧ 0 ≤ m < 60 ∧ 0 ≤ s < 60
      ∧ format_duration seconds
        = if 0 <? h
          then concat_str [str_of_Z h; " hours(s) and "; str_of_Z m;
                           " minutes(s)"]
          else concat_str [str_of_Z m; " minutes(s) and "; str_of_Z s;
                           " seconds(s)"].
Proof.
  intros seconds Hpos.
  exists (seconds / 60 / 60), (seconds / 60 mod 60), (seconds mod 60).
  pose proof (Z.div_mod seconds 60 ltac:(lia)) as H1.
  pose proof (Z.div_mod (seconds / 60) 60 ltac:(lia)) as H2.
  pose proof (Z.mod_pos_bound seconds 60 ltac:(lia)) as H3.
  pose proof (Z.mod_pos_bound (seconds / 60) 60 ltac:(lia)) as H4.
  assert (0 ≤ seconds / 60) as H5 by (apply Z.div_pos; lia).
  assert (0 ≤ seconds / 60 / 60) as H6 by (apply Z.div_pos; lia).
  repeat split; try lia.
Qed.

Lemma format_duration_parts_witness :
  0 ≤ 3725
  ∧ ∃ h m s,
      3725 = 3600 * h + 60 * m + s
      ∧ 0 ≤ h ∧ 0 ≤ m < 60 ∧ 0 ≤ s < 60
      ∧ format_duration 3725
        = if 0 <? h
          then concat_str [str_of_Z h; " hours(s) and "; str_of_Z m;
                           " minutes(s)"]
          else concat_str [str_of_Z m; " minutes(s) and "; str_of_Z s;
                           " seconds(s)"].
Proof.
  assert (0 ≤ 3725) as H by lia.
  split; [exact H|]. exact (format_duration_parts 3725 H).
Defined.

(** ** Lines of a text *)

Lemma readlines_nil s : readlines s = [] ↔ s = "".
Proof.
  destruct s as [|c s]; simpl; [done|]. split; [|done].
  destruct (ascii_eqb c nl); [done|]. by destruct (readlines s).
Qed.

Lemma remove_last_cons c s :
  remove_last (String c s) = if is_empty s then "" else String c (remove_last s).
Proof. by destruct s. Qed.

Lemma contains_cons_false p c s :
  contains p (String c s) = false →
  startswith p (String c s) = false ∧ contains p s = false.
Proof. rewrite contains_unfold. by intros [??]%orb_false_iff. Qed.

(** X2.  The lines that [readlines] and the loop over the file give are the
    text cut after each newline: put together they are the text again, no
    line is empty, a newline is found in a line only as its last character,
    and every line but the last ends with one. *)
Theorem readlines_cuts_after_newlines :
  ∀ s,
    concat_str (readlines s) = s
    ∧ Forall (λ line, line ≠ "" ∧ contains NL (remove_last line) = false)
             (readlines s)
    ∧ ∀ front line, readlines s = front ++ [line] →
                    Forall (λ l, endswith NL l = true) front.
Proof.
  induction s as [|c s (IH1 & IH2 & IH3)].
  - split; [done|]. split; [constructor|].
    intros front line H. by destruct front.
  - simpl. destruct (ascii_eqb c nl) eqn:Hc.
    + apply ascii_eqb_true in Hc as ->. split; [simpl; by rewrite IH1|].
      split; [by constructor|].
      intros [|l front] line H.
      * constructor.
      * injection H as <- H. constructor; [done|]. by apply (IH3 front line).
    + destruct (readlines s) as [|l ls] eqn:Hl.
      * apply readlines_nil in Hl as ->. split; [done|].
        split; [by repeat constructor|].
        intros [|l [|??]] line H; done.
      * apply Forall_cons in IH2 as [[Hne Hnl] IH2].
        split; [simpl in *; by rewrite <-IH1|]. split.
        -- constructor; [|done]. split; [done|].
           rewrite remove_last_cons. apply is_empty_false in Hne.
           rewrite Hne, contains_unfold, Hnl, orb_false_r.
           change (startswith NL (String c (remove_last l)))
             with (ascii_eqb nl c && true).
           unfold ascii_eqb in *. by rewrite Ascii.eqb_sym, Hc.
        -- intros [|l' front] line H.
           ++ constructor.
           ++ injection H as <- H.
              pose proof (IH3 (l :: front) line) as Hf. simpl in Hf.
              rewrite H in Hf. specialize (Hf eq_refl).
              apply Forall_cons in Hf as [Hl' Hf]. constructor; [|done].
              rewrite endswith_unfold, Hl'. apply orb_true_r.
Qed.

(** ** Paths and names *)

Lemma basename_cons c p :
  basename (String c p)
  = if contains "/" (String c p) then basename p else String c p.
Proof. reflexivity. Qed.

Lemma basename_no_slash p : contains "/" p = false → basename p = p.
Proof. destruct p as [|c p]; [done|]. rewrite basename_cons. by intros ->. Qed.

Lemma basename_after_slash a b :
  basename (a +:+ "/" +:+ b) = basename b.
Proof.
  induction a as [|c a IH].
  - rewrite append_nil_l, append_cons, basename_cons, append_nil_l.
    by rewrite (proj2 (contains_spec "/" (String "/" b)))
      by (by exists "", b).
  - rewrite append_cons, basename_cons.
    by rewrite (proj2 (contains_spec "/" (String c (a +:+ "/" +:+ b))))
      by (by exists (String c a), b).
Qed.

(** X3.  [os.path.basename] undoes [os.path.join]: for a file name without
    a slash, the base name of the directory joined with the name is the
    name, so the link that [upload_rclone] asks for is the one of the file
    it copied into the folder, and the ROM name is the last component of
    the working directory. *)
Theorem basename_of_joined_path :
  ∀ directory name,
    contains "/" name = false →
    basename (path_join directory name) = name
    ∧ detect_rom_name (path_join directory name) = name
    ∧ ∀ remote folder,
        rclone_link (path_join directory name) remote folder
        = Run ["rclone"; "link"; concat_str [remote; ":"; folder; "/"; name]].
Proof.
  intros directory name Hname.
  assert (basename (path_join directory name) = name) as H.
  { unfold path_join.
    assert (startswith "/" name = false) as ->.
    { destruct (startswith "/" name) eqn:Hs; [|done].
      apply startswith_spec in Hs as [t ->].
      by rewrite (proj2 (contains_spec "/" ("/" +:+ t)))
        in Hname by (by exists "", t). }
    destruct (is_empty directory) eqn:He.
    - apply is_empty_true in He as ->. by apply basename_no_slash.
    - simpl. destruct (endswith "/" directory) eqn:Hd.
      + apply endswith_spec in Hd as [a ->].
        rewrite append_assoc, basename_after_slash.
        by apply basename_no_slash.
      + rewrite basename_after_slash. by apply basename_no_slash. }
  split; [done|]. split; [done|].
  intros remote folder. unfold rclone_link. by rewrite H.
Qed.

Lemma basename_of_joined_path_witness :
  contains "/" "a.zip" = false
  ∧ basename (path_join "out/target/product/a" "a.zip") = "a.zip".
Proof.
  split; [reflexivity|].
  apply (proj1 (basename_of_joined_path "out/target/product/a" "a.zip"
                  eq_refl)).
Defined.

Section replacing.
Context (old new : string).
Implicit Types (a b : string).

Lemma replace_from_app a b :
  (∀ a1 a2, a = a1 +:+ a2 → a2 ≠ "" → startswith old (a2 +:+ b) = false) →
  replace_from old new O (a +:+ b) = a +:+ replace_from old new O b.
Proof.
  induction a as [|c a IH]; intros H; [done|].
  rewrite !append_cons.
  change (replace_from old new 0 (String c (a +:+ b)))
    with (if startswith old (String c (a +:+ b))
          then new +:+ replace_from old new (Nat.pred (String.length old))
                         (a +:+ b)
          else String c (replace_from old new 0 (a +:+ b))).
  rewrite <-append_cons, (H "" (String c a)) by done.
  rewrite IH; [done|].
  intros a1 a2 -> Ha2. by apply (H (String c a1) a2).
Qed.
End replacing.

#[local] Arguments ascii_eqb : simpl never.

(** An occurrence of .zip cannot start in a text that has none and run over
    into a text that starts with none of the letters z, i and p. *)
Lemma zip_not_across a1 a2 b :
  contains ".zip" (a1 +:+ a2) = false →
  not_at (λ c, ascii_eqb c "z" || ascii_eqb c "i" || ascii_eqb c "p")
         (first_char b) →
  a2 ≠ "" →
  startswith ".zip" (a2 +:+ b) = false.
Proof.
  intros Hno Hb Ha2.
  destruct (startswith ".zip" (a2 +:+ b)) eqn:Hs; [|done]. exfalso.
  assert (∀ c t, b = String c t →
            (ascii_eqb c "z" || ascii_eqb c "i" || ascii_eqb c "p") = true →
            False) as Hb'.
  { intros c t -> Hc. by rewrite (Hb c eq_refl) in Hc. }
  destruct a2 as [|c1 [|c2 [|c3 [|c4 a2]]]]; [done|..];
    simpl in Hs; repeat (apply andb_true_iff in Hs as [? Hs]);
    repeat match goal with
           | H : ascii_eqb _ _ = true |- _ => apply ascii_eqb_true in H
           end; subst.
  - destruct b as [|c b]; [done|]. simpl in Hs.
    apply andb_true_iff in Hs as [Hz _]. apply ascii_eqb_true in Hz as <-.
    by apply (Hb' "z"%char b).
  - destruct b as [|c b]; [done|]. simpl in Hs.
    apply andb_true_iff in Hs as [Hz _]. apply ascii_eqb_true in Hz as <-.
    by apply (Hb' "i"%char b).
  - destruct b as [|c b]; [done|]. simpl in Hs.
    apply andb_true_iff in Hs as [Hz _]. apply ascii_eqb_true in Hz as <-.
    by apply (Hb' "p"%char b).
  - assert (contains ".zip"
              (a1 +:+ String "." (String "z" (String "i" (String "p" a2))))
            = true) as Hyes by (apply contains_spec; by exists a1, a2).
    congruence.
Qed.

(** X4.  The name of the initial-install archive: for a ROM path whose only
    occurrence of .zip is its ending, [replace] puts -initial-install before
    the ending, and the base name handed to [make_archive], with the .zip
    that [make_archive] appends, is that name again: the archive that is
    written is the archive that is uploaded. *)
Theorem initial_install_archive_name :
  ∀ stem,
    contains ".zip" stem = false →
    replace ".zip" "-initial-install.zip" (stem +:+ ".zip")
    = stem +:+ "-initial-install.zip"
    ∧ replace ".zip" ""
        (replace ".zip" "-initial-install.zip" (stem +:+ ".zip"))
      +:+ ".zip"
      = replace ".zip" "-initial-install.zip" (stem +:+ ".zip").
Proof.
  intros stem Hno.
  assert (replace ".zip" "-initial-install.zip" (stem +:+ ".zip")
          = stem +:+ "-initial-install.zip") as H1.
  { unfold replace. rewrite replace_from_app; [done|].
    intros a1 a2 -> Ha2. apply (zip_not_across a1); [done| |done].
    by intros c [= <-]. }
  split; [done|]. rewrite H1. unfold replace.
  rewrite replace_from_app.
  - by rewrite append_assoc.
  - intros a1 a2 -> Ha2. apply (zip_not_across a1); [done| |done].
    by intros c [= <-].
Qed.

Lemma initial_install_archive_name_witness :
  contains ".zip" "out/target/product/a/a" = false
  ∧ replace ".zip" "-initial-install.zip" "out/target/product/a/a.zip"
    = "out/target/product/a/a-initial-install.zip".
Proof.
  split; [reflexivity|].
  apply (proj1 (initial_install_archive_name "out/target/product/a/a"
                  eq_refl)).
Defined.

(** ** The order of the candidates *)

Lemma head_insert_desc (x : string * Z) (l : list (string * Z)) :
  head (insert_desc x l)
  = Some (match head l with
          | Some y => if x.2 <? y.2 then y else x
          | None => x
          end).
Proof. destruct l as [|y l]; simpl; [done|]. by destruct (x.2 <? y.2). Qed.

Lemma head_sort_desc_first (l : list (string * Z)) (e : string * Z) :
  head (sort_desc l) = Some e →
  ∃ l1 l2, l = l1 ++ e :: l2
           ∧ Forall (λ x, x.2 < e.2) l1 ∧ Forall (λ x, x.2 ≤ e.2) l2.
Proof.
  revert e. induction l as [|x l IH]; intros e; simpl; [done|].
  rewrite head_insert_desc. destruct (head (sort_desc l)) as [y|] eqn:Hy.
  - destruct (IH y eq_refl) as (l1 & l2 & -> & H1 & H2).
    destruct (Z.ltb_spec x.2 y.2); intros [= <-].
    + exists (x :: l1), l2. split; [done|]. split; [by constructor|done].
    + exists [], (l1 ++ y :: l2). split; [done|]. split; [constructor|].
      apply Forall_app. split.
      * eapply Forall_impl; [exact H1|]. simpl. intros; lia.
      * constructor; [done|]. eapply Forall_impl; [exact H2|].
        simpl. intros; lia.
  - intros [= <-]. destruct l as [|z l].
    + by exists [], [].
    + simpl in Hy. by rewrite head_insert_desc in Hy.
Qed.

(** X5.  The sort of lines 346 and 349 is stable: the ROM file is the first,
    in the order of the directory listing, of the largest candidates (every
    candidate listed before it is strictly smaller and none after it is
    larger), the candidates being the files without [ota] and
    [target_files] in their names when there is one and all files
    otherwise. *)
Theorem select_rom_takes_first_of_largest :
  ∀ all_files,
    all_files ≠ [] →
    ∃ e l1 l2,
      select_rom all_files = Some e.1
      ∧ sorted_candidates all_files = l1 ++ e :: l2
      ∧ Forall (λ x, x.2 < e.2) l1
      ∧ Forall (λ x, x.2 ≤ e.2) l2.
Proof.
  intros all_files Hne. unfold select_rom, sorted_candidates.
  destruct (List.filter is_main all_files) as [|m ms] eqn:Hm.
  - destruct (head_sort_desc all_files Hne) as (e & He & _).
    destruct (head_sort_desc_first _ _ He) as (l1 & l2 & H & H1 & H2).
    exists e, l1, l2. by rewrite He.
  - destruct (head_sort_desc (m :: ms)) as (e & He & _); [done|].
    destruct (head_sort_desc_first _ _ He) as (l1 & l2 & H & H1 & H2).
    exists e, l1, l2. by rewrite He.
Qed.

Lemma select_rom_takes_first_of_largest_witness :
  tie_listing ≠ []
  ∧ select_rom tie_listing = Some "a-2.zip"
  ∧ ∃ e l1 l2,
      select_rom tie_listing = Some e.1
      ∧ sorted_candidates tie_listing = l1 ++ e :: l2.
Proof.
  assert (tie_listing ≠ []) as H by done.
  split; [exact H|]. split; [reflexivity|].
  destruct (select_rom_takes_first_of_largest tie_listing H)
    as (e & l1 & l2 & H1 & H2 & _).
  exists e, l1, l2. split; [exact H1|exact H2].
Defined.

(** ** What the progress extractor returns *)

Lemma scan_lines_Some lines p :
  scan_lines lines = Some p →
  ∃ line g1 g2,
    In line lines ∧ re_search line = Some (g1, g2)
    ∧ p = g1 +:+ " (" +:+ g2 +:+ ")".
Proof.
  induction lines as [|line lines IH]; simpl; [done|].
  destruct (contains "ninja" line || contains "%" line).
  - destruct (re_search line) as [[g1 g2]|] eqn:Hr.
    + intros [= <-]. exists line, g1, g2. by split; [left|].
    + intros (l & g1 & g2 & Hin & H)%IH. exists l, g1, g2. by split; [right|].
  - intros (l & g1 & g2 & Hin & H)%IH. exists l, g1, g2. by split; [right|].
Qed.

(** X6.  Whatever the log holds, [fetch_progress] returns nothing, the
    sentinel, or a text of the form digits, percent sign, space, digits
    slash digits in parentheses, whose two tokens stand in that order, one
    space apart, in a line of the log. *)
Theorem fetch_progress_result_shape :
  ∀ log_file p,
    fetch_progress log_file = Some p →
    p = SENTINEL
    ∨ ∃ content line d1 d2 d3 before after,
        log_file = Text content
        ∧ In line (readlines content)
        ∧ digits d1 ∧ digits d2 ∧ digits d3
        ∧ line = before +:+ d1 +:+ "% " +:+ d2 +:+ "/" +:+ d3 +:+ after
        ∧ p = d1 +:+ "% (" +:+ d2 +:+ "/" +:+ d3 +:+ ")".
Proof.
  intros [|e|content] p; simpl; [done|by intros [= <-]; left|].
  destruct (scan_lines (rev (readlines content))) as [q|] eqn:Hscan;
    [|by intros [= <-]; left].
  intros [= <-]. right.
  apply scan_lines_Some in Hscan as (line & g1 & g2 & Hin & Hr & ->).
  apply re_search_spec in Hr as (a & b & -> & Hb & _).
  apply match_here_spec in Hb
    as (d1 & d2 & d3 & rest & -> & -> & -> & N1 & N2 & N3 & H1 & H2 & H3 & _).
  exists content, (a +:+ d1 +:+ "% " +:+ d2 +:+ "/" +:+ d3 +:+ rest),
         d1, d2, d3, a, rest.
  split; [done|]. split; [by apply in_rev|]. repeat split; try done.
  by rewrite !append_assoc.
Qed.

Lemma fetch_progress_result_shape_witness :
  fetch_progress (Text ninja_log) = Some "37% (37/100)"
  ∧ ("37% (37/100)" = SENTINEL
     ∨ ∃ content line d1 d2 d3 before after,
         Text ninja_log = Text content
         ∧ In line (readlines content)
         ∧ digits d1 ∧ digits d2 ∧ digits d3
         ∧ line = before +:+ d1 +:+ "% " +:+ d2 +:+ "/" +:+ d3 +:+ after
         ∧ "37% (37/100)" = d1 +:+ "% (" +:+ d2 +:+ "/" +:+ d3 +:+ ")").
Proof.
  assert (fetch_progress (Text ninja_log) = Some "37% (37/100)") as H
    by reflexivity.
  split; [exact H|].
  exact (fetch_progress_result_shape (Text ninja_log) "37% (37/100)" H).
Defined.

Lemma fetch_progress_not_empty log_file p :
  fetch_progress log_file = Some p → p ≠ "".
Proof.
  destruct log_file as [|e|content]; simpl; [done|by intros [= <-]|].
  destruct (scan_lines (rev (readlines content))) as [q|] eqn:Hscan;
    [|by intros [= <-]].
  intros [= <-].
  apply scan_lines_Some in Hscan as (line & g1 & g2 & _ & _ & ->).
  by destruct g1.
Qed.

(** ** The polling loop as a whole *)

Lemma poll_once_returns edit previous_prog log s t s' p :
  poll_once edit previous_prog log s = (t, s', Return p) →
  p = default previous_prog (fetch_progress log).
Proof.
  unfold poll_once. destruct (fetch_progress log) as [cur|] eqn:Hf.
  - pose proof (fetch_progress_not_empty _ _ Hf) as Hne.
    apply is_empty_false in Hne. rewrite Hne. cbn [negb andb].
    destruct (String.eqb_spec cur previous_prog) as [->|Hneq]; cbn [negb].
    + seq_prog. by intros [= _ _ <-].
    + rewrite !bind_bind, !bind_unfold.
      destruct (edit cur s) as [[t1 s1] [[]|e|c]]; [|done|done].
      by intros [= _ _ <-].
  - seq_prog. by intros [= _ _ <-].
Qed.

Lemma poll_loop_returns_latest edit previous_prog logs s t s' p :
  poll_loop edit previous_prog logs s = (t, s', Return p) →
  p = latest previous_prog logs.
Proof.
  revert previous_prog s t s' p.
  induction logs as [|log logs IH]; intros previous_prog s t s' p.
  - by intros [= _ _ <-].
  - rewrite poll_loop_cons, bind_unfold.
    destruct (poll_once edit previous_prog log s) as [[t1 s1] [p1|e|c]] eqn:H1;
      [|done|done].
    apply poll_once_returns in H1 as ->.
    destruct (poll_loop edit _ logs s1) as [[t2 s2] o] eqn:H2.
    intros [= _ _ ->]. by apply IH in H2.
Qed.

(** X7.  The polling loop remembers the latest progress.  Whenever the
    loop comes back, the progress it gives is the most recent one that
    [fetch_progress] returned during the loop (the initial one when every
    poll found the log missing), whatever the edits did; and when every
    edit returns, the loop does come back with it. *)
Theorem poll_loop_remembers_latest :
  ∀ edit previous_prog logs s,
    (∀ t s' p,
       poll_loop edit previous_prog logs s = (t, s', Return p) →
       p = latest previous_prog logs)
    ∧ ((∀ cur, total (edit cur)) →
       ∃ t s',
         poll_loop edit previous_prog logs s
         = (t, s', Return (latest previous_prog logs))).
Proof.
  intros edit previous_prog logs s. split.
  - intros t s' p. apply poll_loop_returns_latest.
  - intros Hedit.
    destruct (total_poll_loop edit previous_prog logs Hedit s)
      as (t & s' & p & H).
    exists t, s'. by rewrite <-(poll_loop_returns_latest _ _ _ _ _ _ _ H).
Qed.

Lemma poll_loop_remembers_latest_witness :
  (∀ cur, total (mark_edit cur))
  ∧ ∃ t s',
      poll_loop mark_edit ""
        [Missing; Text "[ 5% 1/20] CC a.o"; Missing] None
      = (t, s',
         Return (latest "" [Missing; Text "[ 5% 1/20] CC a.o"; Missing])).
Proof.
  assert (∀ cur, total (mark_edit cur)) as H
    by (intros cur s; by exists [Print cur], s, tt).
  split; [exact H|].
  exact (proj2 (poll_loop_remembers_latest mark_edit ""
                  [Missing; Text "[ 5% 1/20] CC a.o"; Missing] None) H).
Defined.

Lemma adjacent_differ_cons a l :
  adjacent_differ (a :: l)
  ↔ match l with b :: _ => a ≠ b | [] => True end ∧ adjacent_differ l.
Proof. destruct l; simpl; tauto. Qed.

(** X8.  The polling loop never reports the same progress twice in a row.
    For an edit that returns and leaves the tracked message as it is, the
    loop returns with the latest progress, and its trace, the pauses apart,
    is made of the edits for a list of texts in which each text differs from
    the one before it, the first from the progress the loop started with.
    The edit of the compile stage, [edit_message], is such an edit. *)
Theorem poll_loop_never_repeats_an_edit :
  (∀ edit ev previous_prog logs s,
     (∀ cur, edit cur s = (ev cur, s, Return tt)) →
     ∃ texts t,
       poll_loop edit previous_prog logs s
       = (t, s, Return (latest previous_prog logs))
       ∧ without_sleep t = without_sleep (concat (map ev texts))
       ∧ adjacent_differ (previous_prog :: texts))
  ∧ (∀ w bot chat CONFIG device s cur,
       config bot !! "CHAT_ID" = Some chat →
       edit_message w bot (prog_msg w CONFIG device cur) None None s
       = (edit_events w bot chat s (prog_msg w CONFIG device cur), s,
          Return tt)).
Proof.
  split; [|intros; by apply edit_message_eq].
  intros edit ev previous_prog logs s Hedit. revert previous_prog.
  induction logs as [|log logs IH]; intros previous_prog.
  - by exists [], [].
  - rewrite poll_loop_cons. unfold poll_once, latest. simpl fold_left.
    fold (latest (default previous_prog (fetch_progress log)) logs).
    destruct (fetch_progress log) as [cur|] eqn:Hf; simpl default.
    + pose proof (fetch_progress_not_empty _ _ Hf) as Hne.
      apply is_empty_false in Hne. rewrite Hne. cbn [negb andb].
      destruct (String.eqb_spec cur previous_prog) as [->|Hneq]; cbn [negb].
      * destruct (IH previous_prog) as (texts & t & Ht & Hw & Hd).
        exists texts, (Sleep 10 :: t). seq_prog. by rewrite Ht.
      * destruct (IH cur) as (texts & t & Ht & Hw & Hd).
        exists (cur :: texts), (ev cur ++ Sleep 10 :: t).
        rewrite !bind_bind, (bind_return _ _ _ _ _ _ (Hedit cur)).
        seq_prog. rewrite Ht. split; [done|]. split.
        -- simpl. unfold without_sleep in *.
           rewrite !List.filter_app. simpl. by rewrite Hw.
        -- apply adjacent_differ_cons. split; [congruence|done].
    + destruct (IH previous_prog) as (texts & t & Ht & Hw & Hd).
      exists texts, (Sleep 10 :: t). seq_prog. by rewrite Ht.
Qed.

Lemma poll_loop_never_repeats_an_edit_witness :
  (∀ cur, mark_edit cur None = ([Print cur], None, Return tt))
  ∧ ∃ texts t,
      poll_loop mark_edit ""
        [Text "[ 5% 1/20] CC a.o"; Text "[ 5% 1/20] CC a.o"] None
      = (t, None,
         Return (latest ""
                   [Text "[ 5% 1/20] CC a.o"; Text "[ 5% 1/20] CC a.o"]))
      ∧ without_sleep t
        = without_sleep (concat (map (λ cur, [Print cur]) texts))
      ∧ adjacent_differ ("" :: texts).
Proof.
  assert (∀ cur, mark_edit cur None = ([Print cur], None, Return tt)) as H
    by done.
  split; [exact H|].
  exact (proj1 poll_loop_never_repeats_an_edit mark_edit
           (λ cur, [Print cur]) ""
           [Text "[ 5% 1/20] CC a.o"; Text "[ 5% 1/20] CC a.o"] None H).
Defined.

(** ** The Android version *)

Lemma after_prefix_spec p s r : after_prefix p s = Some r ↔ s = p +:+ r.
Proof.
  revert s. induction p as [|a p IH]; intros s; simpl.
  - split; [by intros [= ->]|by intros ->].
  - destruct s as [|b s]; [done|].
    destruct (ascii_eqb a b) eqn:Hab.
    + apply ascii_eqb_true in Hab as ->. rewrite IH, append_cons.
      split; [by intros ->|by intros [= ->]].
    + apply ascii_eqb_false in Hab. split; [done|].
      rewrite append_cons. by intros [= -> _].
Qed.

Lemma version_here_Some s d :
  version_here s = Some d ↔
  ∃ rest, s = "android-" +:+ d +:+ rest ∧ digits d
          ∧ not_at is_digit (first_char rest).
Proof.
  unfold version_here, digits. split.
  - destruct (after_prefix "android-" s) as [r|] eqn:Hr; [|done].
    apply after_prefix_spec in Hr as ->. simpl.
    destruct (span_digits r) as [d' rest] eqn:Hd.
    apply span_digits_spec in Hd as (-> & Hd & Hrest).
    destruct (is_empty d') eqn:He; [done|]. intros [= <-].
    apply is_empty_false in He. by exists rest.
  - intros (rest & -> & [Hne Hd] & Hrest).
    rewrite (proj2 (after_prefix_spec "android-" _ (d +:+ rest))) by done.
    simpl. rewrite (span_digits_app d rest) by done.
    apply is_empty_false in Hne. by rewrite Hne.
Qed.

Lemma version_here_None s :
  version_here s = None ↔
  ∀ c r, s = "android-" +:+ String c r → is_digit c = false.
Proof.
  unfold version_here. split.
  - intros H c r ->.
    rewrite (proj2 (after_prefix_spec "android-" _ (String c r))) in H by done.
    simpl in H. destruct (is_digit c) eqn:Hc; [|done].
    by destruct (span_digits r).
  - intros H. destruct (after_prefix "android-" s) as [r|] eqn:Hr; [|done].
    apply after_prefix_spec in Hr as ->. simpl.
    destruct r as [|c r]; [done|]. simpl. by rewrite (H c r eq_refl).
Qed.

Lemma search_version_unfold s :
  search_version s =
  match version_here s with
  | Some d => Some d
  | None => match s with "" => None | String _ s' => search_version s' end
  end.
Proof. by destruct s. Qed.

(** X9.  The detection of the Android version: without the manifest the
    version is [Unknown]; with it, the version is [Unknown] exactly when the
    text nowhere has a digit right after [android-], and else it is the
    longest run of digits that follows the leftmost [android-] that a digit
    follows. *)
Theorem android_version_is_first_marked_number :
  detect_android_version Missing = Return "Unknown"
  ∧ (∀ content,
       search_version content = None ↔
       ∀ a c r, content = a +:+ "android-" +:+ String c r → is_digit c = false)
  ∧ (∀ content d,
       search_version content = Some d ↔
       ∃ a rest,
         content = a +:+ "android-" +:+ d +:+ rest
         ∧ digits d ∧ not_at is_digit (first_char rest)
         ∧ ∀ a1 a2 c r,
             a = a1 +:+ a2 → a2 ≠ "" →
             a2 +:+ "android-" +:+ d +:+ rest
             = "android-" +:+ String c r →
             is_digit c = false)
  ∧ (∀ content d,
       search_version content = Some d →
       detect_android_version (Text content) = Return d).
Proof.
  split; [done|]. split; [|split].
  - induction content as [|x content IH]; rewrite search_version_unfold.
    + split; [|done]. intros _ [|??] c r H; done.
    + destruct (version_here (String x content)) as [d|] eqn:Hv.
      * split; [done|]. intros H. exfalso.
        apply version_here_Some in Hv as (rest & Hs & [Hne Hd] & _).
        destruct d as [|c d]; [done|]. simpl in Hd.
        apply andb_true_iff in Hd as [Hc _].
        rewrite (H "" c (d +:+ rest)) in Hc; [done|]. by rewrite Hs.
      * rewrite IH. split.
        -- intros H [|y a] c r Heq.
           ++ rewrite append_nil_l in Heq.
              by apply (proj1 (version_here_None _) Hv c r).
           ++ rewrite append_cons in Heq. injection Heq as -> ->.
              by apply (H a c r).
        -- intros H a c r ->. by apply (H (String x a) c r).
  - intros content d. split.
    + revert d. induction content as [|x content IH]; intros d;
        rewrite search_version_unfold.
      * destruct (version_here "") eqn:Hv; [|done]. intros [= ->].
        apply version_here_Some in Hv as (rest & Hs & Hd & Hr).
        exists "", rest. split; [done|]. split; [done|]. split; [done|].
        intros [|??] [|??]; done.
      * destruct (version_here (String x content)) as [d'|] eqn:Hv.
        -- intros [= ->].
           apply version_here_Some in Hv as (rest & Hs & Hd & Hr).
           exists "", rest. split; [done|]. split; [done|]. split; [done|].
           intros [|??] [|??]; done.
        -- intros (a & rest & -> & Hd & Hr & Hleft)%IH.
           exists (String x a), rest. split; [done|]. split; [done|].
           split; [done|]. intros [|y a1] a2 c r Ha Ha2 Heq.
           ++ rewrite append_nil_l in Ha. subst a2.
              apply (proj1 (version_here_None _) Hv c r).
              by rewrite <-Heq.
           ++ rewrite append_cons in Ha. injection Ha as <- ->.
              by apply (Hleft a1 a2 c r).
    + intros (a & rest & -> & Hd & Hr & Hleft).
      induction a as [|x a IH].
      * rewrite append_nil_l, search_version_unfold.
        by rewrite (proj2 (version_here_Some _ d)) by (by exists rest).
      * rewrite append_cons, search_version_unfold.
        rewrite (proj2 (version_here_None _)).
        -- apply IH. intros a1 a2 c r -> Ha2.
           by apply (Hleft (String x a1) a2 c r).
        -- intros c r Heq. by apply (Hleft "" (String x a) c r).
  - intros content d H. simpl. by rewrite H.
Qed.

Lemma android_version_is_first_marked_number_witness :
  search_version manifest_text = Some "14"
  ∧ detect_android_version (Text manifest_text) = Return "14".
Proof.
  assert (search_version manifest_text = Some "14") as H by reflexivity.
  split; [exact H|].
  exact (proj2 (proj2 (proj2 android_version_is_first_marked_number))
           manifest_text "14" H).
Defined.

(** ** Flags and stored values *)

Lemma lower_empty s : lower s = "" ↔ s = "".
Proof. by destruct s. Qed.

(** X10.  How a value switches a flag on: after the conversion of lines
    52-55 a value is true for the program exactly when its text is not empty
    and is not the word false in any mix of upper and lower case; so any
    other text, a zero or a no included, sets [POWEROFF] or
    [OFFICIAL_FLAG]. *)
Theorem flag_is_on_unless_empty_or_false :
  ∀ v, truthy (coerce v) = true ↔ v ≠ "" ∧ lower v ≠ "false".
Proof.
  intros v. unfold coerce.
  destruct (String.eqb_spec (lower v) "true") as [Ht|Ht].
  - simpl. split; [|done]. intros _. split.
    + intros ->. done.
    + by rewrite Ht.
  - destruct (String.eqb_spec (lower v) "false") as [Hf|Hf]; simpl.
    + split; [done|]. by intros [_ ?].
    + rewrite negb_true_iff, is_empty_false. tauto.
Qed.

(** ** The loaded configuration *)

Lemma all_chars_app f s t :
  all_chars f (s +:+ t) = all_chars f s && all_chars f t.
Proof.
  induction s as [|c s IH]; simpl; [done|]. by rewrite IH, andb_assoc.
Qed.

Lemma all_chars_stripped f g s m :
  stripped_of g s m → all_chars f s = true → all_chars f m = true.
Proof.
  intros (l & r & -> & _). rewrite !all_chars_app.
  by intros [_ [? _]%andb_true_iff]%andb_true_iff.
Qed.

Lemma coerce_value_ok s :
  not_at (ascii_eqb sq) (first_char s) → not_at (ascii_eqb sq) (last_char s) →
  value_ok (coerce s).
Proof.
  intros Hf Hl. unfold coerce.
  destruct (String.eqb_spec (lower s) "true"); [done|].
  destruct (String.eqb_spec (lower s) "false"); done.
Qed.

Lemma load_env_line_keeps_ok config line :
  map_Forall (λ key v, key_ok key ∧ value_ok v) config →
  map_Forall (λ key v, key_ok key ∧ value_ok v) (load_env_line config line).
Proof.
  intros Hc. unfold load_env_line.
  destruct (startswith "#" (strip line) || is_empty (strip line)); [done|].
  destruct (split_first "=" line) as [[key v]|] eqn:Hs; [|done].
  apply split_first_spec in Hs as [-> Hkey].
  apply map_Forall_insert_2; [|done]. split.
  - destruct (strip_by_spec is_space key) as (l & r & Hk & _ & _ & Hf & Hl).
    split; [done|]. split; [done|].
    apply (all_chars_stripped _ is_space key); [apply strip_by_spec|done].
  - unfold clean_value, strip_char.
    destruct (strip_by_spec (ascii_eqb sq)
                (strip_by (ascii_eqb dq) (strip v)))
      as (l & r & _ & _ & _ & Hf & Hl).
    by apply coerce_value_ok.
Qed.

(** X11.  What [load_env] stores, whatever the file holds: every key is
    trimmed of white space and has no equals sign in it; every value is a
    boolean or a string that is not one of the words true and false in any
    case and has no single quote at either end. *)
Theorem load_env_stores_clean_entries :
  ∀ content key v,
    parse_env content !! key = Some v → key_ok key ∧ value_ok v.
Proof.
  intros content. unfold parse_env.
  assert (∀ lines config,
            map_Forall (λ key v, key_ok key ∧ value_ok v) config →
            map_Forall (λ key v, key_ok key ∧ value_ok v)
              (fold_left load_env_line lines config)) as H.
  { induction lines as [|line lines IH]; intros config Hc; [done|].
    simpl. by apply IH, load_env_line_keeps_ok. }
  intros key v. apply (H (readlines content) ∅). apply map_Forall_empty.
Qed.

Lemma load_env_stores_clean_entries_witness :
  parse_env full_config !! "POWEROFF" = Some (VBool true)
  ∧ key_ok "POWEROFF" ∧ value_ok (VBool true).
Proof.
  assert (parse_env full_config !! "POWEROFF" = Some (VBool true)) as H
    by (vm_compute; reflexivity).
  split; [exact H|].
  exact (load_env_stores_clean_entries full_config "POWEROFF" (VBool true) H).
Defined.

Lemma readlines_app c d :
  c = "" ∨ endswith NL c = true →
  readlines (c +:+ d) = readlines c ++ readlines d.
Proof.
  induction c as [|a c IH]; [done|]. intros [?|Hc]; [done|].
  rewrite append_cons. simpl readlines.
  assert (c = "" ∨ endswith NL c = true) as Hc'.
  { destruct c as [|b c]; [by left|right].
    rewrite endswith_unfold in Hc. apply orb_true_iff in Hc as [Hc|Hc]; [|done].
    by apply String.eqb_eq in Hc. }
  rewrite (IH Hc'). destruct (ascii_eqb a nl) eqn:Ha; [done|].
  destruct c as [|b c].
  - rewrite endswith_unfold in Hc. apply orb_true_iff in Hc as [Hc|Hc]; [|done].
    apply String.eqb_eq in Hc. injection Hc as ->.
    by rewrite (proj2 (ascii_eqb_true nl nl)) in Ha.
  - destruct (readlines (String b c)) as [|l ls] eqn:Hl; [|done].
    by apply readlines_nil in Hl.
Qed.

Lemma readlines_single line :
  line ≠ "" → contains NL (remove_last line) = false → readlines line = [line].
Proof.
  induction line as [|c line IH]; [done|]. intros _.
  rewrite remove_last_cons. simpl readlines. destruct line as [|b line].
  - by destruct (ascii_eqb c nl).
  - cbn [is_empty]. intros [Hs Hc]%contains_cons_false.
    assert (ascii_eqb c nl = false) as ->.
    { change (startswith NL (String c (remove_last (String b line))))
        with (ascii_eqb nl c && true) in Hs.
      rewrite andb_true_r in Hs. unfold ascii_eqb in *.
      by rewrite Ascii.eqb_sym. }
    by rewrite (IH ltac:(done) Hc).
Qed.

(** X12.  A later line overrides the earlier ones.  When a text that is
    empty or ends with a newline is followed by more text, [load_env] on
    the whole is the loop over the added lines started from the mapping of
    the first text; so one added entry line sets its key to its value,
    whatever was stored for that key before, and leaves the other keys as
    they were. *)
Theorem load_env_later_line_overrides :
  (∀ content more,
     content = "" ∨ endswith NL content = true →
     parse_env (content +:+ more)
     = fold_left load_env_line (readlines more) (parse_env content))
  ∧ (∀ content line key v,
       content = "" ∨ endswith NL content = true →
       line ≠ "" → contains NL (remove_last line) = false →
       is_entry line = true →
       split_first "=" line = Some (key, v) →
       parse_env (content +:+ line)
       = <[strip key := coerce (clean_value v)]> (parse_env content)
       ∧ parse_env (content +:+ line) !! strip key
         = Some (coerce (clean_value v))
       ∧ ∀ other, other ≠ strip key →
                  parse_env (content +:+ line) !! other
                  = parse_env content !! other).
Proof.
  assert (∀ content more,
            content = "" ∨ endswith NL content = true →
            parse_env (content +:+ more)
            = fold_left load_env_line (readlines more) (parse_env content))
    as H.
  { intros content more Hc. unfold parse_env.
    by rewrite (readlines_app _ _ Hc), fold_left_app. }
  split; [exact H|].
  intros content line key v Hc Hne Hnl Hentry Hsplit.
  rewrite (H _ _ Hc), (readlines_single _ Hne Hnl). simpl.
  rewrite (load_env_line_entry _ _ _ _ Hentry Hsplit).
  split; [done|]. split; [apply lookup_insert_eq|].
  intros other Hother. by apply lookup_insert_ne.
Qed.

Lemma load_env_later_line_overrides_witness :
  (full_config = "" ∨ endswith NL full_config = true)
  ∧ "DEVICE=b" ≠ "" ∧ contains NL (remove_last "DEVICE=b") = false
  ∧ is_entry "DEVICE=b" = true
  ∧ split_first "=" "DEVICE=b" = Some ("DEVICE", "b")
  ∧ parse_env (full_config +:+ "DEVICE=b") !! strip "DEVICE"
    = Some (coerce (clean_value "b")).
Proof.
  assert (full_config = "" ∨ endswith NL full_config = true) as H1
    by (by right).
  assert ("DEVICE=b" ≠ "") as H2 by done.
  split; [exact H1|]. split; [exact H2|]. split; [reflexivity|].
  split; [reflexivity|]. split; [reflexivity|].
  exact (proj1 (proj2 (proj2 load_env_later_line_overrides full_config
                         "DEVICE=b" "DEVICE" "b" H1 H2 eq_refl eq_refl
                         eq_refl))).
Defined.

(** ** The run as a whole *)

Lemma shutdown_stage_eq CONFIG s :
  shutdown_stage CONFIG s = (shutdown_events CONFIG, s, Return tt).
Proof.
  unfold shutdown_stage, shutdown_events.
  by destruct (truthy_opt (CONFIG !! "POWEROFF")).
Qed.

(** X13.  Nothing but a message on the terminal happens before the
    configuration is accepted: a run that does anything else (a request, a
    child process, a file removed, a pause) has read its configuration file
    and found all four required keys set to a true value. *)
Theorem effects_need_valid_configuration :
  ∀ args w s,
    existsb (λ e, negb (is_print e)) (trace_of (main args w s)) = true →
    ∃ content, config_file w = Text content ∧ valid (parse_env content).
Proof.
  intros args w s Hex.
  apply existsb_exists in Hex as (e & Hin & He).
  destruct (config_file w) as [|err|content] eqn:Hfile.
  - unfold main, load_env in Hin. rewrite Hfile in Hin.
    destruct Hin as [<-|[]]. done.
  - unfold main, load_env in Hin. by rewrite Hfile in Hin.
  - exists content. split; [done|]. rewrite (main_eq _ _ _ _ Hfile) in Hin.
    destruct (first_missing (parse_env content) required_keys) as [key|]
      eqn:Hfirst; [|exact (proj1 (first_missing_None _ _) Hfirst)].
    destruct Hin as [<-|[]]. done.
Qed.

Lemma effects_need_valid_configuration_witness :
  existsb (λ e, negb (is_print e))
    (trace_of (main (example_args false) good_build_world None)) = true
  ∧ ∃ content, config_file good_build_world = Text content
               ∧ valid (parse_env content).
Proof.
  assert (existsb (λ e, negb (is_print e))
            (trace_of (main (example_args false) good_build_world None))
          = true) as H by (vm_compute; reflexivity).
  split; [exact H|].
  exact (effects_need_valid_configuration (example_args false)
           good_build_world None H).
Defined.

Lemma post_build_eq w bot d chat P s :
  config bot !! "DEVICE" = Some (VStr d) →
  config bot !! "CHAT_ID" = Some chat →
  (∀ e, ordinary e → P e) →
  ∃ t s',
    Forall P t
    ∧ post_build w bot s
      = (t ++ (if verdict d (build_log w) (out_dir_listing w)
               then shutdown_events (config bot) else []),
         s',
         if verdict d (build_log w) (out_dir_listing w)
         then Return tt else SysExit 1).
Proof.
  intros Hdev Hchat HP.
  destruct (verdict d (build_log w) (out_dir_listing w)) eqn:Hv.
  - unfold post_build. cbv zeta.
    rewrite (bind_pure _ _ _ _ _ (getitem_eq _ _ _ _ Hdev)).
    destruct (evaluate_verdict w bot (VStr d) P Hdev HP d s eq_refl)
      as (t1 & H1 & Ht1).
    rewrite (bind_return _ _ _ _ _ _ H1), Hv. cbn [negb when]. seq_prog.
    destruct (total_keeps P _ s (total_packaging w bot chat Hchat)
                (keeps_packaging w bot P HP))
      as (t2 & s2 & [] & H2 & Ht2).
    rewrite (bind_return _ _ _ _ _ _ H2), shutdown_stage_eq.
    exists (t1 ++ t2), s2. split; [by apply Forall_app|].
    by rewrite <-app_assoc.
  - destruct (post_build_failure w bot (VStr d) chat P Hdev Hchat HP d s
                eq_refl Hv) as (t & s' & -> & Ht).
    exists t, s'. by rewrite app_nil_r.
Qed.

(** X14.  The exit status tells the verdict, and the machine is shut down
    exactly after a declared success with the power-off flag on.  For a
    valid configuration whose device is a string, the run returns when
    the build is declared a success and ends with exit status 1 when it is
    not, and no exception of the client, of the uploads or of the packaging
    step gets out of it; the shutdown command is issued if and
    only if the build is declared a success and the flag is set; and no
    other command is ever given to [os.system]. *)
Theorem exit_status_and_shutdown :
  ∀ args w content device,
    config_file w = Text content →
    first_missing (parse_env content) required_keys = None →
    parse_env content !! "DEVICE" = Some (VStr device) →
    outcome_of (run args w)
    = (if verdict device (build_log w) (out_dir_listing w)
       then Return tt else SysExit 1)
    ∧ (In SHUTDOWN (trace_of (run args w))
       ↔ verdict device (build_log w) (out_dir_listing w) = true
         ∧ truthy_opt (parse_env content !! "POWEROFF") = true)
    ∧ (∀ e, In e (trace_of (run args w)) → is_system e = true → e = SHUTDOWN).
Proof.
  intros args w content device Hfile Hvalid Hdev.
  destruct (valid_config_lookup content Hvalid)
    as (device' & variant & token & chat & Hdev' & Hvar & Htok & Hchat).
  rewrite Hdev in Hdev'. injection Hdev' as <-.
  set (P := λ e, is_system e = false).
  assert (∀ e, ordinary e → P e) as HP by (by intros e [? _]).
  destruct (pipeline_front args w (parse_env content) (VStr device) variant
              token chat P Hdev Hvar Htok Hchat HP None eq_refl)
    as (t & s' & Ht & Heq).
  rewrite (run_eq args w content Hfile Hvalid), Heq.
  destruct (post_build_eq w (bot_of (parse_env content)) device chat P s'
              Hdev Hchat HP) as (t' & s'' & Ht' & ->).
  unfold outcome_of, trace_of. cbn [fst snd].
  change (config (bot_of (parse_env content))) with (parse_env content).
  assert (∀ e, In e (t ++ t') → is_system e = false) as Hquiet.
  { intros e Hin. assert (Forall P (t ++ t')) as Hall by (by apply Forall_app).
    exact (proj1 (Forall_forall _ _) Hall e
             (proj2 (list_elem_of_In _ _) Hin)). }
  split; [done|]. rewrite app_assoc. split; [split|].
  - intros [Hin|Hin]%in_app_or; [by apply Hquiet in Hin|].
    destruct (verdict device (build_log w) (out_dir_listing w)); [|done].
    unfold shutdown_events in Hin.
    by destruct (truthy_opt (parse_env content !! "POWEROFF")).
  - intros [-> Hoff]. apply in_or_app. right.
    unfold shutdown_events. rewrite Hoff. simpl. tauto.
  - intros e [Hin|Hin]%in_app_or He;
      [apply Hquiet in Hin; congruence|].
    destruct (verdict device (build_log w) (out_dir_listing w)); [|done].
    unfold shutdown_events in Hin.
    destruct (truthy_opt (parse_env content !! "POWEROFF")); [|done].
    destruct Hin as [<-|[<-|[]]]; done.
Qed.

Lemma exit_status_and_shutdown_witness :
  config_file failed_build_world = Text full_config
  ∧ first_missing (parse_env full_config) required_keys = None
  ∧ parse_env full_config !! "DEVICE" = Some (VStr "a")
  ∧ outcome_of (run (example_args false) failed_build_world) = SysExit 1.
Proof.
  assert (first_missing (parse_env full_config) required_keys = None) as H1
    by (vm_compute; reflexivity).
  assert (parse_env full_config !! "DEVICE" = Some (VStr "a")) as H2
    by (vm_compute; reflexivity).
  split; [reflexivity|]. split; [exact H1|]. split; [exact H2|].
  exact (proj1 (exit_status_and_shutdown (example_args false)
                  failed_build_world full_config "a" eq_refl H1 H2)).
Defined.

(** ** The client *)

Lemma target_chat_of_missing bot chat_id s :
  config bot !! "CHAT_ID" = None → truthy_opt chat_id = false →
  target_chat_of bot chat_id s = ([], s, Raise (KeyError "CHAT_ID")).
Proof.
  intros Hchat Hno. unfold target_chat_of, getitem. rewrite Hchat.
  destruct chat_id as [c|]; [|done]. simpl in Hno. by rewrite Hno.
Qed.

Lemma send_message_trace w bot chat text chat_id s :
  config bot !! "CHAT_ID" = Some chat →
  ∃ t sent,
    send_message w bot text chat_id s
    = (send_request bot (chosen_chat chat_id chat) text :: t, s, Return sent)
    ∧ Forall (λ e, is_print e = true) t
    ∧ ∀ id, sent = Some id
            ↔ telegram w (send_request bot (chosen_chat chat_id chat) text)
              = Replies (Some id).
Proof.
  intros Hchat. unfold send_message.
  rewrite (bind_pure _ _ _ _ _ (target_chat_of_eq _ _ chat_id s Hchat)).
  cbv zeta. fold (send_request bot (chosen_chat chat_id chat) text).
  rewrite bind_emit.
  destruct (telegram w _) as [e|[id|]].
  - eexists _, None. split; [reflexivity|].
    split; [by repeat constructor|]. by split.
  - exists [], (Some id). split; [done|]. split; [constructor|].
    intros id'. split; congruence.
  - exists [], None. split; [done|]. split; [constructor|]. by split.
Qed.

Lemma edit_message_trace w bot chat text chat_id s :
  config bot !! "CHAT_ID" = Some chat →
  edit_message w bot text None chat_id s
  = (edit_events w bot (chosen_chat chat_id chat) s text, s, Return tt).
Proof.
  intros Hchat. unfold edit_message, edit_events, edit_request.
  rewrite bind_unfold. unfold get_message_id. cbv beta iota zeta.
  rewrite (bind_pure _ _ _ _ _ (target_chat_of_eq _ _ chat_id s Hchat)).
  cbn [id_truthy]. destruct (id_truthy s); cbn [negb app]; [|done].
  rewrite bind_emit.
  by destruct (telegram w _) as [e|r].
Qed.

Lemma send_document_trace w bot chat file_path chat_id s :
  config bot !! "CHAT_ID" = Some chat →
  send_document w bot file_path chat_id s
  = (document_events w bot (chosen_chat chat_id chat) file_path, s,
     Return tt).
Proof.
  intros Hchat. unfold send_document, document_events, document_request.
  rewrite (bind_pure _ _ _ _ _ (target_chat_of_eq _ _ chat_id s Hchat)).
  cbv zeta. destruct (open_rb w file_path) as [e|[]]; [done|].
  rewrite bind_emit.
  by destruct (telegram w _) as [e|r].
Qed.

(** X15.  The client never raises and never touches the tracked message:
    with a chat configured, each of its four methods returns and leaves
    [bot.message_id] as it was.  [send_message] and [pin_message] post one
    request, to the chat given when that is true and to the configured chat
    otherwise, and besides it only print; [send_message] returns an
    identifier exactly when the reply carries one; [edit_message] posts one
    request for the identifier given or else the tracked one, and nothing
    at all when neither is a true value; [send_document] posts one request
    when the file opens, and when it does not it posts nothing and only
    prints the error. *)
Theorem client_calls_return :
  ∀ w bot chat text file_path message_id chat_id s,
    config bot !! "CHAT_ID" = Some chat →
    (∃ t sent,
       send_message w bot text chat_id s
       = (send_request bot (chosen_chat chat_id chat) text :: t, s,
          Return sent)
       ∧ Forall (λ e, is_print e = true) t
       ∧ ∀ id, sent = Some id
               ↔ telegram w (send_request bot (chosen_chat chat_id chat) text)
                 = Replies (Some id))
    ∧ (∃ t,
         edit_message w bot text message_id chat_id s = (t, s, Return tt)
         ∧ if id_truthy message_id || id_truthy s
           then ∃ t',
                  t = edit_request bot (chosen_chat chat_id chat)
                        (if id_truthy message_id then message_id else s) text
                      :: t'
                  ∧ Forall (λ e, is_print e = true) t'
           else t = [])
    ∧ match open_rb w file_path with
      | Fails e =>
          send_document w bot file_path chat_id s
          = ([Print (concat_str [RED; "Failed to upload file: "; e; RESET])],
             s, Return tt)
      | Replies _ =>
          ∃ t,
            send_document w bot file_path chat_id s
            = (document_request bot (chosen_chat chat_id chat) file_path :: t,
               s, Return tt)
            ∧ Forall (λ e, is_print e = true) t
      end
    ∧ (∃ t,
         pin_message w bot message_id chat_id s
         = (pin_request bot (chosen_chat chat_id chat) message_id :: t, s,
            Return tt)
         ∧ Forall (λ e, is_print e = true) t).
Proof.
  intros w bot chat text file_path message_id chat_id s Hchat.
  split; [by apply send_message_trace|]. split; [|split].
  - unfold edit_message, edit_request.
    rewrite bind_unfold. unfold get_message_id. cbv beta iota zeta.
    rewrite (bind_pure _ _ _ _ _ (target_chat_of_eq _ _ chat_id s Hchat)).
    destruct (id_truthy message_id) eqn:Hm; cbn [orb].
    + rewrite Hm. cbn [negb]. rewrite bind_emit.
      destruct (telegram w _) as [e|r]; eexists; (split; [reflexivity|]);
        eexists; (split; [reflexivity|]); by repeat constructor.
    + destruct (id_truthy s) eqn:Hs; cbn [negb]; [|by exists []].
      rewrite bind_emit.
      destruct (telegram w _) as [e|r]; eexists; (split; [reflexivity|]);
        eexists; (split; [reflexivity|]); by repeat constructor.
  - rewrite (send_document_trace _ _ _ _ _ _ Hchat). unfold document_events.
    destruct (open_rb w file_path) as [e|[]]; [done|].
    destruct (telegram w _) as [e|r]; eexists; (split; [reflexivity|]);
      by repeat constructor.
  - unfold pin_message, pin_request.
    rewrite (bind_pure _ _ _ _ _ (target_chat_of_eq _ _ chat_id s Hchat)).
    cbv zeta. rewrite bind_emit.
    destruct (telegram w _) as [e|r]; eexists; (split; [reflexivity|]);
      by repeat constructor.
Qed.

Lemma client_calls_return_witness :
  config (bot_of (parse_env full_config)) !! "CHAT_ID" = Some (VStr "1")
  ∧ send_document locked_log_world (bot_of (parse_env full_config))
      "out/error.log" None (Some 7)
    = ([Print (concat_str [RED; "Failed to upload file: ";
                           "[Errno 13] Permission denied"; RESET])],
       Some 7, Return tt).
Proof.
  assert (config (bot_of (parse_env full_config)) !! "CHAT_ID"
          = Some (VStr "1")) as H by (vm_compute; reflexivity).
  split; [exact H|].
  exact (proj1 (proj2 (proj2 (client_calls_return locked_log_world
                                (bot_of (parse_env full_config)) (VStr "1")
                                "text" "out/error.log" None None (Some 7)
                                H)))).
Defined.

(** X16.  No chat, no call: when the configuration has no [CHAT_ID] and the
    call names no chat (or a false one), every method of the client raises
    [KeyError] for that key before any request is made, and so does
    [edit_message] even when there is no message to edit. *)
Theorem client_needs_a_chat :
  ∀ w bot text file_path message_id chat_id s,
    config bot !! "CHAT_ID" = None →
    truthy_opt chat_id = false →
    send_message w bot text chat_id s = ([], s, Raise (KeyError "CHAT_ID"))
    ∧ edit_message w bot text message_id chat_id s
      = ([], s, Raise (KeyError "CHAT_ID"))
    ∧ send_document w bot file_path chat_id s
      = ([], s, Raise (KeyError "CHAT_ID"))
    ∧ pin_message w bot message_id chat_id s
      = ([], s, Raise (KeyError "CHAT_ID")).
Proof.
  intros w bot text file_path message_id chat_id s Hchat Hno.
  pose proof (target_chat_of_missing bot chat_id s Hchat Hno) as Ht.
  unfold send_message, edit_message, send_document, pin_message.
  repeat split; try by rewrite (bind_raise _ _ _ _ _ _ Ht).
  rewrite bind_unfold. unfold get_message_id. cbv beta iota zeta.
  by rewrite (bind_raise _ _ _ _ _ _ Ht).
Qed.

Lemma client_needs_a_chat_witness :
  config (bot_of ∅) !! "CHAT_ID" = None
  ∧ truthy_opt (Some (VStr "")) = false
  ∧ edit_message good_build_world (bot_of ∅) "text" None (Some (VStr "")) None
    = ([], None, Raise (KeyError "CHAT_ID")).
Proof.
  assert (config (bot_of ∅) !! "CHAT_ID" = None) as H by reflexivity.
  split; [exact H|]. split; [reflexivity|].
  exact (proj1 (proj2 (client_needs_a_chat good_build_world (bot_of ∅) "text"
                         "" None (Some (VStr "")) None H eq_refl))).
Defined.

(** ** Reports after the build *)

(** X17.  The failure report goes to the error chat.  On the failure path
    the edit of the tracked message is addressed to [ERROR_CHAT_ID] when
    that is set to a true value and to [CHAT_ID] otherwise; when the error
    log exists, [send_document] is called on it for the same chat, and
    otherwise not: the log is posted exactly when it exists and opens, and
    when it exists and does not open only the error is printed.  Nothing
    else is done, the tracked message stays as it is and the process ends
    with exit status 1. *)
Theorem failure_report_goes_to_error_chat :
  ∀ w bot chat s,
    config bot !! "CHAT_ID" = Some chat →
    failure_path w bot s
    = (edit_events w bot (error_chat (config bot) chat) s build_fail_message
         ++ (if error_log_exists w
             then document_events w bot (error_chat (config bot) chat)
                    "out/error.log"
             else []),
       s, SysExit 1)
    ∧ (In (document_request bot (error_chat (config bot) chat)
             "out/error.log")
          (trace_of (failure_path w bot s))
       ↔ error_log_exists w = true
         ∧ ∃ opened, open_rb w "out/error.log" = Replies opened)
    ∧ (∀ e, error_log_exists w = true →
            open_rb w "out/error.log" = Fails e →
            trace_of (failure_path w bot s)
            = edit_events w bot (error_chat (config bot) chat) s
                build_fail_message
              ++ [Print (concat_str [RED; "Failed to upload file: "; e;
                                     RESET])]).
Proof.
  intros w bot chat s Hchat.
  assert (failure_path w bot s
          = (edit_events w bot (error_chat (config bot) chat) s
               build_fail_message
               ++ (if error_log_exists w
                   then document_events w bot (error_chat (config bot) chat)
                          "out/error.log"
                   else []),
             s, SysExit 1)) as Heq.
  { unfold failure_path, error_chat. cbv zeta.
    assert (∀ target,
              (edit_message w bot build_fail_message None (Some target);;
               when (error_log_exists w)
                 (send_document w bot "out/error.log" (Some target));;
               sys_exit 1) s
              = (edit_events w bot (chosen_chat (Some target) chat) s
                   build_fail_message
                   ++ (if error_log_exists w
                       then document_events w bot
                              (chosen_chat (Some target) chat) "out/error.log"
                       else []),
                 s, SysExit 1 : outcome unit)) as Hrest.
    { intros target.
      rewrite (bind_return _ _ _ _ _ _
                 (edit_message_trace w bot chat _ (Some target) s Hchat)).
      destruct (error_log_exists w); cbn [when].
      - rewrite (bind_return _ _ _ _ _ _
                   (send_document_trace w bot chat _ (Some target) s Hchat)).
        unfold sys_exit. by rewrite app_nil_r.
      - rewrite bind_ret. unfold sys_exit. done. }
    destruct (truthy_opt (config bot !! "ERROR_CHAT_ID")) eqn:He.
    - rewrite bind_ret.
      destruct (config bot !! "ERROR_CHAT_ID") as [c|] eqn:Hc; [|done].
      rewrite Hrest. simpl in He. simpl. by rewrite He.
    - rewrite bind_bind, (bind_pure _ _ _ _ _ (getitem_eq _ _ _ _ Hchat)).
      rewrite bind_ret, Hrest. simpl. by destruct (truthy chat). }
  split; [exact Heq|]. rewrite Heq. unfold trace_of. cbn [fst].
  set (target := error_chat (config bot) chat).
  assert (¬ In (document_request bot target "out/error.log")
              (edit_events w bot target s build_fail_message)) as Hedit.
  { unfold edit_events, edit_request, document_request.
    destruct (id_truthy s); [|by intros []].
    destruct (telegram w _); intros [H|H]; try discriminate H;
      by repeat (destruct H as [H|H]; [discriminate H|]). }
  split; [split|].
  - intros [H|H]%in_app_or; [by destruct (Hedit H)|].
    destruct (error_log_exists w); [|by destruct H]. split; [done|].
    unfold document_events in H.
    destruct (open_rb w "out/error.log") as [e|opened]; [|by exists opened].
    by destruct H as [H|[]].
  - intros [Hlog [opened Hopen]]. apply in_or_app. right.
    rewrite Hlog. unfold document_events. rewrite Hopen. by left.
  - intros e Hlog Hopen. rewrite Hlog. unfold document_events.
    by rewrite Hopen.
Qed.

Lemma failure_report_goes_to_error_chat_witness :
  config (bot_of (parse_env full_config)) !! "CHAT_ID" = Some (VStr "1")
  ∧ error_log_exists locked_log_world = true
  ∧ open_rb locked_log_world "out/error.log"
    = Fails "[Errno 13] Permission denied"
  ∧ trace_of (failure_path locked_log_world (bot_of (parse_env full_config))
                (Some 7))
    = [edit_request (bot_of (parse_env full_config)) (VStr "1") (Some 7)
         build_fail_message;
       Print (concat_str [RED; "Failed to upload file: ";
                          "[Errno 13] Permission denied"; RESET])].
Proof.
  assert (config (bot_of (parse_env full_config)) !! "CHAT_ID"
          = Some (VStr "1")) as H by (vm_compute; reflexivity).
  split; [exact H|]. split; [reflexivity|]. split; [reflexivity|].
  rewrite (proj2 (proj2 (failure_report_goes_to_error_chat locked_log_world
                           (bot_of (parse_env full_config)) (VStr "1")
                           (Some 7) H))
             "[Errno 13] Permission denied" eq_refl eq_refl).
  vm_compute. reflexivity.
Defined.

(** X18.  A declared success without an archive only reports.  When the
    device output directory is missing, or holds no file whose name
    contains the device identifier and ends in .zip, the packaging step
    raises before it creates, copies or uploads anything; the handler
    prints the error and sends it to the configured chat, and the step
    returns with the tracked message as it was.  With the directory
    there, the error is the fixed text on the missing ZIP file. *)
Theorem packaging_without_zip_only_reports :
  ∀ w bot d chat s,
    config bot !! "DEVICE" = Some (VStr d) →
    config bot !! "CHAT_ID" = Some chat →
    (∀ entries, out_dir_listing w = Some entries →
                List.filter (is_artifact d) entries = []) →
    ∃ msg t,
      package_and_upload w bot s = ([], s, Raise (FileNotFoundError msg))
      ∧ try_except (package_and_upload w bot) (packaging_handler w bot) s
        = (Print (concat_str [RED; "Packaging error: "; msg; RESET])
             :: send_request bot chat
                  ("Build passed but packaging failed: " +:+ msg)
             :: t,
           s, Return tt)
      ∧ Forall (λ e, is_print e = true) t
      ∧ (out_dir_listing w ≠ None → msg = NO_ZIP).
Proof.
  intros w bot d chat s Hdev Hchat Hnone.
  assert (∃ msg,
            package_and_upload w bot s = ([], s, Raise (FileNotFoundError msg))
            ∧ (out_dir_listing w ≠ None → msg = NO_ZIP)) as (msg & Hp & Hmsg).
  { unfold package_and_upload. cbv zeta.
    rewrite (bind_pure _ _ _ _ _ (getitem_eq _ _ _ _ Hdev)).
    destruct (out_dir_listing w) as [entries|] eqn:Hl.
    - exists NO_ZIP. split; [|done]. rewrite bind_ret. unfold artifacts.
      rewrite bind_ret, (Hnone entries eq_refl). done.
    - eexists. split; [reflexivity|done]. }
  exists msg.
  destruct (send_message_trace w bot chat
              ("Build passed but packaging failed: " +:+ msg) None s Hchat)
    as (t & sent & Hsend & Ht & _).
  exists t. split; [done|]. split; [|done].
  unfold try_except. rewrite Hp. unfold packaging_handler.
  rewrite bind_emit, (bind_return _ _ _ _ _ _ Hsend).
  cbv [mret prog_mret prog_ret]. cbn [app str_of_exn chosen_chat].
  by rewrite app_nil_r.
Qed.

Lemma packaging_without_zip_only_reports_witness :
  config (bot_of (parse_env full_config)) !! "DEVICE" = Some (VStr "a")
  ∧ config (bot_of (parse_env full_config)) !! "CHAT_ID" = Some (VStr "1")
  ∧ out_dir_listing failed_build_world = None
  ∧ ∃ msg,
      package_and_upload failed_build_world (bot_of (parse_env full_config))
        None
      = ([], None, Raise (FileNotFoundError msg)).
Proof.
  assert (config (bot_of (parse_env full_config)) !! "DEVICE"
          = Some (VStr "a")) as H1 by (vm_compute; reflexivity).
  assert (config (bot_of (parse_env full_config)) !! "CHAT_ID"
          = Some (VStr "1")) as H2 by (vm_compute; reflexivity).
  assert (∀ entries, out_dir_listing failed_build_world = Some entries →
                     List.filter (is_artifact "a") entries = []) as H3
    by (intros entries H; discriminate H).
  split; [exact H1|]. split; [exact H2|]. split; [reflexivity|].
  destruct (packaging_without_zip_only_reports failed_build_world
              (bot_of (parse_env full_config)) "a" (VStr "1") None H1 H2 H3)
    as (msg & t & Hp & _).
  exists msg. exact Hp.
Defined.

(** ** The sync and compile stages *)

Lemma remove_residual_trace w files s :
  ∃ t, remove_residual w files s = (t, s, Return tt)
       ∧ Forall (λ e, is_network e = false) t.
Proof.
  induction files as [|f files (t & IH & Ht)]; simpl; [by exists []|].
  destruct (residual_exists w f); cbn [when].
  - exists (Remove f :: t). rewrite bind_emit, IH. by repeat constructor.
  - exists t. by rewrite bind_ret, IH.
Qed.

Lemma poll_loop_without_edits edit previous_prog logs s :
  (∀ cur, edit cur s = ([], s, Return tt)) →
  ∃ t, poll_loop edit previous_prog logs s
       = (t, s, Return (latest previous_prog logs))
       ∧ Forall (λ e, is_sleep e = true) t.
Proof.
  intros Hedit. revert previous_prog.
  induction logs as [|log logs IH]; intros previous_prog; [by exists []|].
  rewrite poll_loop_cons. unfold poll_once, latest. simpl fold_left.
  fold (latest (default previous_prog (fetch_progress log)) logs).
  destruct (IH (default previous_prog (fetch_progress log)))
    as (t & Ht & Hs).
  exists (Sleep 10 :: t). split; [|by constructor].
  destruct (fetch_progress log) as [cur|] eqn:Hf; simpl default in *.
  - pose proof (fetch_progress_not_empty _ _ Hf) as Hne.
    apply is_empty_false in Hne. rewrite Hne. cbn [negb andb].
    destruct (String.eqb_spec cur previous_prog) as [->|Hneq]; cbn [negb].
    + seq_prog. by rewrite Ht.
    + rewrite !bind_bind, (bind_return _ _ _ _ _ _ (Hedit cur)).
      seq_prog. by rewrite Ht.
  - seq_prog. by rewrite Ht.
Qed.

(** X19.  A sync that succeeds is not retried.  When the first sync exits
    with status zero, the sync stage sends the status message, tracks the
    identifier that came back, runs the one sync command, edits the status
    message to the completion text and returns; the plain forced sync is
    never run. *)
Theorem successful_sync_is_not_retried :
  ∀ w bot device chat s,
    config bot !! "DEVICE" = Some device →
    config bot !! "CHAT_ID" = Some chat →
    returncode (exec w (Shell (cmd_sync w))) = 0 →
    ∃ t sent,
      send_message w bot (sync_message w device) None s
      = (send_request bot chat (sync_message w device) :: t, s, Return sent)
      ∧ sync_stage w bot s
        = (send_request bot chat (sync_message w device) :: t
             ++ [sync_start_print; Shell (cmd_sync w)]
             ++ edit_events w bot chat sent (sync_done_message w device),
           sent, Return tt)
      ∧ Forall (λ e, is_resync e = false) (trace_of (sync_stage w bot s)).
Proof.
  intros w bot device chat s Hdev Hchat Hrc.
  destruct (send_message_trace w bot chat (sync_message w device) None s
              Hchat) as (t & sent & Hsend & Ht & _).
  exists t, sent. split; [done|].
  assert (sync_stage w bot s
          = (send_request bot chat (sync_message w device) :: t
               ++ [sync_start_print; Shell (cmd_sync w)]
               ++ edit_events w bot chat sent (sync_done_message w device),
             sent, Return tt)) as Heq.
  { unfold sync_stage.
    rewrite (bind_pure _ _ _ _ _ (getitem_eq _ _ _ _ Hdev)).
    rewrite (bind_return _ _ _ _ _ _ Hsend). unfold run_shell. seq_prog.
    rewrite Hrc. cbn [Z.eqb negb]. seq_prog. rewrite Hrc. cbn [Z.eqb].
    by rewrite (edit_message_eq w bot chat Hchat). }
  split; [done|]. rewrite Heq. unfold trace_of. cbn [fst].
  constructor; [done|]. apply Forall_app. split.
  - eapply Forall_impl; [exact Ht|]. by intros [] ?.
  - repeat constructor. unfold edit_events.
    destruct (id_truthy sent); [|constructor].
    destruct (telegram w _); by repeat constructor.
Qed.

Lemma successful_sync_is_not_retried_witness :
  config (bot_of (parse_env full_config)) !! "DEVICE" = Some (VStr "a")
  ∧ config (bot_of (parse_env full_config)) !! "CHAT_ID" = Some (VStr "1")
  ∧ returncode (exec good_build_world (Shell (cmd_sync good_build_world))) = 0
  ∧ Forall (λ e, is_resync e = false)
      (trace_of (sync_stage good_build_world (bot_of (parse_env full_config))
                   None)).
Proof.
  assert (config (bot_of (parse_env full_config)) !! "DEVICE"
          = Some (VStr "a")) as H1 by (vm_compute; reflexivity).
  assert (config (bot_of (parse_env full_config)) !! "CHAT_ID"
          = Some (VStr "1")) as H2 by (vm_compute; reflexivity).
  assert (returncode (exec good_build_world
                        (Shell (cmd_sync good_build_world))) = 0) as H3
    by reflexivity.
  split; [exact H1|]. split; [exact H2|]. split; [exact H3|].
  destruct (successful_sync_is_not_retried good_build_world
              (bot_of (parse_env full_config)) (VStr "a") (VStr "1") None
              H1 H2 H3) as (t & sent & _ & _ & H).
  exact H.
Defined.

(** X20.  A status message that did not get through silences the progress
    reports.  When the request that announces the compilation brings back
    no message identifier (the request fails, the reply is not ok, or the
    identifier is zero), the compile stage still starts the build and
    returns, it tracks no message, and that announcement is the only
    request of the whole stage: the polling loop edits nothing, whatever
    the log shows. *)
Theorem lost_status_message_silences_progress :
  ∀ w bot device variant chat s,
    config bot !! "DEVICE" = Some device →
    config bot !! "VARIANT" = Some variant →
    config bot !! "CHAT_ID" = Some chat →
    (∀ id, telegram w (send_request bot chat (build_msg w (config bot) device))
           = Replies (Some id) → id = 0) →
    outcome_of (compile_stage w bot s) = Return tt
    ∧ id_truthy (state_of (compile_stage w bot s)) = false
    ∧ In (Popen (build_cmd w device variant)) (trace_of (compile_stage w bot s))
    ∧ List.filter is_network (trace_of (compile_stage w bot s))
      = [send_request bot chat (build_msg w (config bot) device)].
Proof.
  intros w bot device variant chat s Hdev Hvar Hchat Hlost.
  unfold compile_stage. cbv zeta.
  destruct (remove_residual_trace w
              ["out/error.log"; "out/.lock"; "build.log"] s)
    as (t0 & H0 & Ht0).
  rewrite (bind_return _ _ _ _ _ _ H0).
  rewrite (bind_pure _ _ _ _ _ (getitem_eq _ _ _ _ Hdev)).
  destruct (send_message_trace w bot chat (build_msg w (config bot) device)
              None s Hchat) as (t1 & sent & Hsend & Ht1 & Hsent).
  rewrite (bind_return _ _ _ _ _ _ Hsend). seq_prog.
  rewrite (bind_pure _ _ _ _ _ (getitem_eq _ _ _ _ Hvar)). seq_prog.
  assert (id_truthy sent = false) as Hid.
  { destruct sent as [id|]; [|done].
    rewrite (Hlost id (proj1 (Hsent id) eq_refl)). done. }
  match goal with
  | |- context [(poll_loop ?edit ?p ?l ≫= ?f) ?s] =>
      assert (∀ cur, edit cur s = ([], s, Return tt)) as Hedit
        by (intros cur; rewrite (edit_message_eq w bot chat Hchat);
            unfold edit_events; by rewrite Hid);
      destruct (poll_loop_without_edits edit p l s Hedit) as (t3 & H3 & Ht3);
      rewrite (bind_return _ f _ _ _ _ H3)
  end.
  cbv [mret prog_mret prog_ret]. cbv beta iota.
  unfold outcome_of, state_of, trace_of. cbn [fst snd chosen_chat].
  split; [done|]. split; [done|]. split.
  - apply in_or_app. right. right. apply in_or_app. right. right. by left.
  - assert (∀ t, Forall (λ e, is_network e = false) t →
                 List.filter is_network t = []) as Hnil.
    { induction 1 as [|e t He _ IH]; [done|]. simpl. by rewrite He. }
    rewrite List.filter_app, (Hnil _ Ht0). simpl.
    rewrite List.filter_app. f_equal.
    rewrite Hnil; [|eapply Forall_impl; [exact Ht1|]; by intros [] ?].
    simpl. rewrite List.filter_app. rewrite Hnil; [done|].
    eapply Forall_impl; [exact Ht3|]. by intros [] ?.
Qed.

Lemma lost_status_message_silences_progress_witness :
  config (bot_of (parse_env full_config)) !! "DEVICE" = Some (VStr "a")
  ∧ config (bot_of (parse_env full_config)) !! "VARIANT"
    = Some (VStr "userdebug")
  ∧ config (bot_of (parse_env full_config)) !! "CHAT_ID" = Some (VStr "1")
  ∧ id_truthy (state_of (compile_stage rclone_world
                           (bot_of (parse_env full_config)) (Some 7)))
    = false.
Proof.
  assert (config (bot_of (parse_env full_config)) !! "DEVICE"
          = Some (VStr "a")) as H1 by (vm_compute; reflexivity).
  assert (config (bot_of (parse_env full_config)) !! "VARIANT"
          = Some (VStr "userdebug")) as H2 by (vm_compute; reflexivity).
  assert (config (bot_of (parse_env full_config)) !! "CHAT_ID"
          = Some (VStr "1")) as H3 by (vm_compute; reflexivity).
  assert (∀ id, telegram rclone_world
                  (send_request (bot_of (parse_env full_config)) (VStr "1")
                     (build_msg rclone_world
                        (config (bot_of (parse_env full_config)))
                        (VStr "a")))
                = Replies (Some id) → id = 0) as H4
    by (intros id H; discriminate H).
  split; [exact H1|]. split; [exact H2|]. split; [exact H3|].
  exact (proj1 (proj2 (lost_status_message_silences_progress rclone_world
                         (bot_of (parse_env full_config)) (VStr "a")
                         (VStr "userdebug") (VStr "1") (Some 7)
                         H1 H2 H3 H4))).
Defined.

(** ** Writing an entry and reading it back *)

Lemma strip_by_id f s :
  not_at f (first_char s) → not_at f (last_char s) → strip_by f s = s.
Proof.
  intros Hf Hl. symmetry. apply stripped_of_unique. exists "", "".
  by rewrite append_nil_l, append_nil_r.
Qed.

Lemma strip_by_newline f s :
  f nl = true → not_at f (first_char s) → not_at f (last_char s) →
  strip_by f (s +:+ NL) = s.
Proof.
  intros Hnl Hf Hl. symmetry. apply stripped_of_unique. exists "", NL.
  rewrite append_nil_l. repeat split; try done. simpl. by rewrite Hnl.
Qed.

Lemma remove_last_snoc s c : remove_last (s +:+ String c "") = s.
Proof.
  induction s as [|a s IH]; [done|].
  rewrite append_cons, remove_last_cons, IH.
  by destruct s.
Qed.

Lemma contains_newline_false s :
  all_chars (λ a, negb (ascii_eqb nl a)) s = true → contains NL s = false.
Proof.
  induction s as [|a s IH]; [done|]. simpl all_chars.
  intros [Ha Hs]%andb_true_iff. rewrite contains_unfold, (IH Hs).
  change (startswith NL (String a s)) with (ascii_eqb nl a && true).
  apply negb_true_iff in Ha. by rewrite Ha.
Qed.

Lemma parse_env_snoc content line key v :
  content = "" ∨ endswith NL content = true →
  line ≠ "" → contains NL (remove_last line) = false →
  is_entry line = true →
  split_first "=" line = Some (key, v) →
  parse_env (content +:+ line)
  = <[strip key := coerce (clean_value v)]> (parse_env content).
Proof.
  intros Hc Hne Hnl Hentry Hsplit. unfold parse_env.
  rewrite (readlines_app _ _ Hc), fold_left_app, (readlines_single _ Hne Hnl).
  simpl. by rewrite (load_env_line_entry _ _ _ _ Hentry Hsplit).
Qed.

(** X21.  An entry that is written is read back.  For a key and a string
    value that need no quoting, adding the line key, equals sign, value,
    newline to a configuration text that is empty or ends with a newline
    makes [load_env] give that very string for that key, and changes no
    other key. *)
Theorem written_entry_is_read_back :
  ∀ content key v,
    content = "" ∨ endswith NL content = true →
    plain_key key → plain_value v →
    parse_env (content +:+ key +:+ "=" +:+ v +:+ NL)
    = <[key := VStr v]> (parse_env content)
    ∧ parse_env (content +:+ key +:+ "=" +:+ v +:+ NL) !! key = Some (VStr v).
Proof.
  intros content key v Hc (Hkne & (Hkf & Hkl & Hkeq) & Hknl & Hkhash)
    (Hvnl & Hvf & Hvl & Hvdf & Hvdl & Hvt & Hvfalse & Hvsf & Hvsl).
  assert (parse_env (content +:+ key +:+ "=" +:+ v +:+ NL)
          = <[key := VStr v]> (parse_env content)) as Heq.
  { rewrite (parse_env_snoc content (key +:+ "=" +:+ v +:+ NL) key
               (v +:+ NL) Hc).
    - rewrite (strip_by_id is_space key Hkf Hkl : strip key = key).
      unfold clean_value, strip_char.
      rewrite (strip_by_newline is_space v eq_refl Hvf Hvl : strip _ = v).
      rewrite (strip_by_id _ v Hvdf Hvdl), (strip_by_id _ v Hvsf Hvsl).
      unfold coerce.
      destruct (String.eqb_spec (lower v) "true"); [done|].
      by destruct (String.eqb_spec (lower v) "false").
    - by destruct key.
    - change (key +:+ "=" +:+ v +:+ NL)
        with (key +:+ String "=" (v +:+ String nl "")).
      rewrite <-append_cons, <-append_assoc, remove_last_snoc.
      apply contains_newline_false. rewrite all_chars_app, Hknl.
      simpl. by rewrite Hvnl.
    - unfold is_entry. apply negb_true_iff.
      destruct key as [|c key]; [done|]. rewrite append_cons.
      assert (is_space c = false) as Hsp by (by apply Hkf).
      assert (first_char (strip (String c (key +:+ "=" +:+ v +:+ NL)))
              = Some c) as Hfirst.
      { unfold strip, strip_by. simpl lstrip_by. rewrite Hsp.
        by apply first_char_rstrip_by. }
      destruct (strip (String c (key +:+ "=" +:+ v +:+ NL))) as [|c' r];
        [done|].
      injection Hfirst as ->.
      change (startswith "#" (String c r)) with (ascii_eqb "#" c && true).
      by rewrite (Hkhash c eq_refl).
    - apply split_first_spec. split; [done|]. exact Hkeq. }
  split; [done|]. rewrite Heq. apply lookup_insert_eq.
Qed.

Lemma written_entry_is_read_back_witness :
  (full_config = "" ∨ endswith NL full_config = true)
  ∧ parse_env (full_config +:+ "RCLONE_REMOTE" +:+ "=" +:+ "drive" +:+ NL)
    !! "RCLONE_REMOTE"
    = Some (VStr "drive").
Proof.
  assert (full_config = "" ∨ endswith NL full_config = true) as H1
    by (by right).
  assert (plain_key "RCLONE_REMOTE") as H2.
  { split; [done|]. split; [|split; [reflexivity|by intros c [= <-]]].
    split; [by intros c [= <-]|]. split; [by intros c [= <-]|reflexivity]. }
  assert (plain_value "drive") as H3.
  { split; [reflexivity|]. repeat split; try done; by intros c [= <-]. }
  split; [exact H1|].
  exact (proj2 (written_entry_is_read_back full_config "RCLONE_REMOTE"
                  "drive" H1 H2 H3)).
Defined.

(** ** What a run may do to the machine *)

Section inventory.
Context (w : World) (P : event → Prop).
Hypothesis HPrint : ∀ text, P (Print text).
Hypothesis HGet : ∀ url, P (HttpGet url).
Hypothesis HPost : ∀ url data files, P (HttpPost url data files).
Hypothesis HCheck : ∀ cmd, P (CheckOutput cmd).
Hypothesis HSleep : ∀ n, P (Sleep n).
Hypothesis HMakedirs : ∀ path, P (Makedirs path).
Hypothesis HCopy : ∀ src dst, P (Copy src dst).
Hypothesis HWrite : ∀ path content, P (WriteFile path content).
Hypothesis HArchive : ∀ base format root, P (MakeArchive base format root).

Lemma keeps_bind_getitem {B : Type} d k (f : value → prog B) :
  (∀ v, d !! k = Some v → keeps P (f v)) → keeps P (getitem d k ≫= f).
Proof.
  intros H s. unfold getitem. destruct (d !! k) as [v|] eqn:Hv.
  - rewrite bind_ret. by apply H.
  - constructor.
Qed.

Ltac only_auto :=
  repeat first [ apply keeps_bind_getitem; intros ? ?
               | step_prog
               | apply keeps_emit
               | apply keeps_emit_all
               | progress eauto ].

Lemma only_target_chat_of bot chat_id : keeps P (target_chat_of bot chat_id).
Proof. unfold target_chat_of. only_auto. Qed.

Lemma only_send_message bot text chat_id :
  keeps P (send_message w bot text chat_id).
Proof. pose proof only_target_chat_of. unfold send_message. only_auto. Qed.

Lemma only_edit_message bot text message_id chat_id :
  keeps P (edit_message w bot text message_id chat_id).
Proof. pose proof only_target_chat_of. unfold edit_message. only_auto. Qed.

Lemma only_send_document bot file_path chat_id :
  keeps P (send_document w bot file_path chat_id).
Proof. pose proof only_target_chat_of. unfold send_document. only_auto. Qed.

Lemma only_pin_message bot message_id chat_id :
  keeps P (pin_message w bot message_id chat_id).
Proof. pose proof only_target_chat_of. unfold pin_message. only_auto. Qed.

Lemma only_disk_optimization_stage :
  (io_script_exists w = true → P (Run ["bash"; io_script w])) →
  (io_script_exists w = false → P (Shell CURL_SCRIPT)) →
  keeps P (disk_optimization_stage w).
Proof.
  intros Hrun Hcurl. unfold disk_optimization_stage.
  destruct (io_script_exists w); only_auto.
Qed.

Lemma only_sync_stage bot :
  P (Shell (cmd_sync w)) → P (Shell cmd_resync) → keeps P (sync_stage w bot).
Proof.
  intros Hsync Hre. pose proof only_send_message. pose proof only_edit_message.
  unfold sync_stage, run_shell. only_auto.
Qed.

Lemma only_clean_stage : P (Rmtree "out") → keeps P clean_stage.
Proof. intros H. unfold clean_stage. only_auto. Qed.

Lemma only_clean_device_stage bot :
  (∀ device, config bot !! "DEVICE" = Some device →
             P (Rmtree (out_dir_of device))) →
  keeps P (clean_device_stage bot).
Proof. intros H. unfold clean_device_stage. only_auto. Qed.

Lemma only_remove_residual files :
  (∀ f, In f files → residual_exists w f = true → P (Remove f)) →
  keeps P (remove_residual w files).
Proof.
  induction files as [|f files IH]; intros H; simpl; [apply keeps_ret|].
  apply keeps_bind.
  - destruct (residual_exists w f) eqn:Hf; [|apply keeps_ret].
    apply keeps_emit, H; [by left|done].
  - intros _. apply IH. intros g Hg. apply H. by right.
Qed.

Lemma only_poll_loop edit previous_prog logs :
  (∀ cur, keeps P (edit cur)) → keeps P (poll_loop edit previous_prog logs).
Proof.
  intros H. revert previous_prog.
  induction logs; intros previous_prog; simpl; [apply keeps_ret|].
  apply keeps_bind; [|intros p; apply IHlogs].
  unfold poll_once. only_auto.
Qed.

Lemma only_compile_stage bot :
  (∀ f, In f residual_files → residual_exists w f = true → P (Remove f)) →
  (∀ device variant,
     config bot !! "DEVICE" = Some device →
     config bot !! "VARIANT" = Some variant →
     P (Popen (build_cmd w device variant))) →
  keeps P (compile_stage w bot).
Proof.
  intros Hrm Hpopen. unfold compile_stage. cbv zeta.
  apply keeps_bind; [by apply only_remove_residual|intros _].
  apply keeps_bind_getitem. intros device Hdev.
  apply keeps_bind; [apply only_send_message|intros sent].
  apply keeps_bind; [apply keeps_set_message_id|intros _].
  apply keeps_bind; [apply keeps_emit, HPrint|intros _].
  apply keeps_bind_getitem. intros variant Hvar.
  apply keeps_bind; [by apply keeps_emit, Hpopen|intros _].
  apply keeps_bind; [|intros _; apply keeps_ret].
  apply only_poll_loop. intros cur. apply only_edit_message.
Qed.

Lemma only_evaluate device log listing :
  keeps P (evaluate device log listing).
Proof. unfold evaluate, log_check, artifacts. only_auto. Qed.

Lemma only_failure_path bot : keeps P (failure_path w bot).
Proof.
  pose proof only_edit_message. pose proof only_send_document.
  unfold failure_path. only_auto.
Qed.

Lemma only_copy_images out_dir rom_folder imgs :
  keeps P (copy_images w out_dir rom_folder imgs).
Proof. induction imgs; simpl; only_auto. Qed.

Lemma only_upload_gofile_events file_path :
  Forall P (upload_gofile_events w file_path).
Proof.
  unfold upload_gofile_events. constructor; [apply HGet|].
  destruct (gofile_servers w file_path) as [|[status [|server ?]]];
    try constructor.
  destruct (String.eqb status "ok"); [|constructor].
  destruct (open_rb w file_path); repeat constructor. apply HPost.
Qed.

Lemma only_upload_rclone file_path remote folder :
  P (rclone_copy file_path remote folder) →
  P (rclone_link file_path remote folder) →
  keeps P (upload_rclone w file_path remote folder).
Proof.
  intros Hcopy Hlink. unfold upload_rclone.
  apply keeps_except_CalledProcessError; [|apply keeps_ret].
  unfold subprocess_run. only_auto.
Qed.

Lemma only_package_and_upload bot :
  (∀ device, config bot !! "DEVICE" = Some device →
             P (Rmtree (path_join (out_dir_of device) "rom_temp"))) →
  (∀ file_path remote folder,
     P (rclone_copy file_path remote folder)
     ∧ P (rclone_link file_path remote folder)) →
  keeps P (package_and_upload w bot).
Proof.
  intros Hrm Hrclone.
  pose proof only_copy_images. pose proof only_upload_gofile_events.
  pose proof only_edit_message. pose proof only_pin_message.
  assert (∀ file_path remote folder,
            keeps P (upload_rclone w file_path remote folder)) as Hup.
  { intros. apply only_upload_rclone; apply Hrclone. }
  unfold package_and_upload, check_output, artifacts. only_auto.
Qed.

Lemma only_packaging_handler bot e : keeps P (packaging_handler w bot e).
Proof.
  pose proof only_send_message. unfold packaging_handler. only_auto.
Qed.

Lemma only_post_build bot :
  (∀ device, config bot !! "DEVICE" = Some device →
             P (Rmtree (path_join (out_dir_of device) "rom_temp"))) →
  (∀ file_path remote folder,
     P (rclone_copy file_path remote folder)
     ∧ P (rclone_link file_path remote folder)) →
  (truthy_opt (config bot !! "POWEROFF") = true → P SHUTDOWN) →
  keeps P (post_build w bot).
Proof.
  intros Hrm Hrclone Hoff. unfold post_build. cbv zeta.
  apply keeps_bind; [apply keeps_getitem|intros device].
  apply keeps_bind; [apply only_evaluate|intros ok].
  apply keeps_bind; [apply keeps_when, only_failure_path|intros _].
  apply keeps_bind.
  { apply keeps_try_except;
      [by apply only_package_and_upload|apply only_packaging_handler]. }
  intros _ s. rewrite shutdown_stage_eq. unfold shutdown_events, trace_of.
  destruct (truthy_opt (config bot !! "POWEROFF")); simpl; [|constructor].
  repeat constructor; [apply HPrint|by apply Hoff].
Qed.
End inventory.

Lemma keeps_allowed_pipeline args w CONFIG :
  keeps (allowed args w CONFIG) (pipeline args w CONFIG).
Proof.
  intros s. unfold pipeline.
  destruct (CONFIG !! "BOT_TOKEN") as [token|] eqn:Htok;
    [|unfold CIBot_init, getitem; rewrite Htok, bind_unfold; constructor].
  rewrite (bind_pure _ _ _ _ _ (CIBot_init_eq CONFIG token Htok s)).
  revert s. apply keeps_bind.
  { destruct (args_disk_optimization args) eqn:Hdisk; [|apply keeps_ret].
    apply only_disk_optimization_stage; try done.
    - intros Hio. by left.
    - intros Hio. by left. }
  intros _. apply keeps_bind.
  { destruct (args_sync args) eqn:Hsync; [|apply keeps_ret].
    apply only_sync_stage; try done; right; tauto. }
  intros _. apply keeps_bind.
  { destruct (args_clean args) eqn:Hclean; [|apply keeps_ret].
    apply only_clean_stage; try done. by left. }
  intros _. apply keeps_bind.
  { destruct (args_clean_device args) eqn:Hclean; [|apply keeps_ret].
    apply only_clean_device_stage; try done.
    intros device Hdev. right. exists device. tauto. }
  intros _. apply keeps_bind.
  { apply only_compile_stage; try done.
    intros device variant Hdev Hvar. by exists device, variant. }
  intros _. apply only_post_build; try done.
  - intros device Hdev. right. exists device. tauto.
  - intros file_path remote folder.
    split; right; exists file_path, remote, folder; tauto.
Qed.

Lemma keeps_allowed_main args w :
  keeps (allowed args w (loaded w)) (main args w).
Proof.
  intros s. unfold loaded.
  destruct (config_file w) as [|e|content] eqn:Hfile.
  - unfold main, load_env. rewrite Hfile. by repeat constructor.
  - unfold main, load_env. rewrite Hfile. constructor.
  - rewrite (main_eq _ _ _ _ Hfile).
    destruct (first_missing (parse_env content) required_keys) as [key|];
      [by repeat constructor|].
    apply keeps_allowed_pipeline.
Qed.

Lemma out_dir_is_not_out device : out_dir_of device ≠ "out".
Proof. unfold out_dir_of. by destruct (fmt device). Qed.

Lemma rom_temp_is_not_out device :
  path_join (out_dir_of device) "rom_temp" ≠ "out".
Proof.
  unfold path_join, out_dir_of. cbn [startswith is_empty orb].
  change (startswith "/" "rom_temp") with false. cbv iota.
  rewrite append_cons. cbn [is_empty orb].
  destruct (endswith "/" _); rewrite ?append_cons; by destruct (fmt device).
Qed.

(** X22.  What a run may do to the machine.  Every directory removal, file
    removal and command of every run is on the inventory [allowed]: the
    directory [out] only with the clean flag, the device output directory
    only with the clean-device flag, the packaging folder; the three
    residual files and only when they exist; the disk script with its flag,
    the two sync commands with the sync flag, the rclone copy and link, the
    build child for the configured device and variant, and the power-off
    with its setting.  So the directory [out] is removed only when asked
    for, and [subprocess.run] is given a shell command only when the sync
    or the disk optimization was asked for (the build child and the two
    [check_output] calls are started through a shell in every run). *)
Theorem effects_are_on_the_inventory :
  ∀ args w s,
    Forall (allowed args w (loaded w)) (trace_of (main args w s))
    ∧ (In (Rmtree "out") (trace_of (main args w s)) → args_clean args = true)
    ∧ (∀ cmd, In (Shell cmd) (trace_of (main args w s)) →
              args_sync args = true ∨ args_disk_optimization args = true).
Proof.
  intros args w s. pose proof (keeps_allowed_main args w s) as Hall.
  split; [done|].
  assert (∀ e, In e (trace_of (main args w s)) → allowed args w (loaded w) e)
    as Hin.
  { intros e He. exact (proj1 (Forall_forall _ _) Hall e
                          (proj2 (list_elem_of_In _ _) He)). }
  split.
  - intros [[_ ?]|(device & _ & [[Hp _]|Hp])]%Hin; [done| |].
    + by destruct (out_dir_is_not_out device).
    + by destruct (rom_temp_is_not_out device).
  - intros cmd [(_ & ? & _)|[_ ?]]%Hin; tauto.
Qed.

Lemma effects_are_on_the_inventory_witness :
  In (Shell cmd_resync)
     (trace_of (main (example_args true) failed_sync_world None))
  ∧ (args_sync (example_args true) = true
     ∨ args_disk_optimization (example_args true) = true).
Proof.
  assert (In (Shell cmd_resync)
            (trace_of (main (example_args true) failed_sync_world None)))
    as H by (vm_compute; tauto).
  split; [exact H|].
  exact (proj2 (proj2 (effects_are_on_the_inventory (example_args true)
                         failed_sync_world None)) cmd_resync H).
Defined.

(** ** The upload to gofile *)

Lemma error_text_http e :
  contains "http" ("Error: " +:+ e) = contains "http" e.
Proof. reflexivity. Qed.

(** X23.  The test for a link tells a successful upload.  [upload_gofile]
    never raises: it gives the download page when the server list and the
    upload both answer ok, and a text otherwise.  When the texts of the
    exceptions do not mention http, the test of line 386 (the result
    contains http) holds exactly when the server list answered ok with at
    least one server, the upload to the first server answered ok, and the
    result is its download page, which mentions http. *)
Theorem gofile_link_test_detects_success :
  ∀ w file_path,
    (∀ e, gofile_servers w file_path = Fails e → contains "http" e = false) →
    (∀ server e, gofile_upload w server file_path = Fails e →
                 contains "http" e = false) →
    (contains "http" (upload_gofile w file_path) = true
     ↔ ∃ server rest page,
         gofile_servers w file_path = Replies ("ok", server :: rest)
         ∧ gofile_upload w server file_path = Replies ("ok", page)
         ∧ upload_gofile w file_path = page
         ∧ contains "http" page = true).
Proof.
  intros w file_path Hservers Hupload. unfold upload_gofile.
  destruct (gofile_servers w file_path) as [e|[status servers]] eqn:Hs.
  { rewrite error_text_http, (Hservers e eq_refl).
    split; [done|]. by intros (? & ? & ? & ? & _). }
  destruct (String.eqb_spec status "ok") as [->|Hne]; cbn [negb].
  2: { split; [done|]. intros (? & ? & ? & [= ? _] & _). done. }
  destruct servers as [|server rest].
  { split; [done|]. by intros (? & ? & ? & ? & _). }
  destruct (gofile_upload w server file_path) as [e|[status' page]] eqn:Hu.
  { rewrite error_text_http, (Hupload server e Hu).
    split; [done|]. intros (? & ? & ? & [= <- _] & Hu' & _). congruence. }
  destruct (String.eqb_spec status' "ok") as [->|Hne].
  - split.
    + intros Hpage. by exists server, rest, page.
    + intros (? & ? & ? & [= <- _] & Hu' & _ & Hpage). congruence.
  - split; [done|]. intros (? & ? & ? & [= <- _] & Hu' & _). congruence.
Qed.

Lemma gofile_link_test_detects_success_witness :
  (∀ e, gofile_servers rclone_world "a.json" = Fails e →
        contains "http" e = false)
  ∧ (∀ server e, gofile_upload rclone_world server "a.json" = Fails e →
                 contains "http" e = false)
  ∧ contains "http" (upload_gofile rclone_world "a.json") ≠ true.
Proof.
  assert (∀ e, gofile_servers rclone_world "a.json" = Fails e →
               contains "http" e = false) as H1
    by (by intros e [= <-]).
  assert (∀ server e, gofile_upload rclone_world server "a.json" = Fails e →
                      contains "http" e = false) as H2
    by (by intros server e [= <-]).
  split; [exact H1|]. split; [exact H2|]. intros H.
  destruct (proj1 (gofile_link_test_detects_success rclone_world "a.json"
                     H1 H2) H) as (server & rest & page & Hs & _).
  discriminate Hs.
Defined.

(** ** The tracked message *)

Section tracking.
Context {A B : Type}.
Implicit Types (m : prog A) (f : A → prog B).

Lemma stateless_ret (a : A) : stateless (mret a : prog A).
Proof. by intros s. Qed.

Lemma stateless_raise e : stateless (raise e : prog A).
Proof. by intros s. Qed.

Lemma stateless_sys_exit c : stateless (sys_exit c : prog A).
Proof. by intros s. Qed.

Lemma stateless_bind m f :
  stateless m → (∀ a, stateless (f a)) → stateless (m ≫= f).
Proof.
  intros Hm Hf s. rewrite bind_unfold. specialize (Hm s).
  destruct (m s) as [[t s'] [a|e|c]]; [|done|done].
  unfold state_of in Hm. simpl in Hm. subst s'.
  specialize (Hf a s). by destruct (f a s) as [[t' s''] o].
Qed.

Lemma stateless_try_except m (h : exn → prog A) :
  stateless m → (∀ e, stateless (h e)) → stateless (try_except m h).
Proof.
  intros Hm Hh s. unfold try_except. specialize (Hm s).
  destruct (m s) as [[t s'] [a|e|c]]; [done| |done].
  unfold state_of in Hm. simpl in Hm. subst s'.
  specialize (Hh e s). by destruct (h e s) as [[t' s''] o].
Qed.

Lemma stateless_except_CalledProcessError (m h : prog A) :
  stateless m → stateless h → stateless (except_CalledProcessError m h).
Proof.
  intros Hm Hh s. unfold except_CalledProcessError. specialize (Hm s).
  destruct (m s) as [[t s'] [a|[]|c]]; try done.
  unfold state_of in Hm. simpl in Hm. subst s'.
  specialize (Hh s). by destruct (h s) as [[t' s''] o].
Qed.
End tracking.

Lemma stateless_emit e : stateless (emit e).
Proof. by intros s. Qed.

Lemma stateless_emit_all l : stateless (emit_all l).
Proof. by intros s. Qed.

Lemma stateless_get_message_id : stateless get_message_id.
Proof. by intros s. Qed.

Lemma stateless_getitem d k : stateless (getitem d k).
Proof. intros s. unfold getitem. by destruct (d !! k). Qed.

Lemma stateless_when b m : stateless m → stateless (when b m).
Proof. destruct b; [done|]. intros _. apply stateless_ret. Qed.

Ltac stateless_auto :=
  repeat first
    [ solve [eauto]
    | apply stateless_bind; [|intros ?]
    | apply stateless_ret | apply stateless_raise | apply stateless_sys_exit
    | apply stateless_emit | apply stateless_emit_all
    | apply stateless_get_message_id | apply stateless_getitem
    | apply stateless_when
    | match goal with
      | |- stateless (if ?b then _ else _) => destruct b
      | |- stateless (match ?x with _ => _ end) => destruct x
      end
    | progress cbv zeta ].

Lemma stateless_target_chat_of bot chat_id :
  stateless (target_chat_of bot chat_id).
Proof. unfold target_chat_of. stateless_auto. Qed.

Lemma stateless_send_message w bot text chat_id :
  stateless (send_message w bot text chat_id).
Proof.
  pose proof stateless_target_chat_of. unfold send_message. stateless_auto.
Qed.

Lemma stateless_edit_message w bot text message_id chat_id :
  stateless (edit_message w bot text message_id chat_id).
Proof.
  pose proof stateless_target_chat_of. unfold edit_message. stateless_auto.
Qed.

Lemma stateless_send_document w bot file_path chat_id :
  stateless (send_document w bot file_path chat_id).
Proof.
  pose proof stateless_target_chat_of. unfold send_document. stateless_auto.
Qed.

Lemma stateless_pin_message w bot message_id chat_id :
  stateless (pin_message w bot message_id chat_id).
Proof.
  pose proof stateless_target_chat_of. unfold pin_message. stateless_auto.
Qed.

Lemma stateless_upload_rclone w file_path remote folder :
  stateless (upload_rclone w file_path remote folder).
Proof.
  unfold upload_rclone, subprocess_run.
  apply stateless_except_CalledProcessError; stateless_auto.
Qed.

Lemma stateless_copy_images w out_dir rom_folder imgs :
  stateless (copy_images w out_dir rom_folder imgs).
Proof. induction imgs; simpl; stateless_auto. Qed.

Lemma stateless_evaluate device log listing :
  stateless (evaluate device log listing).
Proof. unfold evaluate, log_check, artifacts. stateless_auto. Qed.

Lemma stateless_failure_path w bot : stateless (failure_path w bot).
Proof.
  pose proof stateless_edit_message. pose proof stateless_send_document.
  unfold failure_path. stateless_auto.
Qed.

Lemma stateless_package_and_upload w bot :
  stateless (package_and_upload w bot).
Proof.
  pose proof stateless_copy_images. pose proof stateless_upload_rclone.
  pose proof stateless_edit_message. pose proof stateless_pin_message.
  unfold package_and_upload, check_output, artifacts. stateless_auto.
Qed.

Lemma stateless_packaging_handler w bot e :
  stateless (packaging_handler w bot e).
Proof.
  pose proof stateless_send_message. unfold packaging_handler.
  stateless_auto.
Qed.

Lemma stateless_post_build w bot : stateless (post_build w bot).
Proof.
  pose proof stateless_evaluate. pose proof stateless_failure_path.
  unfold post_build, shutdown_stage. stateless_auto.
  apply stateless_try_except;
    [apply stateless_package_and_upload|apply stateless_packaging_handler].
Qed.

Lemma poll_loop_keeps_state edit previous_prog logs s :
  (∀ cur, ∃ t, edit cur s = (t, s, Return tt)) →
  ∃ t p, poll_loop edit previous_prog logs s = (t, s, Return p).
Proof.
  intros Hedit. revert previous_prog.
  induction logs as [|log logs IH]; intros previous_prog;
    [by exists [], previous_prog|].
  rewrite poll_loop_cons. unfold poll_once.
  destruct (fetch_progress log) as [cur|].
  - destruct (negb (is_empty cur) && negb (String.eqb cur previous_prog)).
    + destruct (Hedit cur) as [t1 H1]. destruct (IH cur) as (t & p & Ht).
      exists (t1 ++ Sleep 10 :: t), p.
      rewrite !bind_bind, (bind_return _ _ _ _ _ _ H1). seq_prog.
      by rewrite Ht.
    + destruct (IH previous_prog) as (t & p & Ht).
      exists (Sleep 10 :: t), p. seq_prog. by rewrite Ht.
  - destruct (IH previous_prog) as (t & p & Ht).
    exists (Sleep 10 :: t), p. seq_prog. by rewrite Ht.
Qed.

Lemma compile_stage_tracks w bot device variant chat s :
  config bot !! "DEVICE" = Some device →
  config bot !! "VARIANT" = Some variant →
  config bot !! "CHAT_ID" = Some chat →
  ∃ t, compile_stage w bot s
       = (t, sent_id w (send_request bot chat (build_msg w (config bot) device)),
          Return tt).
Proof.
  intros Hdev Hvar Hchat. unfold compile_stage. cbv zeta.
  destruct (remove_residual_trace w
              ["out/error.log"; "out/.lock"; "build.log"] s)
    as (t0 & H0 & _).
  rewrite (bind_return _ _ _ _ _ _ H0).
  rewrite (bind_pure _ _ _ _ _ (getitem_eq _ _ _ _ Hdev)).
  destruct (send_message_trace w bot chat (build_msg w (config bot) device)
              None s Hchat) as (t1 & sent & Hsend & _ & Hsent).
  rewrite (bind_return _ _ _ _ _ _ Hsend). seq_prog.
  rewrite (bind_pure _ _ _ _ _ (getitem_eq _ _ _ _ Hvar)). seq_prog.
  assert (sent
          = sent_id w (send_request bot chat (build_msg w (config bot) device)))
    as Hid.
  { unfold sent_id. cbn [chosen_chat] in Hsent.
    destruct (telegram w _) as [e|[id|]].
    - destruct sent as [id|]; [|done]. by pose proof (proj1 (Hsent id) eq_refl).
    - exact (proj2 (Hsent id) eq_refl).
    - destruct sent as [id|]; [|done].
      by pose proof (proj1 (Hsent id) eq_refl). }
  match goal with
  | |- context [(poll_loop ?edit ?p ?l ≫= ?f) ?s] =>
      assert (∀ cur, ∃ t, edit cur s = (t, s, Return tt)) as Hedit
        by (intros cur; rewrite (edit_message_eq w bot chat Hchat); eauto);
      destruct (poll_loop_keeps_state edit p l s Hedit) as (t3 & p3 & H3);
      rewrite (bind_return _ f _ _ _ _ H3)
  end.
  cbv [mret prog_mret prog_ret]. cbv beta iota. rewrite <-Hid. eauto.
Qed.

(** X24.  The message the run tracks at its end is the status message of
    the compilation.  For a valid configuration, whatever the flags and
    whatever the sync stage sent, [bot.message_id] after the compile
    stage is the identifier that came back for the message announcing the
    compilation ([None] when none came back), and nothing after the build
    changes it: neither the verdict, nor the failure path, nor packaging
    and its handler, nor the shutdown.  So the edits of the post-build
    part and the pin go to that message. *)
Theorem tracked_message_is_the_compile_status :
  ∀ args w content,
    config_file w = Text content →
    first_missing (parse_env content) required_keys = None →
    ∃ device chat,
      parse_env content !! "DEVICE" = Some device
      ∧ parse_env content !! "CHAT_ID" = Some chat
      ∧ state_of (run args w)
        = sent_id w (send_request (bot_of (parse_env content)) chat
                       (build_msg w (parse_env content) device))
      ∧ ∀ s, state_of (post_build w (bot_of (parse_env content)) s) = s.
Proof.
  intros args w content Hfile Hvalid.
  destruct (valid_config_lookup content Hvalid)
    as (device & variant & token & chat & Hdev & Hvar & Htok & Hchat).
  exists device, chat. split; [done|]. split; [done|].
  split; [|apply stateless_post_build].
  set (P := λ _ : event, True).
  assert (∀ e, ordinary e → P e) as HP by done.
  set (bot := bot_of (parse_env content)).
  rewrite (run_eq args w content Hfile Hvalid). unfold pipeline.
  rewrite (bind_pure _ _ _ _ _ (CIBot_init_eq _ token Htok None)). fold bot.
  destruct (total_keeps P
              (when (args_disk_optimization args) (disk_optimization_stage w))
              None)
    as (t1 & s1 & [] & H1 & _);
    [apply total_when, total_disk_optimization_stage
    |apply keeps_when, keeps_disk_optimization_stage, HP|].
  rewrite (bind_return _ _ _ _ _ _ H1).
  destruct (total_keeps P (when (args_sync args) (sync_stage w bot)) s1)
    as (t2 & s2 & [] & H2 & _);
    [apply total_when, (total_sync_stage w bot device chat Hdev Hchat)
    |apply keeps_when, keeps_sync_stage; [exact HP|exact I]|].
  rewrite (bind_return _ _ _ _ _ _ H2).
  destruct (total_keeps P (when (args_clean args) clean_stage) s2)
    as (t3 & s3 & [] & H3 & _);
    [apply total_when, total_clean_stage
    |apply keeps_when, keeps_clean_stage, HP|].
  rewrite (bind_return _ _ _ _ _ _ H3).
  destruct (total_keeps P
              (when (args_clean_device args) (clean_device_stage bot)) s3)
    as (t4 & s4 & [] & H4 & _);
    [apply total_when, (total_clean_device_stage bot device Hdev)
    |apply keeps_when, keeps_clean_device_stage, HP|].
  rewrite (bind_return _ _ _ _ _ _ H4).
  destruct (compile_stage_tracks w bot device variant chat s4 Hdev Hvar Hchat)
    as (t5 & H5).
  rewrite (bind_return _ _ _ _ _ _ H5).
  pose proof (stateless_post_build w bot
                (sent_id w (send_request bot chat
                              (build_msg w (config bot) device)))) as H6.
  destruct (post_build w bot _) as [[t6 s6] o6].
  unfold state_of in *. cbn [fst snd] in *. exact H6.
Qed.

Lemma tracked_message_is_the_compile_status_witness :
  config_file good_build_world = Text full_config
  ∧ first_missing (parse_env full_config) required_keys = None
  ∧ ∃ device chat,
      parse_env full_config !! "DEVICE" = Some device
      ∧ parse_env full_config !! "CHAT_ID" = Some chat
      ∧ state_of (run (example_args true) good_build_world)
        = sent_id good_build_world
            (send_request (bot_of (parse_env full_config)) chat
               (build_msg good_build_world (parse_env full_config) device)).
Proof.
  assert (first_missing (parse_env full_config) required_keys = None) as H1
    by (vm_compute; reflexivity).
  split; [reflexivity|]. split; [exact H1|].
  destruct (tracked_message_is_the_compile_status (example_args true)
              good_build_world full_config eq_refl H1)
    as (device & chat & Hd & Hc & Hs & _).
  exists device, chat. split; [exact Hd|]. split; [exact Hc|exact Hs].
Defined.
